(** * generate-release-notes: the release-window and classification pipeline

    A shallow embedding of the entry script of the action, in the revision
    with the section map, the label filters, the conventional-title
    fallback and the preview comment, followed by the properties of the
    release window resolver, the collector, the classifier and the
    publisher. The earlier revision ([index.js]) has the same resolver,
    collector and release upsert, and another [bucketForLabels], kept in
    [Legacy].

    Conventions of the embedding
    - JavaScript strings are [string], the bytes of their UTF-8 form.
      [toLowerCase], [trim] and the classes of the regular expression are
      written for ASCII text, where a byte is a character, and the
      statements about them are statements about ASCII text
      ([ascii_text]).
    - What the script reads out of a dictionary is a [Value]: a string,
      or some other value, of which only the truth, the identity and the
      printed form matter. A dictionary is read through its property
      lookup, own and inherited properties alike ([plain_object]); the
      section map of the inputs may also be [null] ([SectionMap]), and
      reading a property of [null] throws.
    - [null]/[undefined] strings are [option string]; the truthiness test
      of the source is written out ([truthy], [otruthy]).
    - Numbers that are integers in the source are [Z].
    - An [await]ed request on the hosting platform threads the state of
      the platform and may throw: see the monad [M] below. The inputs of
      the action arrive parsed ([Inputs]). *)

From Stdlib Require Import ZArith Ascii String List Sorted Permutation Lia.
From stdpp Require Import base option strings pretty list gmap.

(** ** The JavaScript runtime pieces the script relies on *)

Module Js.

(** [Boolean(s)] for a string: only the empty string is falsy. *)
Definition truthy (s : string) : bool :=
  match s with
  | EmptyString => false
  | String _ _ => true
  end.

(** [Boolean(v)] for a value that is a string, [null] or [undefined]. *)
Definition otruthy (v : option string) : bool :=
  match v with
  | Some s => truthy s
  | None => false
  end.

(** [a || b] on strings. *)
Definition or_else (a : option string) (b : string) : string :=
  match a with
  | Some s => if truthy s then s else b
  | None => b
  end.

Definition code (c : ascii) : N := N_of_ascii c.

Definition between (lo hi : N) (c : ascii) : bool :=
  ((lo <=? code c) && (code c <=? hi))%N.

Definition is_upper : ascii -> bool := between 65 90.
Definition is_lower : ascii -> bool := between 97 122.
Definition is_digit : ascii -> bool := between 48 57.

Definition lower_ascii (c : ascii) : ascii :=
  if is_upper c then ascii_of_N (code c + 32) else c.

(** [String.prototype.toLowerCase], on ASCII text. *)
Fixpoint toLowerCase (s : string) : string :=
  match s with
  | EmptyString => EmptyString
  | String c r => String (lower_ascii c) (toLowerCase r)
  end.

(** The class [\w]. *)
Definition is_word (c : ascii) : bool :=
  is_upper c || is_lower c || is_digit c || (code c =? 95)%N.

(** The line terminators among the ASCII characters, which [.] does not
    match. *)
Definition is_newline (c : ascii) : bool :=
  (code c =? 10)%N || (code c =? 13)%N.

(** The class [\s] (and what [trim] strips), among the ASCII
    characters. *)
Definition is_space (c : ascii) : bool :=
  between 9 13 c || (code c =? 32)%N.

(** [Array.prototype.includes] on strings. *)
Definition includes (l : list string) (x : string) : bool :=
  existsb (String.eqb x) l.

(** [String.prototype.startsWith]. *)
Definition startsWith (s p : string) : bool := String.prefix p s.

(** [s.replace(pat, by)] with a string pattern: the first occurrence only. *)
Definition replace_first (s pat by_ : string) : string :=
  match String.index 0 pat s with
  | Some i =>
      String.substring 0 i s +:+ by_
        +:+ String.substring (i + String.length pat)
              (String.length s - (i + String.length pat)) s
  | None => s
  end.

(** [s.includes(sub)] on strings. *)
Definition str_includes (s sub : string) : bool :=
  match String.index 0 sub s with
  | Some _ => true
  | None => false
  end.

(** [s.replace(/\r?\n/g, " ")]. *)
Fixpoint replace_newlines (s : string) : string :=
  match s with
  | EmptyString => EmptyString
  | String c r =>
      if (code c =? 10)%N then String " " (replace_newlines r)
      else if (code c =? 13)%N then
        match r with
        | String c2 r2 =>
            if (code c2 =? 10)%N then String " " (replace_newlines r2)
            else String c (replace_newlines r)
        | EmptyString => String c EmptyString
        end
      else String c (replace_newlines r)
  end.

Fixpoint trim_start (s : string) : string :=
  match s with
  | EmptyString => EmptyString
  | String c r => if is_space c then trim_start r else s
  end.

Fixpoint trim_end (s : string) : string :=
  match s with
  | EmptyString => EmptyString
  | String c r =>
      match trim_end r with
      | EmptyString => if is_space c then EmptyString else String c EmptyString
      | r' => String c r'
      end
  end.

(** [String.prototype.trim], on ASCII text. *)
Definition trim (s : string) : string := trim_end (trim_start s).

(** [String(n)] for an integer. *)
Definition of_int (n : Z) : string := pretty n.

(** Decimal digits of [n], left-padded with zeros to [width]. *)
Definition pad (width : nat) (n : Z) : string :=
  let d := pretty (Z.abs n) in
  String.concat "" (repeat "0" (width - String.length d)) +:+ d.

(** Days since the epoch to (year, month, day) in the proleptic Gregorian
    calendar. *)
Definition civil_from_days (days : Z) : Z * Z * Z :=
  let z := (days + 719468)%Z in
  let era := (z / 146097)%Z in
  let doe := (z - era * 146097)%Z in
  let yoe := ((doe - doe / 1460 + doe / 36524 - doe / 146096) / 365)%Z in
  let doy := (doe - (365 * yoe + yoe / 4 - yoe / 100))%Z in
  let mp := ((5 * doy + 2) / 153)%Z in
  let d := (doy - (153 * mp + 2) / 5 + 1)%Z in
  let m := (if (mp <? 10)%Z then mp + 3 else mp - 9)%Z in
  let y := (yoe + era * 400 + (if (m <=? 2)%Z then 1 else 0))%Z in
  (y, m, d).

(** [new Date(ms).toISOString()], for a time value in the range of [Date]. *)
Definition toISOString (ms : Z) : string :=
  let day := (ms / 86400000)%Z in
  let t := (ms mod 86400000)%Z in
  let '(y, m, d) := civil_from_days day in
  let year :=
    if ((0 <=? y) && (y <=? 9999))%Z then pad 4 y
    else (if (y <? 0)%Z then "-" else "+") +:+ pad 6 y in
  year +:+ "-" +:+ pad 2 m +:+ "-" +:+ pad 2 d +:+ "T"
    +:+ pad 2 (t / 3600000) +:+ ":" +:+ pad 2 (t / 60000 mod 60) +:+ ":"
    +:+ pad 2 (t / 1000 mod 60) +:+ "." +:+ pad 3 (t mod 1000) +:+ "Z".

End Js.

Import Js.

(** ** Data model *)

(** The record pushed by [searchMergedPRs]: [{ number, title, user, labels }]. *)
Record PR := mkPR {
  number : Z;
  title : string;
  user : string;
  labels : list string
}.

(** The second argument of [shouldExcludePR]. *)
Record FilterOpts := mkFilterOpts {
  includeLabels : list string;
  excludeLabels : list string;
  ignoreDeps : bool
}.

(** ** Errors *)

(** What the script can throw: the request error of the client (status
    and message), an [Error] made by the script, or the [TypeError] of
    the runtime. *)
Inductive exn :=
| RequestError (status : Z) (message : string)
| Error (message : string)
| TypeError (message : string).

(** [err?.message || String(err)]. *)
Definition exn_text (e : exn) : string :=
  match e with
  | RequestError _ m => if truthy m then m else "HttpError"
  | Error m => if truthy m then m else "Error"
  | TypeError m => if truthy m then m else "TypeError"
  end.

(** ** Values and dictionaries *)

(** A value read out of a dictionary. The script tests its truth,
    compares it with ["Other"], uses it as the key of a [Map] and prints
    it, so that is what the model keeps: a string; a falsy value that is
    not a string ([undefined], [null], [false], [0]); or any other value
    (a function, an object, an array, a number, [true]), with an [id]
    that tells such values apart the way the keys of a [Map] are told
    apart, and the text [String(v)]. *)
Inductive Value :=
| VString (s : string)
| VFalsy
| VOther (id : N) (text : string).

(** [Boolean(v)]. *)
Definition value_truthy (v : Value) : bool :=
  match v with
  | VString s => truthy s
  | VFalsy => false
  | VOther _ _ => true
  end.

(** [String(v)], as a template literal prints [v]. *)
Definition value_text (v : Value) : string :=
  match v with
  | VString s => s
  | VFalsy => "undefined"
  | VOther _ t => t
  end.

(** The equality of [Map] keys (SameValueZero). *)
Definition same_value (a b : Value) : bool :=
  match a, b with
  | VString x, VString y => String.eqb x y
  | VFalsy, VFalsy => true
  | VOther i _, VOther j _ => (i =? j)%N
  | _, _ => false
  end.

(** [v === "Other"]. *)
Definition is_other (v : Value) : bool :=
  match v with
  | VString s => String.eqb s "Other"
  | _ => false
  end.

Definition native (name : string) : string :=
  "function " +:+ name +:+ "() { [native code] }".

(** The properties every plain object inherits from [Object.prototype]:
    the methods, and the accessor [__proto__], which gives the prototype
    object itself. *)
Definition OBJECT_PROTOTYPE : gmap string Value :=
  list_to_map
    [ ("constructor", VOther 1 (native "Object"));
      ("__defineGetter__", VOther 2 (native "__defineGetter__"));
      ("__defineSetter__", VOther 3 (native "__defineSetter__"));
      ("hasOwnProperty", VOther 4 (native "hasOwnProperty"));
      ("__lookupGetter__", VOther 5 (native "__lookupGetter__"));
      ("__lookupSetter__", VOther 6 (native "__lookupSetter__"));
      ("isPrototypeOf", VOther 7 (native "isPrototypeOf"));
      ("propertyIsEnumerable", VOther 8 (native "propertyIsEnumerable"));
      ("toString", VOther 9 (native "toString"));
      ("valueOf", VOther 10 (native "valueOf"));
      ("__proto__", VOther 11 "[object Object]");
      ("toLocaleString", VOther 12 (native "toLocaleString")) ].

(** [obj[name]] for an object literal or an object made by [JSON.parse]:
    the own property when there is one, else the inherited one, else
    [undefined]. *)
Definition plain_object (own : gmap string Value) (name : string) : Value :=
  match own !! name with
  | Some v => v
  | None =>
      match OBJECT_PROTOTYPE !! name with
      | Some v => v
      | None => VFalsy
      end
  end.

(** The section map of a run: [DEFAULT_LABEL_MAP], or what [JSON.parse]
    made of the input, which is [null] or a value whose properties can be
    read (an object as a rule; an array, a string, a number or a boolean
    has properties too). *)
Inductive SectionMap :=
| NullMap
| PropertyMap (get : string -> Value).

(** ** Classifier *)

Definition DEFAULT_LABELS : gmap string Value :=
  list_to_map
    [ ("bug", VString "Fixed"); ("fix", VString "Fixed");
      ("bugfix", VString "Fixed");
      ("enhancement", VString "Added"); ("feat", VString "Added");
      ("feature", VString "Added");
      ("chore", VString "Changed"); ("refactor", VString "Changed");
      ("deps", VString "Changed"); ("dependencies", VString "Changed");
      ("docs", VString "Docs"); ("documentation", VString "Docs") ].

Definition DEFAULT_LABEL_MAP : SectionMap :=
  PropertyMap (plain_object DEFAULT_LABELS).

Definition CONVENTIONAL_PREFIXES : gmap string Value :=
  list_to_map
    [ ("feat", VString "Added"); ("fix", VString "Fixed");
      ("chore", VString "Changed"); ("refactor", VString "Changed");
      ("docs", VString "Docs") ].

Definition CONVENTIONAL_PREFIX_MAP : string -> Value :=
  plain_object CONVENTIONAL_PREFIXES.

Definition DEPS_LABELS : gset string :=
  {[ "dependencies"; "deps"; "dependabot" ]}.

(** [sectionMap[name]]: reading a property of [null] throws the
    [TypeError] of the runtime, with the message of current Node. *)
Definition read_property (sectionMap : SectionMap) (name : string)
  : exn + Value :=
  match sectionMap with
  | NullMap =>
      inl (TypeError ("Cannot read properties of null (reading '" +:+ name
                        +:+ "')"))
  | PropertyMap get => inr (get name)
  end.

(** The [for (const name of names)] loop of [bucketForLabels]:
    [if (sectionMap[name]) return sectionMap[name]]. *)
Fixpoint bucket_scan (names : list string) (sectionMap : SectionMap)
  : exn + Value :=
  match names with
  | [] => inr (VString "Other")
  | name :: rest =>
      match read_property sectionMap name with
      | inl e => inl e
      | inr v => if value_truthy v then inr v else bucket_scan rest sectionMap
      end
  end.

Definition bucketForLabels (labelNames : list string)
    (sectionMap : SectionMap) : exn + Value :=
  let names := map toLowerCase labelNames in
  bucket_scan names sectionMap.

Definition shouldExcludePR (pr : PR) (o : FilterOpts) : bool :=
  let lbls := map toLowerCase (labels pr) in
  if ignoreDeps o && (0 <? length lbls)%nat
     && forallb (fun l => bool_decide (l ∈ DEPS_LABELS)) lbls
  then true
  else if (0 <? length (excludeLabels o))%nat
          && existsb (fun l => includes (excludeLabels o) l) lbls
  then true
  else if (0 <? length (includeLabels o))%nat
          && negb (existsb (fun l => includes (includeLabels o) l) lbls)
  then true
  else false.

(** The earlier revision of the script ([index.js]) has no section map:
    its [bucketForLabels] tests the section groups in a fixed order. *)
Module Legacy.

Definition hasAny (names cands : list string) : bool :=
  existsb (fun c => includes names c) cands.

Definition bucketForLabels (labelNames : list string) : string :=
  let names := map toLowerCase labelNames in
  if hasAny names ["bug"; "fix"; "bugfix"] then "Fixed"
  else if hasAny names ["enhancement"; "feat"; "feature"] then "Added"
  else if hasAny names ["chore"; "refactor"; "deps"; "dependencies"] then "Changed"
  else if hasAny names ["docs"; "documentation"] then "Docs"
  else "Other".

End Legacy.

(** *** The title pattern [/^(\w+)(?:\(.+?\))?:\s*/] *)

(** [(\w+)], greedy: the longest run of word characters and what follows.
    A shorter run is never followed by ["("] or [":"], so no other split
    can match. *)
Fixpoint span_word (s : string) : string * string :=
  match s with
  | EmptyString => (EmptyString, EmptyString)
  | String c r =>
      if is_word c
      then let (w, rest) := span_word r in (String c w, rest)
      else (EmptyString, s)
  end.

Definition starts_with_colon (s : string) : bool :=
  match s with
  | String ":" _ => true
  | _ => false
  end.

(** [.+?\)] once the first [.] is consumed, followed by [":"]: close the
    group at the first [")"] that a [":"] follows, otherwise let the lazy
    [.+?] take one more character (never a line terminator). *)
Fixpoint close_scope (s : string) : bool :=
  match s with
  | EmptyString => false
  | String c r =>
      if (code c =? 41)%N && starts_with_colon r then true
      else if is_newline c then false
      else close_scope r
  end.

(** [(?:\(.+?\))?:] on the text after the word. The trailing [\s*] always
    matches and does not change the captured word. *)
Definition after_word (rest : string) : bool :=
  match rest with
  | String ":" _ => true
  | String "(" (String c r) => negb (is_newline c) && close_scope r
  | _ => false
  end.

(** [title.match(...)]: the first capture group, [None] when there is no
    match. *)
Definition conventional_match (t : string) : option string :=
  let (w, rest) := span_word t in
  if truthy w && after_word rest then Some w else None.

(** [CONVENTIONAL_PREFIX_MAP[match[1].toLowerCase()] || null]; [VFalsy]
    is the [null] of no match and of a falsy entry. *)
Definition bucketFromConventionalTitle (t : string) : Value :=
  match conventional_match t with
  | None => VFalsy
  | Some w =>
      let v := CONVENTIONAL_PREFIX_MAP (toLowerCase w) in
      if value_truthy v then v else VFalsy
  end.

(** The section of one record, as the grouping loop of [run] and the
    preview comment compute it:
    [let b = bucketForLabels(pr.labels, sectionMap);
     if (b === "Other" && useConventional)
       b = bucketFromConventionalTitle(pr.title) || "Other";] *)
Definition section_of (sectionMap : SectionMap)
    (useConventional : bool) (lbls : list string) (t : string)
  : exn + Value :=
  match bucketForLabels lbls sectionMap with
  | inl e => inl e
  | inr b =>
      inr (if is_other b && useConventional
           then let v := bucketFromConventionalTitle t in
                if value_truthy v then v else VString "Other"
           else b)
  end.

(** The [Map] of buckets keeps insertion order: an association list.
    [if (!buckets.has(b)) buckets.set(b, []); buckets.get(b).push(pr)]. *)
Fixpoint bucket_push (b : Value) (pr : PR) (buckets : list (Value * list PR))
  : list (Value * list PR) :=
  match buckets with
  | [] => [(b, [pr])]
  | (k, items) :: rest =>
      if same_value k b then (k, items ++ [pr]) :: rest
      else (k, items) :: bucket_push b pr rest
  end.

(** [buckets.get(k) || []] for a section name [k]. *)
Definition bucket_get (k : string) (buckets : list (Value * list PR))
  : list PR :=
  match find (fun e => same_value (fst e) (VString k)) buckets with
  | Some e => snd e
  | None => []
  end.

Definition initial_buckets : list (Value * list PR) :=
  [ (VString "Added", []); (VString "Fixed", []); (VString "Changed", []);
    (VString "Docs", []); (VString "Other", []) ].

(** The [for (const pr of filtered)] loop over the buckets; a throw of
    the section lookup ends it. *)
Fixpoint group_loop (sectionMap : SectionMap) (useConventional : bool)
    (filtered : list PR) (buckets : list (Value * list PR))
  : exn + list (Value * list PR) :=
  match filtered with
  | [] => inr buckets
  | pr :: rest =>
      match section_of sectionMap useConventional (labels pr) (title pr) with
      | inl e => inl e
      | inr b =>
          group_loop sectionMap useConventional rest (bucket_push b pr buckets)
      end
  end.

Definition group (sectionMap : SectionMap) (useConventional : bool)
    (filtered : list PR) : exn + list (Value * list PR) :=
  group_loop sectionMap useConventional filtered initial_buckets.

(** ** Renderer helpers *)

Definition escapeMd (s : string) : string := trim (replace_newlines s).

Definition formatLine (pr : PR) : string :=
  "- " +:+ escapeMd (title pr) +:+ " (#" +:+ of_int (number pr) +:+ ") @"
    +:+ user pr.

(** ** What the hosting platform returns *)

(** An element of the [listTags] response; only [name] is read. *)
Record Tag := mkTag { tag_name : string }.

(** [data.object] of a [getRef] or [getTag] response. *)
Record GitObject := mkGitObject { obj_sha : string; obj_type : string }.

(** [data.commit?.committer?.date] and [data.commit?.author?.date]. *)
Record CommitDates := mkCommitDates {
  committer_date : option string;
  author_date : option string
}.

(** A label of a search item: a plain string, or an object with a [name]. *)
Inductive RawLabel :=
| LabelString (s : string)
| LabelObject (name : option string).

(** An element of [data.items] of the search response. [item_labels] is
    [None] when [item.labels] is not an array; [item_login] is
    [item.user?.login]. *)
Record Item := mkItem {
  item_number : Z;
  item_title : string;
  item_login : option string;
  item_labels : option (list RawLabel)
}.

Record Release := mkRelease {
  release_id : Z;
  release_tag : string;
  release_name : string;
  release_body : string;
  release_draft : bool;
  release_url : string
}.

Record Comment := mkComment {
  comment_id : Z;
  comment_issue : Z;
  comment_body : option string;
  comment_url : string
}.

(** The operations of the authenticated client the script calls, for the
    repository [owner/repo] of the run. Each takes the platform state and
    returns the new state with the response or the error thrown. *)
Record Octokit (W : Type) := mkOctokit {
  listTags : Z -> Z -> W -> W * (exn + list Tag);
  getRef : string -> W -> W * (exn + GitObject);
  getTag : string -> W -> W * (exn + GitObject);
  getCommit : string -> W -> W * (exn + CommitDates);
  issuesAndPullRequests : string -> Z -> Z -> W -> W * (exn + list Item);
  getReleaseByTag : string -> W -> W * (exn + Release);
  updateRelease : Z -> string -> bool -> W -> W * (exn + Release);
  createRelease : string -> string -> string -> bool -> W -> W * (exn + Release);
  listComments : Z -> Z -> W -> W * (exn + list Comment);
  updateComment : Z -> string -> W -> W * (exn + Comment);
  createComment : Z -> string -> W -> W * (exn + Comment)
}.

Arguments listTags {W}.
Arguments getRef {W}.
Arguments getTag {W}.
Arguments getCommit {W}.
Arguments issuesAndPullRequests {W}.
Arguments getReleaseByTag {W}.
Arguments updateRelease {W}.
Arguments createRelease {W}.
Arguments listComments {W}.
Arguments updateComment {W}.
Arguments createComment {W}.

(** ** The monad of the script: state, exceptions, and loop fuel *)

Inductive LogLine :=
| Info (s : string)
| Warning (s : string).

(** The state a run threads: the platform, the log of [core.info] and
    [core.warning], the chunks written to the step summary, and the
    message of [core.setFailed]. *)
Record St (W : Type) := mkSt {
  platform : W;
  logs : list LogLine;
  summary : list string;
  failed : option string
}.

Arguments mkSt {W}.
Arguments platform {W}.
Arguments logs {W}.
Arguments summary {W}.
Arguments failed {W}.

Inductive outcome (A : Type) :=
| Returned (a : A)
| Thrown (e : exn)
| OutOfFuel.

Arguments Returned {A}.
Arguments Thrown {A}.
Arguments OutOfFuel {A}.

Definition M (W A : Type) : Type := St W -> St W * outcome A.

Definition ret {W A} (a : A) : M W A := fun st => (st, Returned a).

Definition throw {W A} (e : exn) : M W A := fun st => (st, Thrown e).

(** A computation of the script that makes no request: its value, or
    its throw. *)
Definition lift {W A} (r : exn + A) : M W A :=
  match r with
  | inl e => throw e
  | inr a => ret a
  end.

Definition out_of_fuel {W A} : M W A := fun st => (st, OutOfFuel).

Definition bind {W A B} (m : M W A) (k : A -> M W B) : M W B :=
  fun st =>
    match m st with
    | (st', Returned a) => k a st'
    | (st', Thrown e) => (st', Thrown e)
    | (st', OutOfFuel) => (st', OutOfFuel)
    end.

Notation "'let*' x ':=' m 'in' k" := (bind m (fun x => k))
  (at level 10, x pattern, m at level 100, k at level 200).

Notation "m ';;' k" := (bind m (fun _ => k))
  (at level 100, k at level 200, right associativity).

(** [try { body } catch (e) { handler }]: the effects of [body] up to the
    throw stay. *)
Definition try_catch {W A} (body : M W A) (handler : exn -> M W A) : M W A :=
  fun st =>
    match body st with
    | (st', Thrown e) => handler e st'
    | r => r
    end.

Definition with_platform {W} (st : St W) (w : W) : St W :=
  mkSt w (logs st) (summary st) (failed st).

(** [await octokit.rest...]: run a client operation on the platform. *)
Definition call {W A} (op : W -> W * (exn + A)) : M W A :=
  fun st =>
    match op (platform st) with
    | (w, inr a) => (with_platform st w, Returned a)
    | (w, inl e) => (with_platform st w, Thrown e)
    end.

Definition log {W} (l : LogLine) : M W unit :=
  fun st => (mkSt (platform st) (logs st ++ [l]) (summary st) (failed st),
             Returned tt).

(** [core.summary.addRaw(md).addEOL().write()]. *)
Definition writeSummary {W} (md : string) : M W unit :=
  fun st => (mkSt (platform st) (logs st) (summary st ++ [md]) (failed st),
             Returned tt).

Definition setFailed {W} (msg : string) : M W unit :=
  fun st => (mkSt (platform st) (logs st) (summary st) (Some msg),
             Returned tt).

(** ** Trigger context and inputs *)

(** [github.context.payload.pull_request], as far as the script reads it. *)
Record PullRequestPayload := mkPullRequestPayload {
  pull_number : Z;
  pull_title : string;
  pull_labels : list RawLabel;
  pull_login : option string
}.

(** [github.context], with the repository and the clock of the run.
    [refType] and [refName] are [None] where the toolkit does not provide
    them. [now] is [Date.now()], in milliseconds. *)
Record Context := mkContext {
  owner : string;
  repo : string;
  eventName : string;
  refType : option string;
  refName : option string;
  ref : option string;
  pull_request : option PullRequestPayload;
  now : Z
}.

(** The inputs of the action after [toBool], [clampInt],
    [parseCommaSeparated] and [JSON.parse]; the section map is the
    default one when the input is empty or does not parse. *)
Record Inputs := mkInputs {
  in_baseBranch : string;
  in_createRelease : bool;
  in_draft : bool;
  in_sinceDays : Z;
  in_maxPRs : Z;
  in_excludeLabels : list string;
  in_includeLabels : list string;
  in_ignoreDeps : bool;
  in_useConventional : bool;
  in_previewOnPR : bool;
  in_sectionMap : SectionMap
}.

(** [toBool]; [None] is a [null] or [undefined] input. *)
Definition toBool (s : option string) (def : bool) : bool :=
  match s with
  | None => def
  | Some s =>
      let v := toLowerCase (trim s) in
      if includes ["1"; "true"; "yes"; "y"; "on"] v then true
      else if includes ["0"; "false"; "no"; "n"; "off"] v then false
      else def
  end.

(** [s.split(",")]. *)
Fixpoint split_comma (s : string) : list string :=
  match s with
  | EmptyString => [EmptyString]
  | String c r =>
      if (code c =? 44)%N then EmptyString :: split_comma r
      else match split_comma r with
           | h :: t => String c h :: t
           | [] => [String c EmptyString]
           end
  end.

Definition parseCommaSeparated (s : option string) : list string :=
  List.filter truthy
    (map (fun x => toLowerCase (trim x)) (split_comma (or_else s ""))).

(** [clampInt] on the result of [parseInt]: [None] when it is not finite
    ([NaN], or an infinity for a number too large). *)
Definition clampInt (n : option Z) (def min max : Z) : Z :=
  match n with
  | None => def
  | Some n => Z.max min (Z.min max n)
  end.

Definition isoDaysAgo (ctx : Context) (days : Z) : string :=
  toISOString (now ctx - days * 24 * 60 * 60 * 1000).

(** The outcome of the release window resolution in [run]. *)
Record Window := mkWindow {
  currentTag : option string;
  previousTag : option string;
  baselineISO : string
}.

Definition nl : string := String (ascii_of_N 10) EmptyString.

Definition PREVIEW_MARKER : string := "<!-- release-notes-preview:v0 -->".

Fixpoint findIndex {A} (f : A -> bool) (l : list A) : option nat :=
  match l with
  | [] => None
  | x :: r => if f x then Some 0%nat else option_map S (findIndex f r)
  end.

Definition oeqb (a : option string) (b : string) : bool :=
  match a with
  | Some s => String.eqb s b
  | None => false
  end.

(** [eventName === "push" && (refType === "tag" ||
     (github.context.ref || "").startsWith("refs/tags/"))]. *)
Definition isTagPush (ctx : Context) : bool :=
  String.eqb (eventName ctx) "push"
  && (oeqb (refType ctx) "tag"
      || startsWith (or_else (ref ctx) "") "refs/tags/").

(** [currentTag] after the first [if] of [run]: [null] unless the run is a
    tag push, then [refName || ref.replace("refs/tags/", "")]. *)
Definition pushedTag (ctx : Context) : option string :=
  if isTagPush ctx
  then Some (or_else (refName ctx)
               (replace_first (or_else (ref ctx) "") "refs/tags/" ""))
  else None.

(** The title line of the document. *)
Definition titleLine (ctx : Context) (w : Window) : string :=
  if String.eqb (eventName ctx) "push" && otruthy (currentTag w)
  then "## Release " +:+ or_else (currentTag w) ""
  else "## Release notes (unreleased)".

Definition rangeLine (w : Window) : string :=
  if otruthy (currentTag w) && otruthy (previousTag w)
  then "From **" +:+ or_else (previousTag w) "" +:+ "** to **"
         +:+ or_else (currentTag w) "" +:+ "**"
  else if otruthy (currentTag w)
  then "Since tag **" +:+ or_else (currentTag w) "" +:+ "**"
  else "Since **" +:+ baselineISO w +:+ "**".

Definition order : list string := ["Added"; "Fixed"; "Changed"; "Docs"; "Other"].

(** The loop over [order]: the text of the sections and the total. *)
Definition render_sections (buckets : list (Value * list PR)) : string * Z :=
  fold_left
    (fun acc k =>
       let items := bucket_get k buckets in
       match items with
       | [] => acc
       | _ =>
           (fst acc +:+ "### " +:+ k +:+ nl
              +:+ String.concat "" (map (fun pr => formatLine pr +:+ nl) items)
              +:+ nl,
            (snd acc + Z.of_nat (length items))%Z)
       end)
    order (EmptyString, 0%Z).

Definition render (ctx : Context) (w : Window)
    (buckets : list (Value * list PR)) : string :=
  let body := titleLine ctx w +:+ nl +:+ nl +:+ rangeLine w +:+ nl in
  let body :=
    if otruthy (currentTag w) && otruthy (previousTag w)
    then body +:+ "[Full diff](https://github.com/" +:+ owner ctx +:+ "/"
           +:+ repo ctx +:+ "/compare/" +:+ or_else (previousTag w) ""
           +:+ "..." +:+ or_else (currentTag w) "" +:+ ")" +:+ nl
    else body in
  let body := body +:+ nl in
  let (sections, total) := render_sections buckets in
  let body := body +:+ sections in
  if (total =? 0)%Z then body +:+ "_No merged PRs found in this range._" +:+ nl
  else body.

(** ** Collector: normalisation and the final sort *)

(** [typeof l === "string" ? l : l?.name], kept when truthy. *)
Definition label_name (l : RawLabel) : option string :=
  match l with
  | LabelString s => if truthy s then Some s else None
  | LabelObject (Some n) => if truthy n then Some n else None
  | LabelObject None => None
  end.

Definition normalize (item : Item) : PR :=
  let lbls :=
    match item_labels item with
    | Some ls => omap label_name ls
    | None => []
    end in
  mkPR (item_number item) (item_title item)
       (or_else (item_login item) "unknown") lbls.

(** The [for (const item of resp.data.items)] loop: push, and stop as soon
    as [out.length >= maxPRs]. *)
Fixpoint push_items (maxPRs : Z) (items : list Item) (out : list PR)
  : list PR :=
  match items with
  | [] => out
  | item :: rest =>
      let out' := out ++ [normalize item] in
      if (maxPRs <=? Z.of_nat (length out'))%Z then out'
      else push_items maxPRs rest out'
  end.

(** [out.sort((a, b) => a.number - b.number)]: the sort of the engine is
    stable, so on integers the result is the stable sort by [number]. *)
Fixpoint insert_by_number (x : PR) (l : list PR) : list PR :=
  match l with
  | [] => [x]
  | y :: r =>
      if (number x <=? number y)%Z then x :: l
      else y :: insert_by_number x r
  end.

Fixpoint sort_by_number (l : list PR) : list PR :=
  match l with
  | [] => []
  | x :: r => insert_by_number x (sort_by_number r)
  end.

(** The query [q] of [searchMergedPRs]. *)
Definition search_query (ctx : Context) (baseBranch mergedAfterISO : string)
  : string :=
  "repo:" +:+ owner ctx +:+ "/" +:+ repo ctx +:+ " is:pr is:merged base:"
    +:+ baseBranch +:+ " merged:>" +:+ mergedAfterISO.

(** [(prData.labels || []).map((l) => l.name || l)], then [String(l)]. *)
Definition payload_label (l : RawLabel) : string :=
  match l with
  | LabelString s => s
  | LabelObject (Some n) => if truthy n then n else "[object Object]"
  | LabelObject None => "[object Object]"
  end.

(** ** The script over a client *)

Record UpsertResult := mkUpsertResult { action : string; url : string }.

Record CommentResult := mkCommentResult { updated : bool; comment_result_url : string }.

Section Script.

Context {W : Type}.
Variable o : Octokit W.

(** The [while (out.length < max)] loop of [listTagsAll]. A turn of the
    loop that does not leave it adds a full page, so [max] turns of fuel
    are never used up (see [listTagsAll_total]). *)
Fixpoint listTags_loop (fuel : nat) (max page : Z) (out : list Tag)
  : M W (list Tag) :=
  if (Z.of_nat (length out) <? max)%Z then
    match fuel with
    | O => out_of_fuel
    | S fuel' =>
        let* data := call (listTags o 100 page) in
        if (length data =? 0)%nat then ret out
        else
          let out' := out ++ data in
          if (length data <? 100)%nat then ret out'
          else listTags_loop fuel' max (page + 1) out'
    end
  else ret out.

Definition listTagsAll (max : Z) : M W (list Tag) :=
  let* out := listTags_loop (Z.to_nat max) max 1 [] in
  ret (firstn (Z.to_nat max) out).

Definition first_date (c : CommitDates) : option string :=
  if otruthy (committer_date c) then committer_date c
  else if otruthy (author_date c) then author_date c
  else None.

Definition commit_date (tagName sha : string) : M W string :=
  let* commit := call (getCommit o sha) in
  match first_date commit with
  | Some dt => ret dt
  | None =>
      throw (Error ("Unable to determine commit date for tag " +:+ tagName))
  end.

Definition tagCommitDateISO (tagName : string) : M W string :=
  let* refResp := call (getRef o ("tags/" +:+ tagName)) in
  let* target :=
    if String.eqb (obj_type refResp) "tag"
    then call (getTag o (obj_sha refResp))
    else ret refResp in
  if negb (String.eqb (obj_type target) "commit")
  then commit_date tagName (obj_sha target)
  else commit_date tagName (obj_sha target).

(** The [while (out.length < maxPRs)] loop of [searchMergedPRs]. Every
    turn that does not leave the loop pushes at least one record. *)
Fixpoint search_loop (fuel : nat) (q : string) (maxPRs page : Z)
    (out : list PR) : M W (list PR) :=
  if (Z.of_nat (length out) <? maxPRs)%Z then
    match fuel with
    | O => out_of_fuel
    | S fuel' =>
        let* items := call (issuesAndPullRequests o q 100 page) in
        if (length items =? 0)%nat then ret out
        else
          let out' := push_items maxPRs items out in
          if (length items <? 100)%nat then ret out'
          else search_loop fuel' q maxPRs (page + 1) out'
    end
  else ret out.

Definition searchMergedPRs (ctx : Context) (baseBranch mergedAfterISO : string)
    (maxPRs : Z) : M W (list PR) :=
  let q := search_query ctx baseBranch mergedAfterISO in
  let* out := search_loop (Z.to_nat maxPRs) q maxPRs 1 [] in
  ret (sort_by_number out).

Definition upsertReleaseByTag (tag body : string) (draft : bool)
  : M W UpsertResult :=
  try_catch
    (let* existing := call (getReleaseByTag o tag) in
     let* upd := call (updateRelease o (release_id existing) body draft) in
     ret (mkUpsertResult "updated" (release_url upd)))
    (fun e =>
     let* created :=
       call (createRelease o tag ("Release " +:+ tag) body draft) in
     ret (mkUpsertResult "created" (release_url created))).

Definition upsertComment (issue_number : Z) (body : string)
  : M W CommentResult :=
  let* comments := call (listComments o issue_number 100) in
  match find (fun c => str_includes (or_else (comment_body c) "")
                         PREVIEW_MARKER) comments with
  | Some existing =>
      call (updateComment o (comment_id existing) body) ;;
      ret (mkCommentResult true (comment_url existing))
  | None =>
      let* created := call (createComment o issue_number body) in
      ret (mkCommentResult false (comment_url created))
  end.

(** The release window: the [if (currentTag) ... else ...] of [run]. *)
Definition releaseWindow (ctx : Context) (sinceDays : Z) (tags : list Tag)
  : M W Window :=
  let currentTag := pushedTag ctx in
  if otruthy currentTag then
    let cur := or_else currentTag "" in
    let* previousTag :=
      match findIndex (fun t => String.eqb (tag_name t) cur) tags with
      | None =>
          log (Warning ("Current tag " +:+ cur
                 +:+ " not found in listTags; falling back to latest tag logic.")) ;;
          ret None
      | Some idx =>
          ret (if (idx + 1 <? length tags)%nat
               then tag_name <$> tags !! (idx + 1)%nat
               else None)
      end in
    if otruthy previousTag then
      let* baselineISO := tagCommitDateISO (or_else previousTag "") in
      ret (mkWindow currentTag previousTag baselineISO)
    else
      ret (mkWindow currentTag previousTag (isoDaysAgo ctx sinceDays))
  else
    match tags with
    | t0 :: t1 :: _ =>
        let* baselineISO := tagCommitDateISO (tag_name t0) in
        ret (mkWindow (Some (tag_name t0)) (Some (tag_name t1)) baselineISO)
    | [t0] =>
        let* baselineISO := tagCommitDateISO (tag_name t0) in
        ret (mkWindow (Some (tag_name t0)) None baselineISO)
    | [] =>
        ret (mkWindow currentTag None (isoDaysAgo ctx sinceDays))
    end.

(** The release sink of [run]. *)
Definition publishRelease (ctx : Context) (inp : Inputs) (w : Window)
    (body : string) : M W unit :=
  if in_createRelease inp then
    if String.eqb (eventName ctx) "push" && otruthy (currentTag w) then
      let* res :=
        upsertReleaseByTag (or_else (currentTag w) "") body (in_draft inp) in
      log (Info ("Release " +:+ action res +:+ ": " +:+ url res)) ;;
      writeSummary (nl +:+ "---" +:+ nl
        +:+ (if in_draft inp then "Draft release" else "Release") +:+ " "
        +:+ action res +:+ ": " +:+ url res +:+ nl)
    else
      log (Info "create_release=true but this is not a tag push; skipping GitHub Release creation.") ;;
      writeSummary (nl +:+ "---" +:+ nl
        +:+ "Release creation skipped (not a tag push)." +:+ nl)
  else ret tt.

(** The preview comment of [run]. *)
Definition publishPreview (ctx : Context) (inp : Inputs) : M W unit :=
  if in_previewOnPR inp && String.eqb (eventName ctx) "pull_request" then
    match pull_request ctx with
    | Some prData =>
        let prNumber := pull_number prData in
        if negb (prNumber =? 0)%Z then
          let prLabels := map payload_label (pull_labels prData) in
          let* section :=
            lift (section_of (in_sectionMap inp) (in_useConventional inp)
                             prLabels (pull_title prData)) in
          let previewBody :=
            "### Release Notes Preview" +:+ nl +:+ PREVIEW_MARKER +:+ nl +:+ nl
            +:+ "This PR will appear in section: **" +:+ value_text section
            +:+ "**"
            +:+ nl +:+ nl +:+ "Sample entry:" +:+ nl
            +:+ formatLine (mkPR prNumber (pull_title prData)
                              (or_else (pull_login prData) "unknown") [])
            +:+ nl in
          let* c := upsertComment prNumber previewBody in
          log (Info ("Preview comment "
                 +:+ (if updated c then "updated" else "created") +:+ ": "
                 +:+ comment_result_url c))
        else ret tt
    | None => ret tt
    end
  else ret tt.

Definition main (ctx : Context) (inp : Inputs) : M W unit :=
  let* tags := listTagsAll 200 in
  let* w := releaseWindow ctx (in_sinceDays inp) tags in
  log (Info ("Base branch: " +:+ in_baseBranch inp)) ;;
  log (Info ("Current tag: " +:+ or_else (currentTag w) "(none)")) ;;
  log (Info ("Previous tag: " +:+ or_else (previousTag w) "(none)")) ;;
  log (Info ("Merged-after baseline: " +:+ baselineISO w)) ;;
  let* prs :=
    searchMergedPRs ctx (in_baseBranch inp) (baselineISO w) (in_maxPRs inp) in
  let filtered :=
    List.filter
      (fun pr => negb (shouldExcludePR pr
         (mkFilterOpts (in_includeLabels inp) (in_excludeLabels inp)
                       (in_ignoreDeps inp))))
      prs in
  let* buckets :=
    lift (group (in_sectionMap inp) (in_useConventional inp) filtered) in
  let body := render ctx w buckets in
  writeSummary body ;;
  publishRelease ctx inp w body ;;
  publishPreview ctx inp.

(** [run]: the whole body sits in [try { ... } catch (err)
    { core.setFailed(err?.message || String(err)) }]. *)
Definition run (ctx : Context) (inp : Inputs) : M W unit :=
  try_catch (main ctx inp) (fun err => setFailed (exn_text err)).

End Script.

(** ** An in-memory platform

    The simplest state the client operations can act on, after the list
    of collaborator operations of the specification (list tags by page,
    get reference, get annotated tag, get commit, search by page,
    get/update/create a release keyed by tag, list/create/update
    comments): the tag list (newest first), the objects behind
    references, the items the search returns (in the order of the
    platform), and the stored releases and comments. It serves to run the
    script on concrete scenarios and to count release records.
    [createRelease] never refuses a tag: when a tag keeps a single
    release, that is due to the script. *)
Module Memory.

Record GitHub := mkGitHub {
  gh_tags : list Tag;
  gh_refs : gmap string GitObject;
  gh_tag_objects : gmap string GitObject;
  gh_commits : gmap string CommitDates;
  gh_items : list Item;
  gh_releases : list Release;
  gh_comments : list Comment
}.

Definition not_found : exn := RequestError 404 "Not Found".

(** Page [page] (from 1) of [l], [per_page] elements a page. *)
Definition page_of {A} (per_page page : Z) (l : list A) : list A :=
  firstn (Z.to_nat per_page) (skipn (Z.to_nat ((page - 1) * per_page)) l).

Definition lookup_or_404 {A} (m : gmap string A) (k : string) (w : GitHub)
  : GitHub * (exn + A) :=
  match m !! k with
  | Some a => (w, inr a)
  | None => (w, inl not_found)
  end.

Definition set_releases (w : GitHub) (rs : list Release) : GitHub :=
  mkGitHub (gh_tags w) (gh_refs w) (gh_tag_objects w) (gh_commits w)
           (gh_items w) rs (gh_comments w).

Definition set_comments (w : GitHub) (cs : list Comment) : GitHub :=
  mkGitHub (gh_tags w) (gh_refs w) (gh_tag_objects w) (gh_commits w)
           (gh_items w) (gh_releases w) cs.

Definition has_tag (tag : string) (r : Release) : bool :=
  String.eqb (release_tag r) tag.

Definition has_id (id : Z) (r : Release) : bool := (release_id r =? id)%Z.

(** The number of release records of a tag. *)
Definition releases_of (tag : string) (w : GitHub) : nat :=
  length (List.filter (has_tag tag) (gh_releases w)).

Definition fresh_id (ids : list Z) : Z := (fold_right Z.max 0 ids + 1)%Z.

Definition release_page (tag : string) : string :=
  "https://github.com/releases/tag/" +:+ tag.

Definition edit_release (body : string) (draft : bool) (r : Release) : Release :=
  mkRelease (release_id r) (release_tag r) (release_name r) body draft
            (release_url r).

Definition mem_getReleaseByTag (tag : string) (w : GitHub)
  : GitHub * (exn + Release) :=
  match find (has_tag tag) (gh_releases w) with
  | Some r => (w, inr r)
  | None => (w, inl not_found)
  end.

Definition mem_updateRelease (id : Z) (body : string) (draft : bool)
    (w : GitHub) : GitHub * (exn + Release) :=
  match find (has_id id) (gh_releases w) with
  | Some r =>
      (set_releases w
         (map (fun r' => if has_id id r' then edit_release body draft r' else r')
              (gh_releases w)),
       inr (edit_release body draft r))
  | None => (w, inl not_found)
  end.

Definition mem_createRelease (tag name body : string) (draft : bool)
    (w : GitHub) : GitHub * (exn + Release) :=
  let r := mkRelease (fresh_id (map release_id (gh_releases w))) tag name body
                     draft (release_page tag) in
  (set_releases w (gh_releases w ++ [r]), inr r).

Definition comment_page (id : Z) : string :=
  "https://github.com/comments/" +:+ of_int id.

Definition mem_updateComment (id : Z) (body : string) (w : GitHub)
  : GitHub * (exn + Comment) :=
  match find (fun c => (comment_id c =? id)%Z) (gh_comments w) with
  | Some c =>
      let c' := mkComment id (comment_issue c) (Some body) (comment_url c) in
      (set_comments w
         (map (fun x => if (comment_id x =? id)%Z then c' else x)
              (gh_comments w)),
       inr c')
  | None => (w, inl not_found)
  end.

Definition mem_createComment (issue : Z) (body : string) (w : GitHub)
  : GitHub * (exn + Comment) :=
  let id := fresh_id (map comment_id (gh_comments w)) in
  let c := mkComment id issue (Some body) (comment_page id) in
  (set_comments w (gh_comments w ++ [c]), inr c).

Definition octokit : Octokit GitHub :=
  {| listTags := fun per_page page w =>
       (w, inr (page_of per_page page (gh_tags w)));
     getRef := fun r w => lookup_or_404 (gh_refs w) r w;
     getTag := fun sha w => lookup_or_404 (gh_tag_objects w) sha w;
     getCommit := fun sha w => lookup_or_404 (gh_commits w) sha w;
     issuesAndPullRequests := fun _ per_page page w =>
       (w, inr (page_of per_page page (gh_items w)));
     getReleaseByTag := mem_getReleaseByTag;
     updateRelease := mem_updateRelease;
     createRelease := mem_createRelease;
     listComments := fun issue per_page w =>
       (w, inr (firstn (Z.to_nat per_page)
                  (List.filter (fun c => (comment_issue c =? issue)%Z)
                     (gh_comments w))));
     updateComment := mem_updateComment;
     createComment := mem_createComment |}.

(** The same client when the release lookup fails with [e] whatever the
    state (a server error, a dropped connection). *)
Definition octokit_lookup_failing (e : exn) : Octokit GitHub :=
  {| listTags := listTags octokit;
     getRef := getRef octokit;
     getTag := getTag octokit;
     getCommit := getCommit octokit;
     issuesAndPullRequests := issuesAndPullRequests octokit;
     getReleaseByTag := fun _ w => (w, inl e);
     updateRelease := updateRelease octokit;
     createRelease := createRelease octokit;
     listComments := listComments octokit;
     updateComment := updateComment octokit;
     createComment := createComment octokit |}.

(** The client when the platform cannot be reached: every request throws
    [e]. *)
Definition octokit_down (e : exn) : Octokit GitHub :=
  {| listTags := fun _ _ w => (w, inl e);
     getRef := fun _ w => (w, inl e);
     getTag := fun _ w => (w, inl e);
     getCommit := fun _ w => (w, inl e);
     issuesAndPullRequests := fun _ _ _ w => (w, inl e);
     getReleaseByTag := fun _ w => (w, inl e);
     updateRelease := fun _ _ _ w => (w, inl e);
     createRelease := fun _ _ _ _ w => (w, inl e);
     listComments := fun _ _ w => (w, inl e);
     updateComment := fun _ _ w => (w, inl e);
     createComment := fun _ _ w => (w, inl e) |}.

Definition start (w : GitHub) : St GitHub := mkSt w [] [] None.

End Memory.

(** ** Concrete scenarios *)
Module Scenario.

Import Memory.

(** A repository with the tags [v1.1] (annotated) and [v1.0]
    (lightweight), two merged requests and no release yet. *)
Definition two_tags : GitHub :=
  {| gh_tags := [mkTag "v1.1"; mkTag "v1.0"];
     gh_refs :=
       list_to_map [ ("tags/v1.1", mkGitObject "a11" "tag");
                     ("tags/v1.0", mkGitObject "c10" "commit") ];
     gh_tag_objects := list_to_map [ ("a11", mkGitObject "c11" "commit") ];
     gh_commits :=
       list_to_map
         [ ("c11", mkCommitDates (Some "2025-02-01T00:00:00Z") None);
           ("c10", mkCommitDates None (Some "2025-01-01T00:00:00Z")) ];
     gh_items :=
       [ mkItem 12 "Support dark mode" (Some "bob")
                (Some [LabelObject (Some "feat")]);
         mkItem 11 "Fix login redirect loop" (Some "alice")
                (Some [LabelString "bug"]) ];
     gh_releases := [];
     gh_comments := [] |}.

Definition one_tag : GitHub :=
  {| gh_tags := [mkTag "v1.0"];
     gh_refs := gh_refs two_tags;
     gh_tag_objects := gh_tag_objects two_tags;
     gh_commits := gh_commits two_tags;
     gh_items := gh_items two_tags;
     gh_releases := [];
     gh_comments := [] |}.

Definition no_tags : GitHub :=
  {| gh_tags := [];
     gh_refs := ∅;
     gh_tag_objects := ∅;
     gh_commits := ∅;
     gh_items := [];
     gh_releases := [];
     gh_comments := [] |}.

(** The state of [two_tags] once a draft release of [v1.1] exists. *)
Definition released : GitHub :=
  set_releases two_tags
    [mkRelease 1 "v1.1" "Release v1.1" "old notes" true (release_page "v1.1")].

(** 250 merged requests, returned newest first: three pages. *)
Definition many_items : GitHub :=
  {| gh_tags := [];
     gh_refs := ∅;
     gh_tag_objects := ∅;
     gh_commits := ∅;
     gh_items :=
       map (fun n => mkItem (Z.of_nat n) "Change" (Some "dev") (Some []))
           (rev (seq 1 250));
     gh_releases := [];
     gh_comments := [] |}.

(** 2026-01-01T00:00:00Z. *)
Definition clock : Z := 1767225600000.

Definition tag_push (tag : string) : Context :=
  mkContext "acme" "app" "push" None None (Some ("refs/tags/" +:+ tag)) None
            clock.

Definition branch_push : Context :=
  mkContext "acme" "app" "push" (Some "branch") (Some "main")
            (Some "refs/heads/main") None clock.

Definition manual : Context :=
  mkContext "acme" "app" "workflow_dispatch" None None
            (Some "refs/heads/main") None clock.

Definition defaults : Inputs :=
  mkInputs "main" true true 30 200 [] [] false false false DEFAULT_LABEL_MAP.

Definition lookback (days : Z) : Inputs :=
  mkInputs "main" true true days 200 [] [] false false false DEFAULT_LABEL_MAP.

End Scenario.

(** ** Vocabulary of the statements *)

(** A label decides the section when the dictionary has a truthy value
    for its lowercase form. *)
Definition mapped (get : string -> Value) (l : string) : bool :=
  value_truthy (get (toLowerCase l)).

(** A dependency label, whatever its case. *)
Definition is_deps_label (l : string) : Prop := toLowerCase l ∈ DEPS_LABELS.

Fixpoint chars (s : string) : list ascii :=
  match s with
  | EmptyString => []
  | String c r => c :: chars r
  end.

(** ASCII text: every byte is below 128, so a byte is a character and
    the text helpers above are those of the runtime. *)
Definition ascii_text (s : string) : bool :=
  forallb (fun c => (code c <? 128)%N) (chars s).

(** A record whose title and labels are ASCII text. *)
Definition ascii_record (pr : PR) : bool :=
  ascii_text (title pr) && forallb ascii_text (labels pr).

(** A non-empty run of word characters. *)
Definition is_word_run (w : string) : Prop :=
  w ≠ EmptyString ∧ Forall (fun c => is_word c = true) (chars w).

(** A non-empty text without line terminators. *)
Definition is_scope (sc : string) : Prop :=
  sc ≠ EmptyString ∧ Forall (fun c => is_newline c = false) (chars sc).

(** [t] starts with the prefix [word:] or [word(scope):]. *)
Inductive conventional_prefix (t w : string) : Prop :=
| prefix_plain (rest : string) :
    is_word_run w -> t = w +:+ ":" +:+ rest -> conventional_prefix t w
| prefix_scoped (sc rest : string) :
    is_word_run w -> is_scope sc ->
    t = w +:+ "(" +:+ sc +:+ "):" +:+ rest -> conventional_prefix t w.

(** Ascending by number. *)
Definition by_number (a b : PR) : Prop := (number a <= number b)%Z.

(** A text of white space only. *)
Definition is_blank (s : string) : Prop :=
  Forall (fun c => is_space c = true) (chars s).

(** A text without line feed. *)
Definition no_line_feed (s : string) : Prop :=
  Forall (fun c => (code c =? 10)%N = false) (chars s).

(** A text that neither starts nor ends with white space. *)
Definition is_trimmed (s : string) : Prop := trim s = s.

(** The words [toBool] reads as true and as false. *)
Definition TRUE_WORDS : list string := ["1"; "true"; "yes"; "y"; "on"].
Definition FALSE_WORDS : list string := ["0"; "false"; "no"; "n"; "off"].

(** [s] is empty or starts with a character that is not white space. *)
Definition starts_clean (s : string) : Prop :=
  match s with
  | EmptyString => True
  | String c _ => is_space c = false
  end.

(** The section of a record in the grouping loop of [run]. *)
Definition section_of_record (sectionMap : SectionMap)
    (useConventional : bool) (pr : PR) : exn + Value :=
  section_of sectionMap useConventional (labels pr) (title pr).

(** The section of the record is the one named [k]. *)
Definition has_section (sectionMap : SectionMap) (useConventional : bool)
    (k : string) (pr : PR) : bool :=
  match section_of_record sectionMap useConventional pr with
  | inr v => same_value v (VString k)
  | inl _ => false
  end.

(** The records of [prs] whose section is [k], in the order of [prs]. *)
Definition in_section (sectionMap : SectionMap) (useConventional : bool)
    (k : string) (prs : list PR) : list PR :=
  List.filter (has_section sectionMap useConventional k) prs.

(** The section of the record is one of the five of the document. *)
Definition is_shown (sectionMap : SectionMap) (useConventional : bool)
    (pr : PR) : bool :=
  existsb (fun k => has_section sectionMap useConventional k pr) order.

(** The text of one section: nothing for no record, else the heading, a
    line for each record and an empty line. *)
Definition section_text (k : string) (items : list PR) : string :=
  match items with
  | [] => EmptyString
  | _ =>
      "### " +:+ k +:+ nl
        +:+ String.concat "" (map (fun pr => formatLine pr +:+ nl) items)
        +:+ nl
  end.

(** The document up to its sections: title, range, compare link, and an
    empty line. *)
Definition document_header (ctx : Context) (w : Window) : string :=
  (if otruthy (currentTag w) && otruthy (previousTag w)
   then (titleLine ctx w +:+ nl +:+ nl +:+ rangeLine w +:+ nl)
          +:+ "[Full diff](https://github.com/" +:+ owner ctx +:+ "/"
          +:+ repo ctx +:+ "/compare/" +:+ or_else (previousTag w) ""
          +:+ "..." +:+ or_else (currentTag w) "" +:+ ")" +:+ nl
   else titleLine ctx w +:+ nl +:+ nl +:+ rangeLine w +:+ nl)
  +:+ nl.

Definition PLACEHOLDER : string := "_No merged PRs found in this range._".

(** The five sections of the document, in the order of [order]. *)
Definition document_sections (sectionMap : SectionMap)
    (useConventional : bool) (prs : list PR) : string :=
  fold_right
    (fun k t => section_text k (in_section sectionMap useConventional k prs) +:+ t)
    EmptyString order.

(** The records that have one of the five sections. *)
Definition shown (sectionMap : SectionMap) (useConventional : bool)
    (prs : list PR) : list PR :=
  List.filter (is_shown sectionMap useConventional) prs.

(** A comment that carries the marker of the preview. *)
Definition marked (c : Comment) : bool :=
  str_includes (or_else (comment_body c) "") PREVIEW_MARKER.

(** The comments of an issue on the memory platform, oldest first. *)
Definition comments_on (issue : Z) (w : Memory.GitHub) : list Comment :=
  List.filter (fun c => (comment_issue c =? issue)%Z) (Memory.gh_comments w).

(** The preview comments of an issue. *)
Definition previews (issue : Z) (w : Memory.GitHub) : list Comment :=
  List.filter marked (comments_on issue w).

(** The platform of [Scenario.two_tags] with a change request 7 that has
    one ordinary comment. *)
Definition with_comment : Memory.GitHub :=
  Memory.set_comments Scenario.two_tags
    [mkComment 1 7 (Some "Looks good to me") (Memory.comment_page 1)].

(** The platform of [Scenario.two_tags] with its two items listed in the
    other order. *)
Definition two_tags_reversed : Memory.GitHub :=
  Memory.mkGitHub (Memory.gh_tags Scenario.two_tags)
    (Memory.gh_refs Scenario.two_tags) (Memory.gh_tag_objects Scenario.two_tags)
    (Memory.gh_commits Scenario.two_tags) (rev (Memory.gh_items Scenario.two_tags))
    (Memory.gh_releases Scenario.two_tags) (Memory.gh_comments Scenario.two_tags).

(** A change request 7 with a hundred comments, none of them a preview. *)
Definition crowded : Memory.GitHub :=
  Memory.set_comments Scenario.two_tags
    (map (fun n => mkComment (Z.of_nat n) 7 (Some "ping")
                     (Memory.comment_page (Z.of_nat n)))
         (seq 1 100)).

(** A body as [run] writes it for the preview: the marker on its second
    line. *)
Definition sample_preview : string :=
  "### Release Notes Preview" +:+ nl +:+ PREVIEW_MARKER +:+ nl +:+ nl
    +:+ "This PR will appear in section: **Fixed**" +:+ nl.

(** The comment [createComment] stores on the memory platform. *)
Definition new_comment (issue : Z) (body : string) (w : Memory.GitHub) : Comment :=
  mkComment (Memory.fresh_id (map comment_id (Memory.gh_comments w))) issue
            (Some body)
            (Memory.comment_page
               (Memory.fresh_id (map comment_id (Memory.gh_comments w)))).

(** The comment [updateComment] puts in the place of [c]. *)
Definition edited_comment (body : string) (c : Comment) : Comment :=
  mkComment (comment_id c) (comment_issue c) (Some body) (comment_url c).

(** The memory client when the comments of the platform cannot be
    reached: the three comment requests throw [e]. *)
Definition octokit_comments_failing (e : exn) : Octokit Memory.GitHub :=
  {| listTags := listTags Memory.octokit;
     getRef := getRef Memory.octokit;
     getTag := getTag Memory.octokit;
     getCommit := getCommit Memory.octokit;
     issuesAndPullRequests := issuesAndPullRequests Memory.octokit;
     getReleaseByTag := getReleaseByTag Memory.octokit;
     updateRelease := updateRelease Memory.octokit;
     createRelease := createRelease Memory.octokit;
     listComments := fun _ _ w => (w, inl e);
     updateComment := fun _ _ w => (w, inl e);
     createComment := fun _ _ w => (w, inl e) |}.

(** The records [run] keeps:
    [prs.filter((pr) => !shouldExcludePR(pr, { ... }))]. *)
Definition kept (inp : Inputs) (prs : list PR) : list PR :=
  List.filter
    (fun pr => negb (shouldExcludePR pr
       (mkFilterOpts (in_includeLabels inp) (in_excludeLabels inp)
                     (in_ignoreDeps inp))))
    prs.

(** The grouping of the records [run] keeps. *)
Definition grouped (inp : Inputs) (prs : list PR)
  : exn + list (Value * list PR) :=
  group (in_sectionMap inp) (in_useConventional inp) (kept inp prs).

(** [run] up to the collected records: the tags, the window, the four
    log lines and the search. *)
Definition collect {W} (o : Octokit W) (ctx : Context) (inp : Inputs)
  : M W (Window * list PR) :=
  let* tags := listTagsAll o 200 in
  let* w := releaseWindow o ctx (in_sinceDays inp) tags in
  log (Info ("Base branch: " +:+ in_baseBranch inp)) ;;
  log (Info ("Current tag: " +:+ or_else (currentTag w) "(none)")) ;;
  log (Info ("Previous tag: " +:+ or_else (previousTag w) "(none)")) ;;
  log (Info ("Merged-after baseline: " +:+ baselineISO w)) ;;
  let* prs :=
    searchMergedPRs o ctx (in_baseBranch inp) (baselineISO w) (in_maxPRs inp) in
  ret (w, prs).

(** A [pull_request] event for the change request 7, and inputs with the
    preview and the title fallback on. *)
Definition preview_request : Context :=
  mkContext "acme" "app" "pull_request" None None (Some "refs/pull/7/merge")
    (Some (mkPullRequestPayload 7 "fix(auth): handle expired tokens"
             [LabelObject (Some "question")] (Some "alice")))
    Scenario.clock.

Definition preview_inputs : Inputs :=
  mkInputs "main" true true 30 200 [] [] false true true DEFAULT_LABEL_MAP.

(** * Properties *)

(** ** Classifier: section assignment *)

Lemma bucket_scan_unmapped (names : list string) (get : string -> Value) :
  Forall (fun n => value_truthy (get n) = false) names ->
  bucket_scan names (PropertyMap get) = inr (VString "Other").
Proof.
  induction 1 as [|n names Hn _ IH]; cbn [bucket_scan read_property];
    [reflexivity|].
  rewrite Hn. exact IH.
Qed.

Lemma bucket_scan_skip (pre names : list string) (get : string -> Value) :
  Forall (fun n => value_truthy (get n) = false) pre ->
  bucket_scan (pre ++ names) (PropertyMap get)
  = bucket_scan names (PropertyMap get).
Proof.
  induction 1 as [|n pre Hn _ IH]; [reflexivity|].
  cbn [app bucket_scan read_property]. rewrite Hn. exact IH.
Qed.

Lemma unmapped_names (get : string -> Value) (ls : list string) :
  Forall (fun l => mapped get l = false) ls ->
  Forall (fun n => value_truthy (get n) = false) (map toLowerCase ls).
Proof.
  induction 1 as [|l ls Hl _ IH]; simpl; constructor; [exact Hl|exact IH].
Qed.

(** Either some label is the first mapped one, or none is mapped. *)
Lemma first_mapped_or_none (get : string -> Value) (ls : list string) :
  (exists pre l post, ls = pre ++ l :: post
     /\ Forall (fun p => mapped get p = false) pre /\ mapped get l = true)
  \/ Forall (fun l => mapped get l = false) ls.
Proof.
  induction ls as [|l ls IH]; [right; constructor|].
  destruct (mapped get l) eqn:Hl.
  - left. exists [], l, ls. repeat split; [constructor|exact Hl].
  - destruct IH as [(pre & l' & post & -> & Hpre & Hl')|Hnone].
    + left. exists (l :: pre), l', post. repeat split; [|exact Hl'].
      constructor; assumption.
    + right. constructor; assumption.
Qed.

(** The first label for whose lower-case form the dictionary has a
    truthy value decides, and that value is the section. *)
Lemma bucketForLabels_decided (get : string -> Value)
    (pre : list string) (l : string) (post : list string) :
  Forall (fun p => mapped get p = false) pre ->
  mapped get l = true ->
  bucketForLabels (pre ++ l :: post) (PropertyMap get)
  = inr (get (toLowerCase l)).
Proof.
  intros Hpre Hl. unfold bucketForLabels.
  rewrite map_app. rewrite bucket_scan_skip by (apply unmapped_names; exact Hpre).
  cbn [map bucket_scan read_property]. unfold mapped in Hl. rewrite Hl.
  reflexivity.
Qed.

Lemma bucketForLabels_unmapped (get : string -> Value) (ls : list string) :
  Forall (fun l => mapped get l = false) ls ->
  bucketForLabels ls (PropertyMap get) = inr (VString "Other").
Proof. intros Hnone. apply bucket_scan_unmapped, unmapped_names, Hnone. Qed.

(** A map that can be read never makes the scan throw; the [null] map
    makes it throw at the first label. *)
Lemma bucketForLabels_readable (get : string -> Value) (ls : list string) :
  exists v, bucketForLabels ls (PropertyMap get) = inr v.
Proof.
  destruct (first_mapped_or_none get ls)
    as [(pre & l & post & -> & Hpre & Hl)|Hnone].
  - eexists. apply bucketForLabels_decided; assumption.
  - eexists. apply bucketForLabels_unmapped, Hnone.
Qed.

Lemma bucketForLabels_null (ls : list string) :
  bucketForLabels ls NullMap
  = match ls with
    | [] => inr (VString "Other")
    | l :: _ =>
        inl (TypeError ("Cannot read properties of null (reading '"
                          +:+ toLowerCase l +:+ "')"))
    end.
Proof. destruct ls; reflexivity. Qed.

(** C6. The scan puts the labels in lower case and reads the section map
    with the keys as they are written, so a key with a capital letter is
    never found: with the section map [{"Bug": "Fixed"}] the label "Bug"
    is in the map, letter for letter, and the record still lands in
    "Other"; the same map written [{"bug": "Fixed"}] gives "Fixed". *)
Theorem bucketForLabels_capital_key :
  plain_object {[ "Bug" := VString "Fixed" ]} "Bug" = VString "Fixed"
  /\ bucketForLabels ["Bug"]
       (PropertyMap (plain_object {[ "Bug" := VString "Fixed" ]}))
     = inr (VString "Other")
  /\ bucketForLabels ["Bug"]
       (PropertyMap (plain_object {[ "bug" := VString "Fixed" ]}))
     = inr (VString "Fixed").
Proof. vm_compute. repeat split. Qed.

Lemma lower_ascii_idem (c : ascii) : lower_ascii (lower_ascii c) = lower_ascii c.
Proof. destruct c as [[] [] [] [] [] [] [] []]; reflexivity. Qed.

Lemma toLowerCase_idem (s : string) : toLowerCase (toLowerCase s) = toLowerCase s.
Proof.
  induction s as [|c s IH]; simpl; [reflexivity|].
  rewrite lower_ascii_idem, IH. reflexivity.
Qed.

(** A key with an empty section is passed over as if it were absent. *)
Example bucketForLabels_empty_section :
  bucketForLabels ["bug"; "feat"]
    (PropertyMap (plain_object {[ "bug" := VString "";
                                  "feat" := VString "Added" ]}))
  = inr (VString "Added").
Proof. vm_compute. reflexivity. Qed.

(** On the keys of the default map the case of the label does not
    matter. *)
Example bucket_default_bug :
  bucketForLabels ["Bug"; "feat"] DEFAULT_LABEL_MAP = inr (VString "Fixed").
Proof. vm_compute. reflexivity. Qed.

(** The section map is read with the properties every object inherits:
    the label "constructor" gets the function [Object] for a section. *)
Example bucketForLabels_inherited :
  bucketForLabels ["constructor"; "bug"] DEFAULT_LABEL_MAP
  = inr (VOther 1 "function Object() { [native code] }").
Proof. vm_compute. reflexivity. Qed.

(** The earlier revision gives the section groups priority over the order
    of the labels. *)
Example legacy_group_priority :
  Legacy.bucketForLabels ["feat"; "bug"] = "Fixed"
  /\ bucketForLabels ["feat"; "bug"] DEFAULT_LABEL_MAP = inr (VString "Added").
Proof. vm_compute. split; reflexivity. Qed.

Lemma DEFAULT_LABELS_entries (k : string) (v : Value) :
  DEFAULT_LABELS !! k = Some v <->
  (k, v) ∈ [ ("bug", VString "Fixed"); ("fix", VString "Fixed");
             ("bugfix", VString "Fixed");
             ("enhancement", VString "Added"); ("feat", VString "Added");
             ("feature", VString "Added");
             ("chore", VString "Changed"); ("refactor", VString "Changed");
             ("deps", VString "Changed"); ("dependencies", VString "Changed");
             ("docs", VString "Docs"); ("documentation", VString "Docs") ].
Proof.
  unfold DEFAULT_LABELS.
  rewrite <- elem_of_list_to_map; [reflexivity|].
  apply (bool_decide_unpack _). vm_compute. exact I.
Qed.

(** What an object inherits is never a string. *)
Lemma OBJECT_PROTOTYPE_not_string (k s : string) :
  OBJECT_PROTOTYPE !! k ≠ Some (VString s).
Proof.
  intros H. unfold OBJECT_PROTOTYPE in H.
  apply elem_of_list_to_map in H;
    [|apply (bool_decide_unpack _); vm_compute; exact I].
  rewrite !elem_of_cons, elem_of_nil in H.
  repeat (destruct H as [H|H]; [discriminate H|]). destruct H.
Qed.

(** A string read out of a plain object is an own property. *)
Lemma plain_object_string (own : gmap string Value) (k s : string) :
  plain_object own k = VString s <-> own !! k = Some (VString s).
Proof.
  unfold plain_object. destruct (own !! k) as [v|].
  - split; congruence.
  - destruct (OBJECT_PROTOTYPE !! k) as [v|] eqn:Hk.
    + split; [|discriminate]. intros ->.
      exfalso. exact (OBJECT_PROTOTYPE_not_string k s Hk).
    + split; discriminate.
Qed.

(** ** Classifier: exclusion *)

Lemma forallb_deps (ls : list string) :
  Forall is_deps_label ls ->
  forallb (fun l => bool_decide (l ∈ DEPS_LABELS)) (map toLowerCase ls) = true.
Proof.
  induction 1 as [|l ls Hl _ IH]; simpl; [reflexivity|].
  rewrite IH, andb_true_r. apply bool_decide_eq_true. exact Hl.
Qed.

(** The labels of the dependency set are dependency labels as written. *)
Lemma deps_label_exact (l : string) : l ∈ DEPS_LABELS -> is_deps_label l.
Proof.
  unfold is_deps_label, DEPS_LABELS. rewrite !elem_of_union, !elem_of_singleton.
  intros [[-> | ->] | ->]; vm_compute; auto.
Qed.

(** C8. A record with at least one label, all of them dependency labels,
    and empty include and exclude lists: [shouldExcludePR] answers the
    ignore-dependency flag, so the filter of [run] drops the record when
    the flag is set and keeps it when it is not. *)
Theorem shouldExcludePR_deps_only (pr : PR) (flag : bool) :
  labels pr ≠ [] ->
  Forall is_deps_label (labels pr) ->
  shouldExcludePR pr (mkFilterOpts [] [] flag) = flag
  /\ List.filter (fun p => negb (shouldExcludePR p (mkFilterOpts [] [] flag))) [pr]
     = if flag then [] else [pr].
Proof.
  intros Hne Hdeps.
  assert (H : shouldExcludePR pr (mkFilterOpts [] [] flag) = flag).
  { unfold shouldExcludePR; simpl.
    rewrite (forallb_deps _ Hdeps), andb_true_r.
    destruct (labels pr) as [|l ls]; [congruence|].
    simpl. destruct flag; reflexivity. }
  split; [exact H|]. simpl. rewrite H. destruct flag; reflexivity.
Qed.

Lemma shouldExcludePR_deps_only_witness :
  shouldExcludePR (mkPR 7 "Bump lodash" "dependabot" ["Dependencies"; "deps"])
                  (mkFilterOpts [] [] true) = true
  /\ shouldExcludePR (mkPR 7 "Bump lodash" "dependabot" ["Dependencies"; "deps"])
                     (mkFilterOpts [] [] false) = false.
Proof.
  split.
  - apply (shouldExcludePR_deps_only
             (mkPR 7 "Bump lodash" "dependabot" ["Dependencies"; "deps"]) true).
    + discriminate.
    + repeat constructor; vm_compute; auto.
  - apply (shouldExcludePR_deps_only
             (mkPR 7 "Bump lodash" "dependabot" ["Dependencies"; "deps"]) false).
    + discriminate.
    + repeat constructor; vm_compute; auto.
Defined.

(** ** Classifier: the conventional-title fallback *)

Lemma append_cons (c : ascii) (s1 s2 : string) :
  String c s1 +:+ s2 = String c (s1 +:+ s2).
Proof. reflexivity. Qed.

Lemma append_empty (s : string) : EmptyString +:+ s = s.
Proof. reflexivity. Qed.

Lemma span_word_split (t : string) :
  t = fst (span_word t) +:+ snd (span_word t)
  /\ Forall (fun c => is_word c = true) (chars (fst (span_word t)))
  /\ match snd (span_word t) with
     | EmptyString => True
     | String c _ => is_word c = false
     end.
Proof.
  induction t as [|c t IH]; simpl.
  - repeat split. constructor.
  - destruct (is_word c) eqn:Hc.
    + destruct (span_word t) as [w rest]; simpl in *.
      destruct IH as (Ht & Hw & Hrest). repeat split.
      * rewrite append_cons. f_equal. exact Ht.
      * constructor; assumption.
      * exact Hrest.
    + simpl. repeat split; [constructor|exact Hc].
Qed.

Lemma span_word_run (w rest : string) :
  Forall (fun c => is_word c = true) (chars w) ->
  match rest with
  | EmptyString => True
  | String c _ => is_word c = false
  end ->
  span_word (w +:+ rest) = (w, rest).
Proof.
  intros Hw Hrest. induction w as [|c w IH].
  - rewrite append_empty.
    destruct rest as [|c r]; [reflexivity|]. simpl. rewrite Hrest. reflexivity.
  - inversion Hw as [|? ? Hc Hw']; subst. rewrite append_cons. simpl.
    rewrite Hc, (IH Hw'). reflexivity.
Qed.

Lemma close_scope_found (a b : string) :
  Forall (fun c => is_newline c = false) (chars a) ->
  close_scope (a +:+ "):" +:+ b) = true.
Proof.
  induction a as [|c a IH]; intros Ha.
  - reflexivity.
  - inversion Ha as [|? ? Hc Ha']; subst.
    rewrite append_cons. cbn [close_scope]. rewrite Hc.
    destruct ((code c =? 41)%N && starts_with_colon (a +:+ "):" +:+ b));
      [reflexivity|exact (IH Ha')].
Qed.

Lemma starts_with_colon_inv (s : string) :
  starts_with_colon s = true -> exists r, s = String ":" r.
Proof.
  destruct s as [|c r]; [discriminate|].
  destruct c as [[] [] [] [] [] [] [] []]; try discriminate.
  intros _. exists r. reflexivity.
Qed.

Lemma code_41 (c : ascii) : (code c =? 41)%N = true -> c = ")"%char.
Proof.
  intros H. apply N.eqb_eq in H.
  rewrite <- (ascii_N_embedding c). unfold code in H. rewrite H. reflexivity.
Qed.

Lemma close_scope_inv (s : string) :
  close_scope s = true ->
  exists a b, s = a +:+ "):" +:+ b
              /\ Forall (fun c => is_newline c = false) (chars a).
Proof.
  induction s as [|c s IH]; [discriminate|].
  cbn [close_scope].
  destruct ((code c =? 41)%N && starts_with_colon s) eqn:Hclose.
  - intros _. apply andb_true_iff in Hclose as [Hc Hs].
    apply code_41 in Hc as ->. apply starts_with_colon_inv in Hs as [r ->].
    exists EmptyString, r. split; [reflexivity|constructor].
  - destruct (is_newline c) eqn:Hc; [discriminate|].
    intros H. destruct (IH H) as (a & b & -> & Ha).
    exists (String c a), b. split; [reflexivity|constructor; assumption].
Qed.

Lemma after_word_inv (rest : string) :
  after_word rest = true ->
  (exists r, rest = String ":" r)
  \/ (exists c r, rest = String "(" (String c r)
        /\ is_newline c = false /\ close_scope r = true).
Proof.
  destruct rest as [|c0 rest]; [discriminate|].
  destruct c0 as [[] [] [] [] [] [] [] []]; try discriminate.
  - intros _. left. exists rest. reflexivity.
  - destruct rest as [|c r]; [discriminate|].
    cbn [after_word]. intros H. apply andb_true_iff in H as [Hc Hr].
    right. exists c, r. repeat split; [|exact Hr].
    apply negb_true_iff in Hc. exact Hc.
Qed.

Lemma truthy_nonempty (s : string) : truthy s = true <-> s ≠ EmptyString.
Proof. destruct s; simpl; split; congruence. Qed.

(** The match of the title pattern, read as a grammar: the pattern
    matches with first group [w] exactly when the title starts with
    [w:] or [w(scope):]. *)
Lemma conventional_match_spec (t w : string) :
  conventional_match t = Some w <-> conventional_prefix t w.
Proof.
  unfold conventional_match. split.
  - pose proof (span_word_split t) as (Ht & Hw & _).
    destruct (span_word t) as [w' rest]; simpl in *.
    destruct (truthy w' && after_word rest) eqn:Hm; [|discriminate].
    intros [= <-]. apply andb_true_iff in Hm as [Hne Hafter].
    apply truthy_nonempty in Hne.
    destruct (after_word_inv _ Hafter) as [[r ->]|(c & r & -> & Hc & Hr)].
    + apply (prefix_plain t w' r); [split; assumption|exact Ht].
    + destruct (close_scope_inv _ Hr) as (a & b & -> & Ha).
      apply (prefix_scoped t w' (String c a) b).
      * split; assumption.
      * split; [discriminate|constructor; assumption].
      * exact Ht.
  - intros [rest [Hne Hw] ->|sc rest [Hne Hw] [Hsc Hnl] ->].
    + rewrite (span_word_run w (":" +:+ rest) Hw) by reflexivity.
      apply truthy_nonempty in Hne. rewrite Hne. reflexivity.
    + destruct sc as [|c a]; [congruence|].
      inversion Hnl as [|? ? Hc Ha]; subst.
      rewrite (span_word_run w ("(" +:+ String c a +:+ "):" +:+ rest) Hw)
        by reflexivity.
      apply truthy_nonempty in Hne. rewrite Hne.
      change (after_word ("(" +:+ String c a +:+ "):" +:+ rest))
        with (negb (is_newline c) && close_scope (a +:+ "):" +:+ rest)).
      rewrite Hc, (close_scope_found a rest Ha). reflexivity.
Qed.

(** The word a title starts with is unique. *)
Lemma conventional_prefix_unique (t w w' : string) :
  conventional_prefix t w -> conventional_prefix t w' -> w = w'.
Proof.
  intros H H'. apply conventional_match_spec in H, H'. congruence.
Qed.






(** The scenario of the specification. *)
Example conventional_title_scenario :
  section_of DEFAULT_LABEL_MAP true ["question"]
    "fix(auth): correct token refresh" = inr (VString "Fixed")
  /\ section_of DEFAULT_LABEL_MAP true ["question"] "Feat(ui): dark mode"
     = inr (VString "Added")
  /\ section_of DEFAULT_LABEL_MAP true ["question"] "Release: 1.2"
     = inr (VString "Other")
  /\ section_of DEFAULT_LABEL_MAP false ["question"] "fix: typo"
     = inr (VString "Other").
Proof. vm_compute. repeat split. Qed.

(** C7. The prefix table is read with the properties every object
    inherits. The title "constructor: rework" of a record without labels
    starts with a word that is not in the table, yet with the fallback on
    its section is not "Other" but the function [Object]; the grouping
    loop files the record under that value, which is none of the five
    sections, so no section of the document lists it and the count of
    the listed records stays at zero. *)
Theorem title_prefix_inherited :
  conventional_match "constructor: rework" = Some "constructor"
  /\ CONVENTIONAL_PREFIXES !! "constructor" = None
  /\ section_of DEFAULT_LABEL_MAP true [] "constructor: rework"
     = inr (VOther 1 "function Object() { [native code] }")
  /\ match group DEFAULT_LABEL_MAP true
             [mkPR 9 "constructor: rework" "erin" []] with
     | inr buckets =>
         bucket_get "Other" buckets = []
         /\ render_sections buckets = (EmptyString, 0%Z)
     | inl _ => False
     end.
Proof. vm_compute. repeat split. Qed.




(** What the pattern takes and what it leaves. *)
Example conventional_match_samples :
  conventional_match "fix(auth): correct token refresh" = Some "fix"
  /\ conventional_match "fix:no space" = Some "fix"
  /\ conventional_match "fix(): empty scope" = None
  /\ conventional_match "fix (auth): space before scope" = None
  /\ conventional_match ": no word" = None.
Proof. vm_compute. repeat split; reflexivity. Qed.

(** ** Collector *)

Lemma insert_by_number_perm (x : PR) (l : list PR) :
  Permutation (insert_by_number x l) (x :: l).
Proof.
  induction l as [|y l IH]; simpl; [reflexivity|].
  destruct (number x <=? number y)%Z; [reflexivity|].
  rewrite IH. apply perm_swap.
Qed.

Lemma sort_by_number_perm (l : list PR) : Permutation (sort_by_number l) l.
Proof.
  induction l as [|x l IH]; simpl; [reflexivity|].
  rewrite insert_by_number_perm, IH. reflexivity.
Qed.

Lemma insert_by_number_sorted (x : PR) (l : list PR) :
  StronglySorted by_number l -> StronglySorted by_number (insert_by_number x l).
Proof.
  induction 1 as [|y l Hl IH Hy]; simpl.
  - repeat constructor.
  - destruct (number x <=? number y)%Z eqn:Hxy.
    + apply Z.leb_le in Hxy. constructor; [constructor; assumption|].
      constructor; [exact Hxy|].
      eapply Forall_impl; [exact Hy|]. unfold by_number. intros z Hz. lia.
    + apply Z.leb_gt in Hxy. constructor; [exact IH|].
      rewrite (insert_by_number_perm x l). constructor; [|exact Hy].
      unfold by_number. lia.
Qed.

Lemma sort_by_number_sorted (l : list PR) :
  StronglySorted by_number (sort_by_number l).
Proof.
  induction l as [|x l IH]; simpl; [constructor|].
  apply insert_by_number_sorted, IH.
Qed.

Lemma sort_by_number_length (l : list PR) :
  length (sort_by_number l) = length l.
Proof. apply Permutation_length, sort_by_number_perm. Qed.

Lemma push_items_mono (maxPRs : Z) (items : list Item) (out : list PR) :
  (length out <= length (push_items maxPRs items out))%nat.
Proof.
  revert out. induction items as [|i items IH]; intros out; simpl; [lia|].
  destruct (maxPRs <=? _)%Z.
  - rewrite length_app. simpl. lia.
  - specialize (IH (out ++ [normalize i])). rewrite length_app in IH.
    simpl in IH. lia.
Qed.

Lemma push_items_grows (maxPRs : Z) (items : list Item) (out : list PR) :
  items ≠ [] -> (length out < length (push_items maxPRs items out))%nat.
Proof.
  destruct items as [|i items]; [congruence|]. intros _. simpl.
  destruct (maxPRs <=? _)%Z.
  - rewrite length_app. simpl. lia.
  - pose proof (push_items_mono maxPRs items (out ++ [normalize i])) as H.
    rewrite length_app in H. simpl in H. lia.
Qed.

Lemma push_items_capped (maxPRs : Z) (items : list Item) (out : list PR) :
  (Z.of_nat (length out) < maxPRs)%Z ->
  (Z.of_nat (length (push_items maxPRs items out)) <= maxPRs)%Z.
Proof.
  revert out. induction items as [|i items IH]; intros out Hout; simpl; [lia|].
  destruct (maxPRs <=? _)%Z eqn:Hfull.
  - rewrite length_app. simpl. lia.
  - apply IH. apply Z.leb_gt in Hfull. exact Hfull.
Qed.

Section Collector.

Context {W : Type}.
Variable o : Octokit W.

Lemma search_loop_unfold (q : string) (maxPRs : Z) (fuel : nat) (page : Z)
    (out : list PR) (st : St W) :
  search_loop o fuel q maxPRs page out st =
  if (Z.of_nat (length out) <? maxPRs)%Z then
    match fuel with
    | O => (st, OutOfFuel)
    | S fuel' =>
        match issuesAndPullRequests o q 100 page (platform st) with
        | (w, inr items) =>
            let st1 := mkSt w (logs st) (summary st) (failed st) in
            if (length items =? 0)%nat then (st1, Returned out)
            else if (length items <? 100)%nat
                 then (st1, Returned (push_items maxPRs items out))
                 else search_loop o fuel' q maxPRs (page + 1)
                        (push_items maxPRs items out) st1
        | (w, inl e) => (mkSt w (logs st) (summary st) (failed st), Thrown e)
        end
    end
  else (st, Returned out).
Proof.
  destruct fuel; simpl; destruct (Z.of_nat (length out) <? maxPRs)%Z;
    try reflexivity.
  unfold bind, call.
  destruct (issuesAndPullRequests o q 100 page (platform st)) as [w [e|items]];
    [reflexivity|].
  destruct (length items =? 0)%nat; [reflexivity|].
  destruct (length items <? 100)%nat; reflexivity.
Qed.

Lemma nonempty_of_length {A} (l : list A) : (length l =? 0)%nat = false -> l ≠ [].
Proof. destruct l; simpl; congruence. Qed.

Lemma search_loop_capped (q : string) (maxPRs : Z) (fuel : nat) :
  forall page out st st' res,
    (Z.of_nat (length out) <= maxPRs)%Z ->
    search_loop o fuel q maxPRs page out st = (st', Returned res) ->
    (Z.of_nat (length res) <= maxPRs)%Z.
Proof.
  induction fuel as [|fuel IH]; intros page out st st' res Hout;
    rewrite search_loop_unfold;
    destruct (Z.of_nat (length out) <? maxPRs)%Z eqn:Hlt.
  - discriminate.
  - intros [= _ <-]. exact Hout.
  - apply Z.ltb_lt in Hlt.
    destruct (issuesAndPullRequests o q 100 page (platform st)) as [w [e|items]];
      [discriminate|].
    cbv zeta. destruct (length items =? 0)%nat; [intros [= _ <-]; exact Hout|].
    pose proof (push_items_capped maxPRs items out Hlt) as Hcap.
    destruct (length items <? 100)%nat; [intros [= _ <-]; exact Hcap|].
    apply IH. exact Hcap.
  - intros [= _ <-]. exact Hout.
Qed.

Lemma search_loop_fuel (q : string) (maxPRs : Z) (fuel : nat) :
  forall page out st,
    (maxPRs - Z.of_nat (length out) <= Z.of_nat fuel)%Z ->
    snd (search_loop o fuel q maxPRs page out st) ≠ OutOfFuel.
Proof.
  induction fuel as [|fuel IH]; intros page out st Hfuel;
    rewrite search_loop_unfold;
    destruct (Z.of_nat (length out) <? maxPRs)%Z eqn:Hlt; try discriminate.
  - apply Z.ltb_lt in Hlt. lia.
  - apply Z.ltb_lt in Hlt.
    destruct (issuesAndPullRequests o q 100 page (platform st)) as [w [e|items]];
      [discriminate|].
    cbv zeta. destruct (length items =? 0)%nat eqn:Hempty; [discriminate|].
    destruct (length items <? 100)%nat; [discriminate|].
    apply IH.
    pose proof (push_items_grows maxPRs items out (nonempty_of_length _ Hempty)).
    lia.
Qed.

Lemma search_loop_returns (q : string) (maxPRs : Z) (fuel : nat) :
  (forall q per_page page w, exists w' items,
      issuesAndPullRequests o q per_page page w = (w', inr items)) ->
  forall page out st,
    (maxPRs - Z.of_nat (length out) <= Z.of_nat fuel)%Z ->
    exists st' res, search_loop o fuel q maxPRs page out st = (st', Returned res).
Proof.
  intros Hok. induction fuel as [|fuel IH]; intros page out st Hfuel;
    rewrite search_loop_unfold;
    destruct (Z.of_nat (length out) <? maxPRs)%Z eqn:Hlt;
    try (eexists _, _; reflexivity).
  - apply Z.ltb_lt in Hlt. lia.
  - apply Z.ltb_lt in Hlt.
    destruct (Hok q 100%Z page (platform st)) as (w & items & ->).
    cbv zeta.
    destruct (length items =? 0)%nat eqn:Hempty; [eexists _, _; reflexivity|].
    destruct (length items <? 100)%nat; [eexists _, _; reflexivity|].
    apply IH.
    pose proof (push_items_grows maxPRs items out (nonempty_of_length _ Hempty)).
    lia.
Qed.

Lemma searchMergedPRs_unfold (ctx : Context) (baseBranch mergedAfterISO : string)
    (maxPRs : Z) (st : St W) :
  searchMergedPRs o ctx baseBranch mergedAfterISO maxPRs st =
  match search_loop o (Z.to_nat maxPRs)
          (search_query ctx baseBranch mergedAfterISO) maxPRs 1 [] st with
  | (st', Returned out) => (st', Returned (sort_by_number out))
  | (st', Thrown e) => (st', Thrown e)
  | (st', OutOfFuel) => (st', OutOfFuel)
  end.
Proof. reflexivity. Qed.

(** C9. Whatever pages the search returns, and in whatever order: the
    loop of the collector ends (the fuel is never used up), a returned
    list has at most [maxPRs] records and is sorted ascending by number,
    and the collector returns whenever no search request fails. *)
Theorem searchMergedPRs_capped_sorted (ctx : Context)
    (baseBranch mergedAfterISO : string) (maxPRs : Z) (st : St W) :
  (0 <= maxPRs)%Z ->
  snd (searchMergedPRs o ctx baseBranch mergedAfterISO maxPRs st) ≠ OutOfFuel
  /\ (forall st' out,
        searchMergedPRs o ctx baseBranch mergedAfterISO maxPRs st
        = (st', Returned out) ->
        (Z.of_nat (length out) <= maxPRs)%Z /\ StronglySorted by_number out)
  /\ ((forall q per_page page w, exists w' items,
          issuesAndPullRequests o q per_page page w = (w', inr items)) ->
      exists st' out,
        searchMergedPRs o ctx baseBranch mergedAfterISO maxPRs st
        = (st', Returned out)).
Proof.
  intros Hmax. rewrite searchMergedPRs_unfold.
  set (q := search_query ctx baseBranch mergedAfterISO).
  pose proof (search_loop_fuel q maxPRs (Z.to_nat maxPRs) 1 [] st) as Hfuel.
  pose proof (search_loop_capped q maxPRs (Z.to_nat maxPRs) 1 [] st) as Hcap.
  split; [|split].
  - destruct (search_loop o (Z.to_nat maxPRs) q maxPRs 1 [] st) as [st1 [out|e|]];
      simpl in *; try discriminate.
    apply Hfuel. lia.
  - intros st' out.
    destruct (search_loop o (Z.to_nat maxPRs) q maxPRs 1 [] st) as [st1 [res|e|]];
      try discriminate.
    intros [= _ <-]. split; [|apply sort_by_number_sorted].
    rewrite sort_by_number_length. apply (Hcap st1 res); [simpl; lia|reflexivity].
  - intros Hok.
    destruct (search_loop_returns q maxPRs (Z.to_nat maxPRs) Hok 1 [] st)
      as (st1 & res & ->); [simpl; lia|].
    eexists _, _. reflexivity.
Qed.

End Collector.

Lemma searchMergedPRs_capped_sorted_witness :
  let run_it :=
    searchMergedPRs Memory.octokit Scenario.manual "main"
      "2025-01-01T00:00:00Z" 200 (Memory.start Scenario.many_items) in
  snd run_it ≠ OutOfFuel
  /\ (forall st' out, run_it = (st', Returned out) ->
        (Z.of_nat (length out) <= 200)%Z /\ StronglySorted by_number out).
Proof.
  assert (Hmax : (0 <= 200)%Z) by lia.
  pose proof (searchMergedPRs_capped_sorted Memory.octokit Scenario.manual "main"
                "2025-01-01T00:00:00Z" 200 (Memory.start Scenario.many_items)
                Hmax) as (Hfuel & Hout & _).
  split; [exact Hfuel|exact Hout].
Defined.

(** The include and exclude lists reach [shouldExcludePR] in lower case. *)
Example parseCommaSeparated_sample :
  parseCommaSeparated (Some " Bug, ,Feature,") = ["bug"; "feature"]
  /\ parseCommaSeparated None = [].
Proof. vm_compute. split; reflexivity. Qed.

(** The cap that [run] passes is between 1 and 1000. *)
Lemma clampInt_bounds (n : option Z) (def min max : Z) :
  (min <= def <= max)%Z -> (min <= clampInt n def min max <= max)%Z.
Proof. intros H. destruct n as [n|]; simpl; lia. Qed.

(** 250 requests served newest first, 100 a page, and a cap of 200: the
    collector reads two pages and returns the numbers 51 to 250 in
    ascending order. *)
Example searchMergedPRs_two_pages :
  match searchMergedPRs Memory.octokit Scenario.manual "main"
          "2025-01-01T00:00:00Z" 200 (Memory.start Scenario.many_items) with
  | (_, Returned out) => map number out = map Z.of_nat (seq 51 200)
  | _ => False
  end.
Proof. vm_compute. reflexivity. Qed.

(** The two requests of the small repository come back as 12, 11 and
    leave the collector as 11, 12. *)
Example searchMergedPRs_small :
  match searchMergedPRs Memory.octokit Scenario.manual "main"
          "2025-01-01T00:00:00Z" 200 (Memory.start Scenario.two_tags) with
  | (_, Returned out) =>
      out = [ mkPR 11 "Fix login redirect loop" "alice" ["bug"];
              mkPR 12 "Support dark mode" "bob" ["feat"] ]
  | _ => False
  end.
Proof. vm_compute. reflexivity. Qed.

(** The tag listing ends as well: a turn that stays in the loop adds a
    full page. *)
Lemma listTags_loop_fuel {W} (o : Octokit W) (max : Z) (fuel : nat) :
  forall page out st,
    (max - Z.of_nat (length out) <= Z.of_nat fuel)%Z ->
    snd (listTags_loop o fuel max page out st) ≠ OutOfFuel.
Proof.
  induction fuel as [|fuel IH]; intros page out st Hfuel; simpl;
    destruct (Z.of_nat (length out) <? max)%Z eqn:Hlt; try discriminate.
  - apply Z.ltb_lt in Hlt. lia.
  - unfold bind, call.
    destruct (listTags o 100 page (platform st)) as [w [e|data]];
      [discriminate|].
    destruct (length data =? 0)%nat eqn:Hempty; [discriminate|].
    destruct (length data <? 100)%nat; [discriminate|].
    apply IH. rewrite length_app. apply Nat.eqb_neq in Hempty. lia.
Qed.

Lemma listTagsAll_total {W} (o : Octokit W) (max : Z) (st : St W) :
  snd (listTagsAll o max st) ≠ OutOfFuel.
Proof.
  unfold listTagsAll, bind.
  pose proof (listTags_loop_fuel o max (Z.to_nat max) 1 [] st) as H.
  destruct (listTags_loop o (Z.to_nat max) max 1 [] st) as [st' [out|e|]];
    simpl in *; try discriminate.
  apply H. lia.
Qed.

(** ** Release window *)

Section Resolver.

Context {W : Type}.
Variable o : Octokit W.

Lemma if_same {A} (b : bool) (x : A) : (if b then x else x) = x.
Proof. destruct b; reflexivity. Qed.

Lemma commit_date_total (tagName sha : string) (st : St W) :
  snd (commit_date o tagName sha st) ≠ OutOfFuel.
Proof.
  unfold commit_date, bind, call, ret, throw.
  destruct (getCommit o sha (platform st)) as [w [e|c]]; [discriminate|].
  destruct (first_date c); discriminate.
Qed.

Lemma tagCommitDateISO_total (tagName : string) (st : St W) :
  snd (tagCommitDateISO o tagName st) ≠ OutOfFuel.
Proof.
  unfold tagCommitDateISO, bind, call, ret.
  destruct (getRef o _ (platform st)) as [w [e|r]]; [discriminate|].
  destruct (String.eqb (obj_type r) "tag").
  - destruct (getTag o _ _) as [w1 [e|t]]; [discriminate|].
    rewrite if_same. apply commit_date_total.
  - rewrite if_same. apply commit_date_total.
Qed.

(** "now minus the lookback days", in milliseconds. *)
Lemma isoDaysAgo_now (ctx : Context) (days : Z) :
  isoDaysAgo ctx days = toISOString (now ctx - days * 86400000).
Proof. unfold isoDaysAgo. f_equal. lia. Qed.

(** The window of a tag push whose tag has an older neighbour [p] in the
    history: resolved from [p]. *)
Lemma releaseWindow_push_older (ctx : Context) (days : Z) (tags : list Tag)
    (idx : nat) (p : string) (st : St W) :
  otruthy (pushedTag ctx) = true ->
  findIndex (fun t => String.eqb (tag_name t) (or_else (pushedTag ctx) "")) tags
  = Some idx ->
  tag_name <$> tags !! (idx + 1)%nat = Some p -> truthy p = true ->
  releaseWindow o ctx days tags st =
  match tagCommitDateISO o p st with
  | (st', Returned b) => (st', Returned (mkWindow (pushedTag ctx) (Some p) b))
  | (st', Thrown e) => (st', Thrown e)
  | (st', OutOfFuel) => (st', OutOfFuel)
  end.
Proof.
  intros Hpush Hidx Hp Htruthy. unfold releaseWindow. rewrite Hpush, Hidx.
  assert (Hlt : (idx + 1 <? length tags)%nat = true).
  { apply Nat.ltb_lt. destruct (tags !! (idx + 1)%nat) eqn:Hl; [|discriminate].
    eapply lookup_lt_Some. exact Hl. }
  rewrite Hlt, Hp. unfold bind at 1. unfold ret at 1. simpl. rewrite Htruthy.
  unfold bind, ret.
  destruct (tagCommitDateISO o p st) as [st' [b|e|]]; reflexivity.
Qed.

(** The window of a tag push whose tag is not in the history: a warning,
    the pushed tag, no previous tag, and the lookback baseline. The tags
    of the history play no part. *)
Lemma releaseWindow_push_unlisted (ctx : Context) (days : Z) (tags : list Tag)
    (st : St W) :
  otruthy (pushedTag ctx) = true ->
  findIndex (fun t => String.eqb (tag_name t) (or_else (pushedTag ctx) "")) tags
  = None ->
  releaseWindow o ctx days tags st =
  (mkSt (platform st)
        (logs st ++ [Warning ("Current tag " +:+ or_else (pushedTag ctx) ""
           +:+ " not found in listTags; falling back to latest tag logic.")])
        (summary st) (failed st),
   Returned (mkWindow (pushedTag ctx) None (isoDaysAgo ctx days))).
Proof.
  intros Hpush Hidx. unfold releaseWindow. rewrite Hpush, Hidx. reflexivity.
Qed.

(** The window of any other trigger. *)
Lemma releaseWindow_other (ctx : Context) (days : Z) (tags : list Tag)
    (st : St W) :
  otruthy (pushedTag ctx) = false ->
  releaseWindow o ctx days tags st =
  match tags with
  | [] => (st, Returned (mkWindow (pushedTag ctx) None (isoDaysAgo ctx days)))
  | t0 :: rest =>
      match tagCommitDateISO o (tag_name t0) st with
      | (st', Returned b) =>
          (st', Returned (mkWindow (Some (tag_name t0)) (tag_name <$> head rest) b))
      | (st', Thrown e) => (st', Thrown e)
      | (st', OutOfFuel) => (st', OutOfFuel)
      end
  end.
Proof.
  intros Hpush. unfold releaseWindow. rewrite Hpush.
  destruct tags as [|t0 [|t1 rest]]; [reflexivity| |]; unfold bind, ret;
    destruct (tagCommitDateISO o (tag_name t0) st) as [st' [b|e|]]; reflexivity.
Qed.

End Resolver.

Lemma releaseWindow_total {W} (o : Octokit W) (ctx : Context) (days : Z)
    (tags : list Tag) (st : St W) :
  snd (releaseWindow o ctx days tags st) ≠ OutOfFuel.
Proof.
  destruct (otruthy (pushedTag ctx)) eqn:Hpush.
  - unfold releaseWindow. rewrite Hpush.
    destruct (findIndex _ tags) as [idx|]; [|discriminate].
    unfold bind at 1. unfold ret at 1.
    match goal with
    | |- context [if otruthy ?prev then _ else _] => destruct (otruthy prev)
    end; [|discriminate].
    unfold bind, ret.
    match goal with
    | |- context [tagCommitDateISO o ?p st] =>
        pose proof (tagCommitDateISO_total o p st) as H;
        destruct (tagCommitDateISO o p st) as [st' [b|e|]]
    end; simpl in *; congruence.
  - rewrite (releaseWindow_other o ctx days tags st Hpush).
    destruct tags as [|t0 rest]; [discriminate|].
    pose proof (tagCommitDateISO_total o (tag_name t0) st) as H.
    destruct (tagCommitDateISO o (tag_name t0) st) as [st' [b|e|]];
      simpl in *; congruence.
Qed.

(** The baseline of a returned window, branch by branch of the script:
    on a tag push the current tag is the pushed one and the baseline is
    the resolved commit time of the previous tag when the script has set
    one, and now minus the lookback days when it has not; on any other
    trigger the baseline is the resolved commit time of the newest tag,
    which is the current tag, and now minus the lookback days when the
    history is empty. *)
Lemma releaseWindow_baseline {W} (o : Octokit W) (ctx : Context) (days : Z)
    (tags : list Tag) (st st' : St W) (w : Window) :
  releaseWindow o ctx days tags st = (st', Returned w) ->
  if otruthy (pushedTag ctx)
  then currentTag w = pushedTag ctx
       /\ (if otruthy (previousTag w)
           then tagCommitDateISO o (or_else (previousTag w) "") st
                = (st', Returned (baselineISO w))
           else baselineISO w = toISOString (now ctx - days * 86400000))
  else match tags with
       | [] =>
           previousTag w = None
           /\ baselineISO w = toISOString (now ctx - days * 86400000)
       | t0 :: rest =>
           currentTag w = Some (tag_name t0)
           /\ previousTag w = tag_name <$> head rest
           /\ tagCommitDateISO o (tag_name t0) st
              = (st', Returned (baselineISO w))
       end.
Proof.
  intros H. destruct (otruthy (pushedTag ctx)) eqn:Hpush.
  - destruct (findIndex (fun t => String.eqb (tag_name t)
                                    (or_else (pushedTag ctx) "")) tags)
      as [idx|] eqn:Hidx.
    + unfold releaseWindow in H. rewrite Hpush, Hidx in H.
      unfold bind at 1 in H. unfold ret at 1 in H.
      destruct (otruthy (if (idx + 1 <? length tags)%nat
                         then tag_name <$> tags !! (idx + 1)%nat else None))
        eqn:Hprev.
      * unfold bind, ret in H.
        destruct (tagCommitDateISO o _ st) as [st1 [b|e|]] eqn:Hdate;
          try discriminate.
        injection H as <- <-. simpl. rewrite Hprev. split; [reflexivity|].
        exact Hdate.
      * injection H as <- <-. simpl. rewrite Hprev. split; [reflexivity|].
        apply isoDaysAgo_now.
    + rewrite (releaseWindow_push_unlisted o ctx days tags st Hpush Hidx) in H.
      injection H as <- <-. simpl. split; [reflexivity|]. apply isoDaysAgo_now.
  - rewrite (releaseWindow_other o ctx days tags st Hpush) in H.
    destruct tags as [|t0 rest].
    + injection H as <- <-. simpl. split; [reflexivity|]. apply isoDaysAgo_now.
    + destruct (tagCommitDateISO o (tag_name t0) st) as [st1 [b|e|]] eqn:Hdate;
        try discriminate.
      injection H as <- <-. simpl. repeat split.
Qed.

Lemma releaseWindow_baseline_witness :
  tagCommitDateISO Memory.octokit "v1.0" (Memory.start Scenario.two_tags)
  = (Memory.start Scenario.two_tags, Returned "2025-01-01T00:00:00Z")
  /\ tagCommitDateISO Memory.octokit "v1.1" (Memory.start Scenario.two_tags)
     = (Memory.start Scenario.two_tags, Returned "2025-02-01T00:00:00Z").
Proof.
  assert (Hpush :
    releaseWindow Memory.octokit (Scenario.tag_push "v1.1") 30
      (Memory.gh_tags Scenario.two_tags) (Memory.start Scenario.two_tags)
    = (Memory.start Scenario.two_tags,
       Returned (mkWindow (Some "v1.1") (Some "v1.0") "2025-01-01T00:00:00Z")))
    by (vm_compute; reflexivity).
  assert (Hmanual :
    releaseWindow Memory.octokit Scenario.manual 30
      (Memory.gh_tags Scenario.two_tags) (Memory.start Scenario.two_tags)
    = (Memory.start Scenario.two_tags,
       Returned (mkWindow (Some "v1.1") (Some "v1.0") "2025-02-01T00:00:00Z")))
    by (vm_compute; reflexivity).
  split.
  - exact (proj2 (releaseWindow_baseline _ _ _ _ _ _ _ Hpush)).
  - exact (proj2 (proj2 (releaseWindow_baseline _ _ _ _ _ _ _ Hmanual))).
Defined.

(** C1 at a manual run over the two tags [v1.1] and [v1.0]: the previous
    tag is set to [v1.0], whose commit time is 2025-01-01, and the
    baseline is the commit time of the current tag [v1.1], 2025-02-01,
    not that of the previous tag; the range line of the document still
    reads from [v1.0] to [v1.1]. *)
Theorem baseline_of_manual_run_two_tags :
  snd (releaseWindow Memory.octokit Scenario.manual 30
         (Memory.gh_tags Scenario.two_tags) (Memory.start Scenario.two_tags))
  = Returned (mkWindow (Some "v1.1") (Some "v1.0") "2025-02-01T00:00:00Z")
  /\ snd (tagCommitDateISO Memory.octokit "v1.0" (Memory.start Scenario.two_tags))
     = Returned "2025-01-01T00:00:00Z"
  /\ "2025-02-01T00:00:00Z" ≠ "2025-01-01T00:00:00Z"
  /\ rangeLine (mkWindow (Some "v1.1") (Some "v1.0") "2025-02-01T00:00:00Z")
     = "From **v1.0** to **v1.1**".
Proof. vm_compute. repeat split; discriminate. Qed.

(** The cases of the specification that the script does have. *)
Example window_tag_push_two_tags :
  snd (releaseWindow Memory.octokit (Scenario.tag_push "v1.1") 30
         (Memory.gh_tags Scenario.two_tags) (Memory.start Scenario.two_tags))
  = Returned (mkWindow (Some "v1.1") (Some "v1.0") "2025-01-01T00:00:00Z").
Proof. vm_compute. reflexivity. Qed.

Example window_tag_push_oldest_tag :
  snd (releaseWindow Memory.octokit (Scenario.tag_push "v1.0") 30
         (Memory.gh_tags Scenario.two_tags) (Memory.start Scenario.two_tags))
  = Returned (mkWindow (Some "v1.0") None "2025-12-02T00:00:00.000Z").
Proof. vm_compute. reflexivity. Qed.

Example window_manual_one_tag :
  snd (releaseWindow Memory.octokit Scenario.manual 30
         (Memory.gh_tags Scenario.one_tag) (Memory.start Scenario.one_tag))
  = Returned (mkWindow (Some "v1.0") None "2025-01-01T00:00:00Z").
Proof. vm_compute. reflexivity. Qed.

Example window_manual_no_tags :
  snd (releaseWindow Memory.octokit Scenario.manual 14
         (Memory.gh_tags Scenario.no_tags) (Memory.start Scenario.no_tags))
  = Returned (mkWindow None None "2025-12-18T00:00:00.000Z").
Proof. vm_compute. reflexivity. Qed.

(** C2 at a tag push of [v2.0] over the history [v1.1, v1.0]: the warning
    is logged, and the window keeps the pushed tag, has no previous tag
    and takes the lookback baseline; the logic of the other triggers
    would give [v1.1], [v1.0] and the commit time of [v1.1]. *)
Theorem window_of_unlisted_tag_push :
  releaseWindow Memory.octokit (Scenario.tag_push "v2.0") 30
    (Memory.gh_tags Scenario.two_tags) (Memory.start Scenario.two_tags)
  = (mkSt Scenario.two_tags
       [Warning "Current tag v2.0 not found in listTags; falling back to latest tag logic."]
       [] None,
     Returned (mkWindow (Some "v2.0") None "2025-12-02T00:00:00.000Z"))
  /\ snd (releaseWindow Memory.octokit Scenario.manual 30
            (Memory.gh_tags Scenario.two_tags) (Memory.start Scenario.two_tags))
     = Returned (mkWindow (Some "v1.1") (Some "v1.0") "2025-02-01T00:00:00Z").
Proof. vm_compute. split; reflexivity. Qed.

(** ** Title line *)

(** The title names a release exactly when the event is a push and a
    current tag is set, by the push or by the history. *)
Lemma titleLine_release (ctx : Context) (w : Window) :
  (eventName ctx = "push" /\ otruthy (currentTag w) = true ->
   titleLine ctx w = "## Release " +:+ or_else (currentTag w) "")
  /\ (eventName ctx ≠ "push" \/ otruthy (currentTag w) = false ->
      titleLine ctx w = "## Release notes (unreleased)").
Proof.
  unfold titleLine. split.
  - intros [-> ->]. reflexivity.
  - intros [Hne| ->].
    + apply String.eqb_neq in Hne. rewrite Hne. reflexivity.
    + rewrite andb_false_r. reflexivity.
Qed.

(** A push that is not a tag push, in a repository with a tag: the title
    names the newest tag as the release. *)
Lemma titleLine_push_of_branch {W} (o : Octokit W) (ctx : Context) (days : Z)
    (t0 : Tag) (rest : list Tag) (st st' : St W) (w : Window) :
  eventName ctx = "push" -> isTagPush ctx = false ->
  truthy (tag_name t0) = true ->
  releaseWindow o ctx days (t0 :: rest) st = (st', Returned w) ->
  titleLine ctx w = "## Release " +:+ tag_name t0.
Proof.
  intros Hev Hpush Ht0 H.
  assert (Hnone : otruthy (pushedTag ctx) = false)
    by (unfold pushedTag; rewrite Hpush; reflexivity).
  rewrite (releaseWindow_other o ctx days (t0 :: rest) st Hnone) in H.
  destruct (tagCommitDateISO o (tag_name t0) st) as [st1 [b|e|]];
    try discriminate.
  injection H as <- <-. unfold titleLine. simpl. rewrite Hev, Ht0.
  reflexivity.
Qed.

(** C4 at a push of the branch [main] in the repository with the tags
    [v1.1] and [v1.0]: the run is not a tag push, the title is
    "Release v1.1", and a release of [v1.1] is created. *)
Theorem title_of_branch_push :
  isTagPush Scenario.branch_push = false
  /\ (let r := run Memory.octokit Scenario.branch_push Scenario.defaults
                 (Memory.start Scenario.two_tags) in
      snd r = Returned tt
      /\ failed (fst r) = None
      /\ (exists rest,
            head (summary (fst r)) = Some ("## Release v1.1" +:+ nl +:+ rest))
      /\ map release_tag (Memory.gh_releases (platform (fst r))) = ["v1.1"]).
Proof.
  split; [reflexivity|]. vm_compute. repeat split.
  eexists. reflexivity.
Qed.

Example title_of_tag_push :
  let r := run Memory.octokit (Scenario.tag_push "v1.1") Scenario.defaults
             (Memory.start Scenario.two_tags) in
  exists rest, head (summary (fst r)) = Some ("## Release v1.1" +:+ nl +:+ rest).
Proof. vm_compute. eexists. reflexivity. Qed.

Example title_of_manual_run :
  let r := run Memory.octokit Scenario.manual Scenario.defaults
             (Memory.start Scenario.two_tags) in
  exists rest,
    head (summary (fst r))
    = Some ("## Release notes (unreleased)" +:+ nl +:+ rest).
Proof. vm_compute. eexists. reflexivity. Qed.

(** ** Release sink *)

Section Upsert.

Context {W : Type}.
Variable o : Octokit W.

(** Lookup and update succeed: the release is updated and nothing is
    created. *)
Lemma upsert_found (tag body : string) (draft : bool) (st : St W)
    (w1 w2 : W) (existing upd : Release) :
  getReleaseByTag o tag (platform st) = (w1, inr existing) ->
  updateRelease o (release_id existing) body draft w1 = (w2, inr upd) ->
  upsertReleaseByTag o tag body draft st
  = (with_platform st w2, Returned (mkUpsertResult "updated" (release_url upd))).
Proof.
  intros Hget Hupd. unfold upsertReleaseByTag, try_catch, bind, call, ret.
  rewrite Hget. simpl. rewrite Hupd. reflexivity.
Qed.

(** The lookup throws, whatever the error: the script goes on to create a
    release, and the error is dropped. *)
Lemma upsert_lookup_throws (tag body : string) (draft : bool) (st : St W)
    (w1 : W) (e : exn) :
  getReleaseByTag o tag (platform st) = (w1, inl e) ->
  upsertReleaseByTag o tag body draft st
  = match createRelease o tag ("Release " +:+ tag) body draft w1 with
    | (w2, inr created) =>
        (with_platform st w2,
         Returned (mkUpsertResult "created" (release_url created)))
    | (w2, inl e') => (with_platform st w2, Thrown e')
    end.
Proof.
  intros Hget. unfold upsertReleaseByTag, try_catch, bind, call, ret.
  rewrite Hget. simpl.
  destruct (createRelease o tag _ body draft w1) as [w2 [e'|created]];
    reflexivity.
Qed.

(** The update throws: the same. *)
Lemma upsert_update_throws (tag body : string) (draft : bool) (st : St W)
    (w1 w2 : W) (existing : Release) (e : exn) :
  getReleaseByTag o tag (platform st) = (w1, inr existing) ->
  updateRelease o (release_id existing) body draft w1 = (w2, inl e) ->
  upsertReleaseByTag o tag body draft st
  = match createRelease o tag ("Release " +:+ tag) body draft w2 with
    | (w3, inr created) =>
        (with_platform st w3,
         Returned (mkUpsertResult "created" (release_url created)))
    | (w3, inl e') => (with_platform st w3, Thrown e')
    end.
Proof.
  intros Hget Hupd. unfold upsertReleaseByTag, try_catch, bind, call, ret.
  rewrite Hget. simpl. rewrite Hupd. simpl.
  destruct (createRelease o tag _ body draft w2) as [w3 [e'|created]];
    reflexivity.
Qed.

(** What [main] throws, [run] reports as the failure of the run. *)
Lemma run_reports_failure (ctx : Context) (inp : Inputs) (st st' : St W)
    (e : exn) :
  main o ctx inp st = (st', Thrown e) ->
  run o ctx inp st
  = (mkSt (platform st') (logs st') (summary st') (Some (exn_text e)),
     Returned tt).
Proof. intros H. unfold run, try_catch. rewrite H. reflexivity. Qed.

End Upsert.

Module MemoryFacts.

Import Memory.

Lemma find_has_tag (tag : string) (rs : list Release) :
  (0 < length (List.filter (has_tag tag) rs))%nat ->
  exists r, find (has_tag tag) rs = Some r /\ In r rs /\ release_tag r = tag.
Proof.
  induction rs as [|r rs IH]; simpl; [lia|].
  destruct (has_tag tag r) eqn:Hr.
  - intros _. exists r. repeat split; [left; reflexivity|].
    apply String.eqb_eq. exact Hr.
  - intros H. destruct (IH H) as (r' & Hfind & Hin & Htag).
    exists r'. repeat split; [exact Hfind|right; exact Hin|exact Htag].
Qed.

Lemma find_has_tag_none (tag : string) (rs : list Release) :
  length (List.filter (has_tag tag) rs) = 0%nat -> find (has_tag tag) rs = None.
Proof.
  induction rs as [|r rs IH]; simpl; [reflexivity|].
  destruct (has_tag tag r); simpl; [lia|exact IH].
Qed.

Lemma find_has_id (r : Release) (rs : list Release) :
  In r rs -> exists r', find (has_id (release_id r)) rs = Some r'.
Proof.
  induction rs as [|x rs IH]; simpl; [tauto|].
  intros [->|Hin].
  - unfold has_id at 1. rewrite Z.eqb_refl. eexists. reflexivity.
  - destruct (has_id (release_id r) x); [eexists; reflexivity|apply IH, Hin].
Qed.

(** Editing releases in place keeps the number of releases of every tag. *)
Lemma edit_keeps_tags (tag body : string) (draft : bool) (id : Z)
    (rs : list Release) :
  List.filter (has_tag tag)
    (map (fun r => if has_id id r then edit_release body draft r else r) rs)
  = map (fun r => if has_id id r then edit_release body draft r else r)
        (List.filter (has_tag tag) rs).
Proof.
  induction rs as [|r rs IH]; simpl; [reflexivity|].
  assert (Htag : has_tag tag (if has_id id r then edit_release body draft r else r)
                 = has_tag tag r) by (destruct (has_id id r); reflexivity).
  rewrite Htag. destruct (has_tag tag r); simpl; rewrite IH; reflexivity.
Qed.

Lemma edited_release_stored (tag body : string) (draft : bool) (r : Release)
    (rs : list Release) :
  In r rs -> release_tag r = tag ->
  exists r', In r' (map (fun x => if has_id (release_id r) x
                                  then edit_release body draft x else x) rs)
             /\ release_tag r' = tag /\ release_body r' = body
             /\ release_draft r' = draft.
Proof.
  intros Hin Htag. exists (edit_release body draft r). repeat split; [|exact Htag].
  apply in_map_iff. exists r. split; [|exact Hin].
  unfold has_id. rewrite Z.eqb_refl. reflexivity.
Qed.

(** In the memory platform, with a release of [tag] stored: the upsert
    takes the update branch, edits in place, and stores no new record. *)
Lemma upsert_updates_in_place (tag body : string) (draft : bool)
    (st : St GitHub) :
  (0 < releases_of tag (platform st))%nat ->
  exists st' u,
    upsertReleaseByTag octokit tag body draft st
    = (st', Returned (mkUpsertResult "updated" u))
    /\ releases_of tag (platform st') = releases_of tag (platform st)
    /\ length (gh_releases (platform st')) = length (gh_releases (platform st))
    /\ (exists r, In r (gh_releases (platform st')) /\ release_tag r = tag
                  /\ release_body r = body /\ release_draft r = draft).
Proof.
  intros Hex. destruct (find_has_tag tag _ Hex) as (r & Hfind & Hin & Htag).
  destruct (find_has_id r _ Hin) as (r' & Hid).
  eexists _, _. split; [|split; [|split]].
  - eapply (upsert_found octokit tag body draft st).
    + simpl. unfold mem_getReleaseByTag. rewrite Hfind. reflexivity.
    + simpl. unfold mem_updateRelease. rewrite Hid. reflexivity.
  - unfold releases_of. simpl. rewrite edit_keeps_tags, length_map. reflexivity.
  - simpl. apply length_map.
  - simpl. apply (edited_release_stored tag body draft r _ Hin Htag).
Qed.

(** In the memory platform, with no release of [tag] stored: the upsert
    creates the one record. *)
Lemma upsert_creates_first (tag body : string) (draft : bool) (st : St GitHub) :
  releases_of tag (platform st) = 0%nat ->
  exists st',
    upsertReleaseByTag octokit tag body draft st
    = (st', Returned (mkUpsertResult "created" (release_page tag)))
    /\ releases_of tag (platform st') = 1%nat.
Proof.
  intros Hnone. eexists. split.
  - rewrite (upsert_lookup_throws octokit tag body draft st (platform st) not_found).
    + reflexivity.
    + simpl. unfold mem_getReleaseByTag.
      rewrite (find_has_tag_none tag _ Hnone). reflexivity.
  - unfold releases_of in *. simpl. rewrite List.filter_app, length_app, Hnone.
    simpl. unfold has_tag at 1. simpl. rewrite String.eqb_refl. reflexivity.
Qed.

End MemoryFacts.

(** C5. In a state where a release of the tag is stored, the upsert takes
    the update branch and reports "updated"; the stored release carries
    the new body and draft flag; no record is added, so the tag has as
    many releases as before: one when it had one. *)
Theorem upsert_existing_release (tag body : string) (draft : bool)
    (st : St Memory.GitHub) :
  (0 < Memory.releases_of tag (platform st))%nat ->
  exists st' u,
    upsertReleaseByTag Memory.octokit tag body draft st
    = (st', Returned (mkUpsertResult "updated" u))
    /\ Memory.releases_of tag (platform st')
       = Memory.releases_of tag (platform st)
    /\ length (Memory.gh_releases (platform st'))
       = length (Memory.gh_releases (platform st))
    /\ (Memory.releases_of tag (platform st) = 1%nat ->
        Memory.releases_of tag (platform st') = 1%nat)
    /\ (exists r, In r (Memory.gh_releases (platform st'))
                  /\ release_tag r = tag /\ release_body r = body
                  /\ release_draft r = draft).
Proof.
  intros Hex.
  destruct (MemoryFacts.upsert_updates_in_place tag body draft st Hex)
    as (st' & u & Hrun & Hcount & Hlen & Hstored).
  exists st', u. repeat split; try assumption. intros H1. rewrite Hcount. exact H1.
Qed.

Lemma upsert_existing_release_witness :
  exists st' u,
    upsertReleaseByTag Memory.octokit "v1.1" "new notes" false
      (Memory.start Scenario.released)
    = (st', Returned (mkUpsertResult "updated" u))
    /\ Memory.releases_of "v1.1" (platform st') = 1%nat.
Proof.
  assert (Hex : (0 < Memory.releases_of "v1.1"
                       (platform (Memory.start Scenario.released)))%nat)
    by (vm_compute; lia).
  destruct (upsert_existing_release "v1.1" "new notes" false
              (Memory.start Scenario.released) Hex)
    as (st' & u & Hrun & Hcount & _ & _ & _).
  exists st', u. split; [exact Hrun|]. rewrite Hcount. reflexivity.
Defined.

(** The publisher run twice for the same tag and body, from any state of
    the memory platform: the second run reports "updated" and leaves the
    number of releases of the tag as the first run left it, which is one
    when the tag had no release at the start. *)
Lemma upsert_twice (tag body : string) (draft : bool) (st : St Memory.GitHub) :
  exists st1 r1 st2 u,
    upsertReleaseByTag Memory.octokit tag body draft st = (st1, Returned r1)
    /\ upsertReleaseByTag Memory.octokit tag body draft st1
       = (st2, Returned (mkUpsertResult "updated" u))
    /\ Memory.releases_of tag (platform st2)
       = Memory.releases_of tag (platform st1)
    /\ (Memory.releases_of tag (platform st) = 0%nat ->
        action r1 = "created"
        /\ Memory.releases_of tag (platform st2) = 1%nat).
Proof.
  destruct (Memory.releases_of tag (platform st)) as [|n] eqn:Hn.
  - destruct (MemoryFacts.upsert_creates_first tag body draft st Hn)
      as (st1 & Hrun1 & Hone).
    assert (Hex : (0 < Memory.releases_of tag (platform st1))%nat) by lia.
    destruct (MemoryFacts.upsert_updates_in_place tag body draft st1 Hex)
      as (st2 & u & Hrun2 & Hcount & _).
    exists st1, (mkUpsertResult "created" (Memory.release_page tag)), st2, u.
    repeat split; try assumption. rewrite Hcount. exact Hone.
  - assert (Hex : (0 < Memory.releases_of tag (platform st))%nat) by lia.
    destruct (MemoryFacts.upsert_updates_in_place tag body draft st Hex)
      as (st1 & u1 & Hrun1 & Hcount1 & _).
    assert (Hex1 : (0 < Memory.releases_of tag (platform st1))%nat) by lia.
    destruct (MemoryFacts.upsert_updates_in_place tag body draft st1 Hex1)
      as (st2 & u & Hrun2 & Hcount & _).
    exists st1, (mkUpsertResult "updated" u1), st2, u.
    repeat split; try assumption; discriminate.
Qed.

(** The whole run twice on the tag push of [v1.1]: a release is created,
    then updated; one record. *)
Example run_twice_one_release :
  let r1 := run Memory.octokit (Scenario.tag_push "v1.1") Scenario.defaults
              (Memory.start Scenario.two_tags) in
  let r2 := run Memory.octokit (Scenario.tag_push "v1.1") Scenario.defaults
              (Memory.start (platform (fst r1))) in
  Memory.releases_of "v1.1" (platform (fst r1)) = 1%nat
  /\ Memory.releases_of "v1.1" (platform (fst r2)) = 1%nat
  /\ last (logs (fst r1))
     = Some (Info "Release created: https://github.com/releases/tag/v1.1")
  /\ last (logs (fst r2))
     = Some (Info "Release updated: https://github.com/releases/tag/v1.1").
Proof. vm_compute. repeat split; reflexivity. Qed.

(** C3 at a release lookup that fails with a server error while a release
    of [v1.1] is stored: the error is not reported, the upsert answers
    "created", the tag has two release records, and the run ends without
    a failure. *)
Theorem lookup_error_creates_release :
  let o := Memory.octokit_lookup_failing
             (RequestError 500 "Internal Server Error") in
  (let r := upsertReleaseByTag o "v1.1" "notes" true
              (Memory.start Scenario.released) in
   snd r = Returned (mkUpsertResult "created" (Memory.release_page "v1.1"))
   /\ Memory.releases_of "v1.1" (platform (fst r)) = 2%nat)
  /\ (let r := run o (Scenario.tag_push "v1.1") Scenario.defaults
                 (Memory.start Scenario.released) in
      snd r = Returned tt
      /\ failed (fst r) = None
      /\ Memory.releases_of "v1.1" (platform (fst r)) = 2%nat).
Proof. vm_compute. repeat split; reflexivity. Qed.

(** The errors of the other requests reach the top level: with the
    platform down, the run fails with the message of the first error and
    publishes nothing. *)
Example run_platform_down :
  run (Memory.octokit_down (RequestError 503 "Service Unavailable"))
      (Scenario.tag_push "v1.1") Scenario.defaults
      (Memory.start Scenario.two_tags)
  = (mkSt Scenario.two_tags [] [] (Some "Service Unavailable"), Returned tt).
Proof. vm_compute. reflexivity. Qed.

(** ** The collector on a paging platform *)

Lemma push_items_take (maxPRs : Z) (items : list Item) (out : list PR) :
  (Z.of_nat (length out) < maxPRs)%Z ->
  push_items maxPRs items out
  = out ++ map normalize (firstn (Z.to_nat maxPRs - length out) items).
Proof.
  revert out. induction items as [|i items IH]; intros out Hlt; simpl.
  - rewrite firstn_nil, app_nil_r. reflexivity.
  - rewrite length_app. simpl.
    destruct (maxPRs <=? Z.of_nat (length out + 1))%Z eqn:Hfull.
    + apply Z.leb_le in Hfull.
      replace (Z.to_nat maxPRs - length out)%nat with 1%nat by lia.
      reflexivity.
    + apply Z.leb_gt in Hfull.
      rewrite IH by (rewrite length_app; simpl; lia).
      rewrite length_app. simpl.
      replace (Z.to_nat maxPRs - length out)%nat
        with (S (Z.to_nat maxPRs - (length out + 1)))%nat by lia.
      simpl. rewrite <- app_assoc. reflexivity.
Qed.

Module MemoryCollector.

Import Memory.

Lemma page_of_100 {A} (p : nat) (l : list A) :
  page_of 100 (Z.of_nat p + 1) l = firstn 100 (skipn (100 * p) l).
Proof.
  unfold page_of.
  replace (Z.to_nat ((Z.of_nat p + 1 - 1) * 100)) with (100 * p)%nat by lia.
  reflexivity.
Qed.

(** On the memory platform the loop collects the first [maxPRs] items of
    the search, in the order of the platform. *)
Lemma search_loop_take (q : string) (maxPRs : Z) (w : GitHub)
    (l : list LogLine) (s : list string) (f : option string) (fuel : nat) :
  forall (p : nat) (out : list PR),
    (100 * p <= length (gh_items w))%nat ->
    out = map normalize (firstn (Nat.min (100 * p) (Z.to_nat maxPRs)) (gh_items w)) ->
    (Z.to_nat maxPRs - 100 * p <= fuel)%nat ->
    search_loop octokit fuel q maxPRs (Z.of_nat p + 1) out (mkSt w l s f)
    = (mkSt w l s f,
       Returned (map normalize (firstn (Z.to_nat maxPRs) (gh_items w)))).
Proof.
  induction fuel as [|fuel IH]; intros p out Hp Hout Hfuel;
    rewrite search_loop_unfold;
    assert (Hlen : length out = Nat.min (100 * p) (Z.to_nat maxPRs))
      by (rewrite Hout, length_map, length_take; lia);
    destruct (Z.of_nat (length out) <? maxPRs)%Z eqn:Hlt.
  - apply Z.ltb_lt in Hlt. lia.
  - apply Z.ltb_ge in Hlt. rewrite Hout.
    replace (Nat.min (100 * p) (Z.to_nat maxPRs)) with (Z.to_nat maxPRs) by lia.
    reflexivity.
  - apply Z.ltb_lt in Hlt.
    change (issuesAndPullRequests octokit q 100 (Z.of_nat p + 1)
              (platform (mkSt w l s f)))
      with (w, @inr exn _ (page_of 100 (Z.of_nat p + 1) (gh_items w))).
    cbv zeta. rewrite page_of_100.
    set (data := firstn 100 (skipn (100 * p) (gh_items w))).
    assert (Hdata : length data = Nat.min 100 (length (gh_items w) - 100 * p))
      by (unfold data; rewrite length_take, length_drop; reflexivity).
    assert (Hmin : Nat.min (100 * p) (Z.to_nat maxPRs) = (100 * p)%nat) by lia.
    assert (Hout' : push_items maxPRs data out
                    = map normalize
                        (firstn (Nat.min (100 * S p) (Z.to_nat maxPRs))
                                (gh_items w))).
    { rewrite (push_items_take maxPRs data out Hlt), Hout, <- map_app.
      f_equal. unfold data. rewrite length_map, length_take, Hmin.
      replace (Nat.min (100 * p) (length (gh_items w))) with (100 * p)%nat by lia.
      rewrite take_take, take_take_drop.
      replace (100 * p + Nat.min (Z.to_nat maxPRs - 100 * p) 100)%nat
        with (Nat.min (100 * S p) (Z.to_nat maxPRs)) by lia.
      reflexivity. }
    destruct (length data =? 0)%nat eqn:Hempty.
    + apply Nat.eqb_eq in Hempty. simpl. rewrite Hout, Hmin.
      rewrite !take_ge by lia. reflexivity.
    + apply Nat.eqb_neq in Hempty.
      destruct (length data <? 100)%nat eqn:Hshort.
      * apply Nat.ltb_lt in Hshort. simpl. rewrite Hout'.
        destruct (Nat.le_gt_cases (Z.to_nat maxPRs) (100 * S p)) as [Hle|Hgt].
        -- replace (Nat.min (100 * S p) (Z.to_nat maxPRs))
             with (Z.to_nat maxPRs) by lia.
           reflexivity.
        -- rewrite !take_ge by lia. reflexivity.
      * apply Nat.ltb_ge in Hshort.
        replace (Z.of_nat p + 1 + 1)%Z with (Z.of_nat (S p) + 1)%Z by lia.
        apply IH; [lia|exact Hout'|lia].
  - apply Z.ltb_ge in Hlt. rewrite Hout.
    replace (Nat.min (100 * p) (Z.to_nat maxPRs)) with (Z.to_nat maxPRs) by lia.
    reflexivity.
Qed.

(** What the collector returns on the memory platform: the first
    [maxPRs] items of the search, normalised and sorted by number. *)
Lemma searchMergedPRs_take (ctx : Context) (baseBranch mergedAfterISO : string)
    (maxPRs : Z) (w : GitHub) (l : list LogLine) (s : list string)
    (f : option string) :
  searchMergedPRs octokit ctx baseBranch mergedAfterISO maxPRs (mkSt w l s f)
  = (mkSt w l s f,
     Returned (sort_by_number
                 (map normalize (firstn (Z.to_nat maxPRs) (gh_items w))))).
Proof.
  rewrite searchMergedPRs_unfold.
  rewrite (search_loop_take _ maxPRs w l s f (Z.to_nat maxPRs) 0 []);
    [reflexivity|simpl; lia|reflexivity|lia].
Qed.

End MemoryCollector.

(** ** The order of the platform does not show in the output *)

Lemma sorted_head_least (x : PR) (l : list PR) (y : PR) :
  StronglySorted by_number (x :: l) -> y ∈ x :: l -> (number x <= number y)%Z.
Proof.
  intros Hs Hy. apply StronglySorted_inv in Hs as [_ Hall].
  apply elem_of_cons in Hy as [->|Hy]; [lia|].
  rewrite Forall_forall in Hall. apply Hall, Hy.
Qed.

(** Two sorted lists with the same records, no two of them with the same
    number, are the same list. *)
Lemma sorted_perm_eq (l1 l2 : list PR) :
  StronglySorted by_number l1 -> StronglySorted by_number l2 ->
  l1 ≡ₚ l2 -> NoDup (map number l1) -> l1 = l2.
Proof.
  revert l2. induction l1 as [|x l1 IH]; intros l2 S1 S2 P ND.
  - apply Permutation_nil in P. congruence.
  - destruct l2 as [|y l2]; [apply Permutation_sym, Permutation_nil_cons in P; tauto|].
    assert (Hx : x ∈ y :: l2) by (rewrite <- P; left).
    assert (Hy : y ∈ x :: l1) by (rewrite P; left).
    pose proof (sorted_head_least _ _ _ S1 Hy) as Hxy.
    pose proof (sorted_head_least _ _ _ S2 Hx) as Hyx.
    simpl in ND. apply NoDup_cons in ND as [Hfresh ND].
    assert (Heq : x = y).
    { apply elem_of_cons in Hy as [->|Hy]; [reflexivity|].
      exfalso. apply Hfresh. replace (number x) with (number y) by lia.
      apply list_elem_of_In, in_map, list_elem_of_In, Hy. }
    subst y. f_equal.
    apply StronglySorted_inv in S1 as [S1 _]. apply StronglySorted_inv in S2 as [S2 _].
    apply IH; [exact S1|exact S2| |exact ND].
    eapply Permutation_cons_inv. exact P.
Qed.

Lemma sort_by_number_perm_eq (l1 l2 : list PR) :
  l1 ≡ₚ l2 -> NoDup (map number l1) -> sort_by_number l1 = sort_by_number l2.
Proof.
  intros P ND. apply sorted_perm_eq; try apply sort_by_number_sorted.
  - rewrite !sort_by_number_perm. exact P.
  - rewrite sort_by_number_perm. exact ND.
Qed.

(** Two memory platforms that hold the same items, at most [maxPRs] of
    them and no two with the same number, in any two orders: the
    collector returns the same list. *)
Lemma searchMergedPRs_order_free (ctx : Context)
    (baseBranch mergedAfterISO : string) (maxPRs : Z) (w1 w2 : Memory.GitHub) :
  Memory.gh_items w1 ≡ₚ Memory.gh_items w2 ->
  NoDup (map item_number (Memory.gh_items w1)) ->
  (Z.of_nat (length (Memory.gh_items w1)) <= maxPRs)%Z ->
  snd (searchMergedPRs Memory.octokit ctx baseBranch mergedAfterISO maxPRs
         (Memory.start w1))
  = snd (searchMergedPRs Memory.octokit ctx baseBranch mergedAfterISO maxPRs
           (Memory.start w2)).
Proof.
  intros P ND Hlen. unfold Memory.start.
  rewrite !MemoryCollector.searchMergedPRs_take. simpl. f_equal.
  assert (Hlen2 : length (Memory.gh_items w2) = length (Memory.gh_items w1))
    by (symmetry; apply Permutation_length, P).
  rewrite !take_ge by lia.
  apply sort_by_number_perm_eq.
  - apply Permutation_map, P.
  - rewrite map_map. exact ND.
Qed.

(** ** Errors *)

(** The resolver throws only what the resolution of a tag threw. *)
Lemma releaseWindow_throws {W} (o : Octokit W) (ctx : Context) (days : Z)
    (tags : list Tag) (st st' : St W) (e : exn) :
  releaseWindow o ctx days tags st = (st', Thrown e) ->
  exists tagName, tagCommitDateISO o tagName st = (st', Thrown e).
Proof.
  intros H. destruct (otruthy (pushedTag ctx)) eqn:Hpush.
  - unfold releaseWindow in H. rewrite Hpush in H.
    destruct (findIndex _ tags) as [idx|]; [|discriminate].
    unfold bind at 1 in H. unfold ret at 1 in H.
    match type of H with
    | context [if otruthy ?prev then _ else _] =>
        destruct (otruthy prev); [|discriminate]
    end.
    unfold bind, ret in H.
    match type of H with
    | context [tagCommitDateISO o ?p st] =>
        exists p; destruct (tagCommitDateISO o p st) as [st1 [b|e1|]]
    end; try discriminate.
    injection H as <- <-. reflexivity.
  - rewrite (releaseWindow_other o ctx days tags st Hpush) in H.
    destruct tags as [|t0 rest]; [discriminate|].
    exists (tag_name t0).
    destruct (tagCommitDateISO o (tag_name t0) st) as [st1 [b|e1|]];
      try discriminate.
    injection H as <- <-. reflexivity.
Qed.

Lemma listTagsAll_first_error {W} (o : Octokit W) (max : Z) (st : St W)
    (w : W) (e : exn) :
  (0 < max)%Z ->
  listTags o 100 1 (platform st) = (w, inl e) ->
  listTagsAll o max st = (with_platform st w, Thrown e).
Proof.
  intros Hmax H. unfold listTagsAll.
  destruct (Z.to_nat max) as [|fuel] eqn:Hfuel; [lia|].
  unfold bind at 1. cbn [listTags_loop length].
  assert (Hlt : (Z.of_nat 0 <? max)%Z = true) by (apply Z.ltb_lt; simpl; lia).
  rewrite Hlt. unfold bind, call. rewrite H. reflexivity.
Qed.

(** An error of the first request of the run reaches the top level: the
    run fails with its message and nothing is published. *)
Lemma run_listTags_error {W} (o : Octokit W) (ctx : Context) (inp : Inputs)
    (st : St W) (w : W) (e : exn) :
  listTags o 100 1 (platform st) = (w, inl e) ->
  run o ctx inp st
  = (mkSt w (logs st) (summary st) (Some (exn_text e)), Returned tt).
Proof.
  intros H.
  apply (run_reports_failure o ctx inp st (with_platform st w) e).
  unfold main. unfold bind at 1.
  rewrite (listTagsAll_first_error o 200 st w e); [reflexivity|lia|exact H].
Qed.

(** ** A whole run *)

(** The tag push of [v1.1] over the history [v1.1, v1.0], with one
    merged request labelled [bug] and one labelled [feat]: the document. *)
Example run_tag_push_document :
  head (summary (fst (run Memory.octokit (Scenario.tag_push "v1.1")
                        Scenario.defaults (Memory.start Scenario.two_tags))))
  = Some "## Release v1.1

From **v1.0** to **v1.1**
[Full diff](https://github.com/acme/app/compare/v1.0...v1.1)

### Added
- Support dark mode (#12) @bob

### Fixed
- Fix login redirect loop (#11) @alice

".
Proof. vm_compute. reflexivity. Qed.

(** A manual run without tags and a lookback of 14 days. *)
Example run_manual_no_tags_document :
  head (summary (fst (run Memory.octokit Scenario.manual (Scenario.lookback 14)
                        (Memory.start Scenario.no_tags))))
  = Some "## Release notes (unreleased)

Since **2025-12-18T00:00:00.000Z**

_No merged PRs found in this range._
".
Proof. vm_compute. reflexivity. Qed.

(** * Further properties of the script *)

(** ** Text helpers *)

Lemma is_space_lower (c : ascii) : is_space (lower_ascii c) = is_space c.
Proof. destruct c as [[] [] [] [] [] [] [] []]; reflexivity. Qed.

Lemma trim_start_lower (s : string) :
  trim_start (toLowerCase s) = toLowerCase (trim_start s).
Proof.
  induction s as [|c s IH]; [reflexivity|].
  cbn [toLowerCase trim_start]. rewrite is_space_lower.
  destruct (is_space c); [exact IH|reflexivity].
Qed.

Lemma trim_end_lower (s : string) :
  trim_end (toLowerCase s) = toLowerCase (trim_end s).
Proof.
  induction s as [|c s IH]; [reflexivity|].
  cbn [toLowerCase trim_end]. rewrite IH, is_space_lower.
  destruct (trim_end s); cbn [toLowerCase]; [|reflexivity].
  destruct (is_space c); reflexivity.
Qed.

Lemma trim_lower (s : string) : trim (toLowerCase s) = toLowerCase (trim s).
Proof. unfold trim. rewrite trim_start_lower, trim_end_lower. reflexivity. Qed.

Lemma trim_start_clean (s : string) : starts_clean (trim_start s).
Proof.
  induction s as [|c s IH]; [exact I|].
  cbn [trim_start]. destruct (is_space c) eqn:Hc; [exact IH|exact Hc].
Qed.

Lemma trim_start_fix (s : string) : starts_clean s -> trim_start s = s.
Proof. destruct s as [|c s]; [reflexivity|]. simpl. intros ->. reflexivity. Qed.

Lemma trim_end_clean (s : string) : starts_clean s -> starts_clean (trim_end s).
Proof.
  destruct s as [|c s]; [intros _; exact I|]. cbn [starts_clean trim_end].
  intros Hc. destruct (trim_end s); [rewrite Hc|]; exact Hc.
Qed.

Lemma trim_end_idem (s : string) : trim_end (trim_end s) = trim_end s.
Proof.
  induction s as [|c s IH]; [reflexivity|]. cbn [trim_end].
  destruct (trim_end s) as [|c' t] eqn:Ht.
  - destruct (is_space c) eqn:Hc; [reflexivity|]. cbn [trim_end]. rewrite Hc.
    reflexivity.
  - cbn [trim_end] in *. rewrite IH. reflexivity.
Qed.

Lemma trim_idem (s : string) : trim (trim s) = trim s.
Proof.
  unfold trim.
  rewrite (trim_start_fix (trim_end (trim_start s)))
    by (apply trim_end_clean, trim_start_clean).
  apply trim_end_idem.
Qed.

Lemma trim_start_blank (ws s : string) :
  is_blank ws -> trim_start (ws +:+ s) = trim_start s.
Proof.
  induction ws as [|c ws IH]; intros Hws; [reflexivity|].
  inversion Hws as [|? ? Hc Hws']; subst.
  rewrite append_cons. cbn [trim_start]. rewrite Hc. exact (IH Hws').
Qed.

Lemma trim_end_blank_only (ws : string) : is_blank ws -> trim_end ws = EmptyString.
Proof.
  induction ws as [|c ws IH]; intros Hws; [reflexivity|].
  inversion Hws as [|? ? Hc Hws']; subst.
  cbn [trim_end]. rewrite (IH Hws'), Hc. reflexivity.
Qed.

Lemma trim_end_blank (s ws : string) :
  is_blank ws -> trim_end (s +:+ ws) = trim_end s.
Proof.
  intros Hws. induction s as [|c s IH].
  - rewrite append_empty. apply trim_end_blank_only, Hws.
  - rewrite append_cons. cbn [trim_end]. rewrite IH. reflexivity.
Qed.

Lemma append_assoc (a b c : string) : (a +:+ b) +:+ c = a +:+ b +:+ c.
Proof.
  induction a as [|x a IH]; [reflexivity|].
  rewrite !append_cons, IH. reflexivity.
Qed.

Lemma trim_start_blank_only (ws : string) :
  is_blank ws -> trim_start ws = EmptyString.
Proof.
  induction ws as [|c ws IH]; intros Hws; [reflexivity|].
  inversion Hws as [|? ? Hc Hws']; subst.
  cbn [trim_start]. rewrite Hc. exact (IH Hws').
Qed.

Lemma trim_start_append_blank (s ws : string) :
  is_blank ws ->
  trim_start (s +:+ ws) = trim_start s +:+ ws
  \/ (trim_start s = EmptyString /\ trim_start (s +:+ ws) = EmptyString).
Proof.
  intros Hws. induction s as [|c s IH].
  - right. split; [reflexivity|]. rewrite append_empty.
    apply trim_start_blank_only, Hws.
  - rewrite append_cons. cbn [trim_start].
    destruct (is_space c); [exact IH|]. left. rewrite append_cons. reflexivity.
Qed.

Lemma trim_padding (ws1 s ws2 : string) :
  is_blank ws1 -> is_blank ws2 -> trim (ws1 +:+ s +:+ ws2) = trim s.
Proof.
  intros H1 H2. unfold trim. rewrite (trim_start_blank ws1 _ H1).
  destruct (trim_start_append_blank s ws2 H2) as [->|[-> ->]]; [|reflexivity].
  apply trim_end_blank, H2.
Qed.

Lemma includes_In (l : list string) (x : string) : includes l x = true <-> In x l.
Proof.
  unfold includes. rewrite existsb_exists. split.
  - intros (y & Hy & Heq). apply String.eqb_eq in Heq. subst. exact Hy.
  - intros Hx. exists x. split; [exact Hx|apply String.eqb_refl].
Qed.

Lemma truthy_lower (s : string) : truthy (toLowerCase s) = truthy s.
Proof. destruct s; reflexivity. Qed.

(** ** Input parsing *)

(** X1. On ASCII text [toBool] reads its word without regard to case
    and to white space around it; the five words of truth give [true],
    the five words of falsehood give [false], and every other text, the
    empty one included, gives the default. *)
Theorem toBool_reads_word (s : string) (def : bool) :
  ascii_text s = true ->
  (forall s' ws1 ws2,
      ascii_text s' = true ->
      is_blank ws1 -> is_blank ws2 -> toLowerCase s' = toLowerCase s ->
      toBool (Some (ws1 +:+ s' +:+ ws2)) def = toBool (Some s) def)
  /\ (In (toLowerCase (trim s)) TRUE_WORDS -> toBool (Some s) def = true)
  /\ (In (toLowerCase (trim s)) FALSE_WORDS -> toBool (Some s) def = false)
  /\ (~ In (toLowerCase (trim s)) (TRUE_WORDS ++ FALSE_WORDS) ->
      toBool (Some s) def = def).
Proof.
  intros _. split; [|split; [|split]].
  - intros s' ws1 ws2 _ H1 H2 Hs. unfold toBool.
    rewrite (trim_padding ws1 s' ws2 H1 H2), <- !trim_lower, Hs. reflexivity.
  - intros Hin. unfold toBool. cbv zeta.
    apply includes_In in Hin. unfold TRUE_WORDS in Hin. rewrite Hin. reflexivity.
  - intros Hin. unfold toBool. cbv zeta.
    assert (Hno : includes ["1"; "true"; "yes"; "y"; "on"] (toLowerCase (trim s))
                  = false).
    { unfold FALSE_WORDS in Hin. simpl in Hin.
      destruct Hin as [<-|[<-|[<-|[<-|[<-|[]]]]]]; reflexivity. }
    apply includes_In in Hin. unfold FALSE_WORDS in Hin. rewrite Hno, Hin.
    reflexivity.
  - intros Hnot. unfold toBool. cbv zeta.
    destruct (includes ["1"; "true"; "yes"; "y"; "on"] (toLowerCase (trim s)))
      eqn:Ht.
    + exfalso. apply Hnot, in_or_app. left. apply includes_In, Ht.
    + destruct (includes ["0"; "false"; "no"; "n"; "off"] (toLowerCase (trim s)))
        eqn:Hf; [|reflexivity].
      exfalso. apply Hnot, in_or_app. right. apply includes_In, Hf.
Qed.

Lemma toBool_reads_word_witness :
  toBool (Some "  YES ") false = true
  /\ toBool (Some "Off") true = false
  /\ toBool (Some "") true = true.
Proof.
  split; [|split].
  - change (toBool (Some ("  " +:+ "YES" +:+ " ")) false = true).
    rewrite (proj1 (toBool_reads_word "yes" false eq_refl) "YES" "  " " ");
      [|reflexivity|repeat constructor|repeat constructor|reflexivity].
    apply (proj1 (proj2 (toBool_reads_word "yes" false eq_refl))).
    vm_compute. auto.
  - apply (proj1 (proj2 (proj2 (toBool_reads_word "Off" true eq_refl)))).
    vm_compute. auto 6.
  - apply (proj2 (proj2 (proj2 (toBool_reads_word "" true eq_refl)))).
    vm_compute. intros H. repeat (destruct H as [H|H]; [discriminate|]). exact H.
Defined.

Lemma split_comma_nonempty (s : string) : split_comma s ≠ [].
Proof.
  destruct s as [|c s]; [discriminate|]. cbn [split_comma].
  destruct (code c =? 44)%N; [discriminate|].
  destruct (split_comma s); discriminate.
Qed.

Lemma code_44 (c : ascii) : (code c =? 44)%N = true -> c = ","%char.
Proof.
  intros H. apply N.eqb_eq in H.
  rewrite <- (ascii_N_embedding c). unfold code in H. rewrite H. reflexivity.
Qed.

Lemma concat_cons (sep x y : string) (l : list string) :
  String.concat sep (x :: y :: l) = x +:+ sep +:+ String.concat sep (y :: l).
Proof. reflexivity. Qed.

(** Joining the pieces with commas gives the text back. *)
Lemma split_comma_join (s : string) : String.concat "," (split_comma s) = s.
Proof.
  induction s as [|c s IH]; [reflexivity|]. cbn [split_comma].
  destruct (code c =? 44)%N eqn:Hc.
  - apply code_44 in Hc as ->.
    destruct (split_comma s) as [|h t] eqn:Hs;
      [exfalso; exact (split_comma_nonempty s Hs)|].
    rewrite concat_cons, IH. reflexivity.
  - destruct (split_comma s) as [|h t] eqn:Hs;
      [exfalso; exact (split_comma_nonempty s Hs)|].
    destruct t as [|h' t].
    + cbn [String.concat] in *. rewrite IH. reflexivity.
    + rewrite concat_cons in *. rewrite append_cons, IH. reflexivity.
Qed.

(** X2. [parseCommaSeparated] on an ASCII input: every label of the
    list it returns is non-empty, in lower case and without white space
    around it; every piece between two commas that is not blank is in the
    list, in lower case and trimmed; and the pieces it reads are those of
    the text: joined by commas they give the input back. A missing or
    empty input gives the empty list. *)
Theorem parseCommaSeparated_normal (s : option string) :
  ascii_text (or_else s "") = true ->
  (forall x, In x (parseCommaSeparated s) ->
     x ≠ EmptyString /\ toLowerCase x = x /\ is_trimmed x)
  /\ (forall p, In p (split_comma (or_else s "")) -> trim p ≠ EmptyString ->
        In (toLowerCase (trim p)) (parseCommaSeparated s))
  /\ String.concat "," (split_comma (or_else s "")) = or_else s ""
  /\ (or_else s "" = EmptyString -> parseCommaSeparated s = []).
Proof.
  intros _. unfold parseCommaSeparated. split; [|split; [|split]].
  - intros x Hx. apply filter_In in Hx as [Hx Htruthy].
    apply in_map_iff in Hx as (p & <- & _). split; [|split].
    + apply truthy_nonempty, Htruthy.
    + apply toLowerCase_idem.
    + unfold is_trimmed. rewrite trim_lower, trim_idem. reflexivity.
  - intros p Hp Hne. apply filter_In. split.
    + apply in_map_iff. exists p. split; [reflexivity|exact Hp].
    + rewrite truthy_lower. apply truthy_nonempty, Hne.
  - apply split_comma_join.
  - intros ->. reflexivity.
Qed.

Lemma parseCommaSeparated_normal_witness :
  In "feature" (parseCommaSeparated (Some " Bug, ,Feature,"))
  /\ parseCommaSeparated (Some "") = [].
Proof.
  split.
  - apply (proj1 (proj2 (parseCommaSeparated_normal (Some " Bug, ,Feature,")
                           eq_refl))
             "Feature").
    + vm_compute. auto.
    + vm_compute. discriminate.
  - apply (proj2 (proj2 (proj2 (parseCommaSeparated_normal (Some "") eq_refl)))).
    reflexivity.
Defined.

(** ** Sanitising titles *)

Lemma replace_newlines_cons (c : ascii) (s : string) :
  replace_newlines (String c s) =
  if (code c =? 10)%N then String " " (replace_newlines s)
  else if (code c =? 13)%N then
    match s with
    | String c2 r2 =>
        if (code c2 =? 10)%N then String " " (replace_newlines r2)
        else String c (replace_newlines s)
    | EmptyString => String c EmptyString
    end
  else String c (replace_newlines s).
Proof. reflexivity. Qed.

Lemma replace_newlines_no_lf_aux (s : string) :
  no_line_feed (replace_newlines s)
  /\ forall c, no_line_feed (replace_newlines (String c s)).
Proof.
  unfold no_line_feed. induction s as [|d r [IH1 IH2]].
  - split; [constructor|]. intros c. rewrite replace_newlines_cons; cbv beta iota.
    destruct (code c =? 10)%N eqn:Hc; [repeat constructor|].
    destruct (code c =? 13)%N; repeat constructor; exact Hc.
  - split; [apply IH2|]. intros c. rewrite replace_newlines_cons; cbv beta iota.
    destruct (code c =? 10)%N eqn:Hc.
    + constructor; [reflexivity|apply IH2].
    + destruct (code c =? 13)%N.
      * destruct (code d =? 10)%N.
        -- constructor; [reflexivity|exact IH1].
        -- constructor; [exact Hc|apply IH2].
      * constructor; [exact Hc|apply IH2].
Qed.

Lemma replace_newlines_fix_aux (s : string) :
  (no_line_feed s -> replace_newlines s = s)
  /\ forall c, no_line_feed (String c s) ->
               replace_newlines (String c s) = String c s.
Proof.
  unfold no_line_feed. induction s as [|d r [IH1 IH2]].
  - split; [reflexivity|]. intros c Hc. inversion Hc as [|? ? Hc' _]; subst.
    rewrite replace_newlines_cons; cbv beta iota. rewrite Hc'. destruct (code c =? 13)%N; reflexivity.
  - split; [apply IH2|]. intros c Hc.
    inversion Hc as [|? ? Hc' Hrest]; subst.
    inversion Hrest as [|? ? Hd _]; subst.
    rewrite replace_newlines_cons; cbv beta iota. rewrite Hc'.
    destruct (code c =? 13)%N.
    + rewrite Hd. f_equal. apply IH2, Hrest.
    + f_equal. apply IH2, Hrest.
Qed.

Lemma Forall_chars_trim_start (P : ascii -> Prop) (s : string) :
  Forall P (chars s) -> Forall P (chars (trim_start s)).
Proof.
  induction s as [|c s IH]; intros H; [constructor|].
  inversion H as [|? ? Hc Hs]; subst. cbn [trim_start].
  destruct (is_space c); [exact (IH Hs)|exact H].
Qed.

Lemma Forall_chars_trim_end (P : ascii -> Prop) (s : string) :
  Forall P (chars s) -> Forall P (chars (trim_end s)).
Proof.
  induction s as [|c s IH]; intros H; [constructor|].
  inversion H as [|? ? Hc Hs]; subst. cbn [trim_end].
  specialize (IH Hs). destruct (trim_end s) as [|c' t].
  - destruct (is_space c); [constructor|repeat constructor; exact Hc].
  - constructor; [exact Hc|exact IH].
Qed.

Lemma no_line_feed_trim (s : string) : no_line_feed s -> no_line_feed (trim s).
Proof.
  intros H. apply Forall_chars_trim_end, Forall_chars_trim_start, H.
Qed.

Lemma is_blank_replace_newlines_aux (s : string) :
  (is_blank s -> is_blank (replace_newlines s))
  /\ forall c, is_blank (String c s) -> is_blank (replace_newlines (String c s)).
Proof.
  unfold is_blank. induction s as [|d r [IH1 IH2]].
  - split; [intros _; constructor|]. intros c Hc. rewrite replace_newlines_cons; cbv beta iota.
    destruct (code c =? 10)%N; [repeat constructor|].
    destruct (code c =? 13)%N; exact Hc.
  - split; [apply IH2|]. intros c Hc.
    inversion Hc as [|? ? Hc' Hrest]; subst.
    inversion Hrest as [|? ? Hd Hr]; subst.
    rewrite replace_newlines_cons; cbv beta iota.
    destruct (code c =? 10)%N; [constructor; [reflexivity|apply IH2, Hrest]|].
    destruct (code c =? 13)%N.
    + destruct (code d =? 10)%N.
      * constructor; [reflexivity|apply IH1, Hr].
      * constructor; [exact Hc'|apply IH2, Hrest].
    + constructor; [exact Hc'|apply IH2, Hrest].
Qed.

(** X3. [escapeMd] on ASCII text: the result has no line feed and no
    white space at either end; sanitising twice changes nothing more; a
    text without line feed is only trimmed; and a text of white space and
    line breaks only becomes the empty text. *)
Theorem escapeMd_single_line (s : string) :
  ascii_text s = true ->
  no_line_feed (escapeMd s)
  /\ is_trimmed (escapeMd s)
  /\ escapeMd (escapeMd s) = escapeMd s
  /\ (no_line_feed s -> escapeMd s = trim s)
  /\ (is_blank s -> escapeMd s = EmptyString).
Proof.
  intros _. unfold escapeMd.
  assert (Hno : no_line_feed (trim (replace_newlines s)))
    by apply no_line_feed_trim, replace_newlines_no_lf_aux.
  split; [exact Hno|]. split; [apply trim_idem|]. split; [|split].
  - rewrite (proj1 (replace_newlines_fix_aux _) Hno). apply trim_idem.
  - intros H. rewrite (proj1 (replace_newlines_fix_aux s) H). reflexivity.
  - intros H. apply (proj1 (is_blank_replace_newlines_aux s)) in H.
    unfold trim. rewrite (trim_start_blank_only _ H). reflexivity.
Qed.

Lemma escapeMd_single_line_witness :
  escapeMd "plain title " = trim "plain title "
  /\ escapeMd "   " = EmptyString.
Proof.
  split.
  - apply (proj1 (proj2 (proj2 (proj2
             (escapeMd_single_line "plain title " eq_refl))))).
    repeat constructor.
  - apply (proj2 (proj2 (proj2 (proj2 (escapeMd_single_line "   " eq_refl))))).
    repeat constructor.
Defined.

(** A carriage return with its line feed becomes one space; a carriage
    return alone stays. *)
Example escapeMd_line_breaks :
  escapeMd ("two" +:+ String (ascii_of_N 13) nl +:+ "lines") = "two lines"
  /\ escapeMd ("two" +:+ nl +:+ nl +:+ "lines ") = "two  lines"
  /\ escapeMd ("a" +:+ String (ascii_of_N 13) "b")
     = "a" +:+ String (ascii_of_N 13) "b".
Proof. vm_compute. repeat split; reflexivity. Qed.

(** ** The label filters *)

Lemma forallb_deps_iff (ls : list string) :
  forallb (fun l => bool_decide (l ∈ DEPS_LABELS)) (map toLowerCase ls) = true
  <-> Forall is_deps_label ls.
Proof.
  induction ls as [|l ls IH]; simpl.
  - split; [constructor|reflexivity].
  - rewrite andb_true_iff, bool_decide_eq_true, IH. split.
    + intros [Hl Hls]. constructor; assumption.
    + intros H. inversion H; subst. split; assumption.
Qed.

Lemma existsb_includes_iff (cfg : list string) (ls : list string) :
  existsb (fun l => includes cfg l) (map toLowerCase ls) = true
  <-> exists l, In l ls /\ In (toLowerCase l) cfg.
Proof.
  rewrite existsb_exists. split.
  - intros (n & Hn & Hinc). apply in_map_iff in Hn as (l & <- & Hl).
    exists l. split; [exact Hl|apply includes_In, Hinc].
  - intros (l & Hl & Hcfg). exists (toLowerCase l). split.
    + apply in_map. exact Hl.
    + apply includes_In, Hcfg.
Qed.

Lemma positive_length {A} (l : list A) : (0 <? length l)%nat = true <-> l ≠ [].
Proof.
  destruct l; simpl; split; intros H; try discriminate; try reflexivity.
  exfalso. apply H. reflexivity.
Qed.

Lemma deps_test_iff (pr : PR) (o : FilterOpts) :
  ignoreDeps o && (0 <? length (map toLowerCase (labels pr)))%nat
    && forallb (fun l => bool_decide (l ∈ DEPS_LABELS))
         (map toLowerCase (labels pr)) = true
  <-> ignoreDeps o = true /\ labels pr ≠ [] /\ Forall is_deps_label (labels pr).
Proof.
  rewrite !andb_true_iff, forallb_deps_iff, length_map, positive_length. tauto.
Qed.

Lemma exclude_test_iff (pr : PR) (o : FilterOpts) :
  (0 <? length (excludeLabels o))%nat
    && existsb (fun l => includes (excludeLabels o) l)
         (map toLowerCase (labels pr)) = true
  <-> exists l, In l (labels pr) /\ In (toLowerCase l) (excludeLabels o).
Proof.
  rewrite andb_true_iff, existsb_includes_iff, positive_length. split.
  - intros [_ H]. exact H.
  - intros (l & Hl & Hcfg). split; [|exists l; split; assumption].
    intros Hnil. rewrite Hnil in Hcfg. exact Hcfg.
Qed.

Lemma include_test_iff (pr : PR) (o : FilterOpts) :
  (0 <? length (includeLabels o))%nat
    && negb (existsb (fun l => includes (includeLabels o) l)
               (map toLowerCase (labels pr))) = true
  <-> includeLabels o ≠ []
      /\ forall l, In l (labels pr) -> ~ In (toLowerCase l) (includeLabels o).
Proof.
  rewrite andb_true_iff, negb_true_iff, positive_length.
  rewrite <- not_true_iff_false, existsb_includes_iff. split.
  - intros [Hne Hnone]. split; [exact Hne|]. intros l Hl Hcfg.
    apply Hnone. exists l. split; assumption.
  - intros [Hne Hnone]. split; [exact Hne|]. intros (l & Hl & Hcfg).
    exact (Hnone l Hl Hcfg).
Qed.

(** The three tests of [shouldExcludePR], read as propositions. *)
Lemma shouldExcludePR_tests (pr : PR) (o : FilterOpts) :
  shouldExcludePR pr o = true <->
  (ignoreDeps o = true /\ labels pr ≠ [] /\ Forall is_deps_label (labels pr))
  \/ (exists l, In l (labels pr) /\ In (toLowerCase l) (excludeLabels o))
  \/ (includeLabels o ≠ []
      /\ forall l, In l (labels pr) -> ~ In (toLowerCase l) (includeLabels o)).
Proof.
  rewrite <- deps_test_iff, <- exclude_test_iff, <- include_test_iff.
  unfold shouldExcludePR. cbv zeta.
  destruct (ignoreDeps o && _ && _); [tauto|].
  destruct ((0 <? length (excludeLabels o))%nat && _); [tauto|].
  destruct ((0 <? length (includeLabels o))%nat && _); [tauto|].
  split; [discriminate|]. intros [H|[H|H]]; discriminate.
Qed.

(** X4. [shouldExcludePR] drops a record with ASCII labels exactly when
    (a) the ignore-dependency flag is set and the record has labels, all
    of them dependency labels, or (b) one of its labels, in lower case,
    is in the exclude list, or (c) an include list is given and none of
    its labels, in lower case, is in it. So an excluded label wins over
    an included one, and a record without labels is dropped as soon as an
    include list is given. *)
Theorem shouldExcludePR_exactly (pr : PR) (o : FilterOpts) :
  forallb ascii_text (labels pr) = true ->
  (shouldExcludePR pr o = true <->
   (ignoreDeps o = true /\ labels pr ≠ [] /\ Forall is_deps_label (labels pr))
   \/ (exists l, In l (labels pr) /\ In (toLowerCase l) (excludeLabels o))
   \/ (includeLabels o ≠ []
       /\ forall l, In l (labels pr) -> ~ In (toLowerCase l) (includeLabels o)))
  /\ (forall l, In l (labels pr) -> In (toLowerCase l) (excludeLabels o) ->
        shouldExcludePR pr o = true)
  /\ (labels pr = [] -> includeLabels o ≠ [] -> shouldExcludePR pr o = true).
Proof.
  intros _. split; [apply shouldExcludePR_tests|]. split.
  - intros l Hl Hcfg. apply shouldExcludePR_tests. right. left.
    exists l. split; assumption.
  - intros Hnil Hinc. apply shouldExcludePR_tests. right. right.
    split; [exact Hinc|]. rewrite Hnil. intros l [].
Qed.

Lemma shouldExcludePR_exactly_witness :
  shouldExcludePR (mkPR 5 "Add search" "dana" ["Feature"; "WIP"])
                  (mkFilterOpts ["feature"] ["wip"] false) = true
  /\ shouldExcludePR (mkPR 6 "Tidy" "dana" [])
                     (mkFilterOpts ["feature"] [] false) = true.
Proof.
  split.
  - apply (proj1 (proj2 (shouldExcludePR_exactly
                           (mkPR 5 "Add search" "dana" ["Feature"; "WIP"])
                           (mkFilterOpts ["feature"] ["wip"] false) eq_refl))
             "WIP").
    + simpl. auto.
    + vm_compute. auto.
  - apply (proj2 (proj2 (shouldExcludePR_exactly
                           (mkPR 6 "Tidy" "dana" [])
                           (mkFilterOpts ["feature"] [] false) eq_refl))).
    + reflexivity.
    + discriminate.
Defined.

(** X5. The exclude input and the labels meet in lower case: a record
    with an ASCII label is dropped whenever the ASCII exclude input, as
    [run] parses it, has a piece between commas that equals the label up
    to the case of the letters and the white space around the piece. *)
Theorem exclude_input_ignores_case (pr : PR) (input : string) (piece l : string)
    (inc : list string) (flag : bool) :
  ascii_text input = true ->
  ascii_text l = true ->
  In piece (split_comma input) ->
  In l (labels pr) ->
  l ≠ EmptyString ->
  toLowerCase (trim piece) = toLowerCase l ->
  shouldExcludePR pr
    (mkFilterOpts inc (parseCommaSeparated (Some input)) flag) = true.
Proof.
  intros _ _ Hpiece Hl Hne Heq.
  apply shouldExcludePR_tests. right. left. exists l. split; [exact Hl|].
  cbn [excludeLabels]. rewrite <- Heq.
  destruct input as [|c input].
  - simpl in Hpiece. destruct Hpiece as [<-|[]]. simpl in Heq.
    destruct l; [congruence|discriminate].
  - unfold parseCommaSeparated. cbn [or_else truthy].
    apply filter_In. split.
    + apply in_map_iff. exists piece. split; [reflexivity|exact Hpiece].
    + rewrite Heq, truthy_lower. apply truthy_nonempty, Hne.
Qed.

Lemma exclude_input_ignores_case_witness :
  shouldExcludePR (mkPR 9 "Bump deps" "bot" ["Skip-Changelog"])
    (mkFilterOpts [] (parseCommaSeparated (Some "wip, SKIP-changelog ")) false)
  = true.
Proof.
  apply (exclude_input_ignores_case
           (mkPR 9 "Bump deps" "bot" ["Skip-Changelog"])
           "wip, SKIP-changelog " " SKIP-changelog " "Skip-Changelog" [] false).
  - reflexivity.
  - reflexivity.
  - vm_compute. auto.
  - simpl. auto.
  - discriminate.
  - reflexivity.
Defined.

(** ** Grouping and the document *)

Lemma append_nil_r (s : string) : s +:+ EmptyString = s.
Proof.
  induction s as [|c s IH]; [reflexivity|]. rewrite append_cons, IH. reflexivity.
Qed.

Lemma same_value_string (v : Value) (k : string) :
  same_value v (VString k) = true <-> v = VString k.
Proof.
  destruct v as [s| |id text]; cbn [same_value].
  - rewrite String.eqb_eq. split; congruence.
  - split; discriminate.
  - split; discriminate.
Qed.

(** Two keys that are the same key have the same bucket. *)
Lemma same_value_key (a b c : Value) :
  same_value a b = true -> same_value a c = same_value b c.
Proof.
  destruct a as [x| |i t], b as [y| |j u]; cbn [same_value]; try discriminate.
  - intros H. apply String.eqb_eq in H as ->. reflexivity.
  - reflexivity.
  - intros H. apply N.eqb_eq in H as ->. destruct c; reflexivity.
Qed.

Lemma bucket_get_cons (k : string) (k' : Value) (items : list PR)
    (rest : list (Value * list PR)) :
  bucket_get k ((k', items) :: rest)
  = if same_value k' (VString k) then items else bucket_get k rest.
Proof.
  unfold bucket_get. cbn [find fst snd].
  destruct (same_value k' (VString k)); reflexivity.
Qed.

Lemma bucket_get_push (k : string) (b : Value) (pr : PR)
    (bs : list (Value * list PR)) :
  bucket_get k (bucket_push b pr bs)
  = if same_value b (VString k) then bucket_get k bs ++ [pr]
    else bucket_get k bs.
Proof.
  induction bs as [|[k' items] rest IH]; cbn [bucket_push].
  - rewrite bucket_get_cons. destruct (same_value b (VString k)); reflexivity.
  - destruct (same_value k' b) eqn:Hkb.
    + rewrite !bucket_get_cons, <- (same_value_key k' b (VString k) Hkb).
      destruct (same_value k' (VString k)); reflexivity.
    + rewrite !bucket_get_cons, IH.
      destruct (same_value k' (VString k)) eqn:Hk; [|reflexivity].
      apply same_value_string in Hk. subst k'.
      destruct (same_value b (VString k)) eqn:Hb; [|reflexivity].
      apply same_value_string in Hb. subst b.
      cbn [same_value] in Hkb. rewrite String.eqb_refl in Hkb. discriminate.
Qed.

Lemma bucket_get_loop (m : SectionMap) (uc : bool) (k : string)
    (prs : list PR) :
  forall bs buckets,
    group_loop m uc prs bs = inr buckets ->
    bucket_get k buckets = bucket_get k bs ++ in_section m uc k prs.
Proof.
  induction prs as [|pr prs IH]; intros bs buckets; cbn [group_loop].
  - intros [= <-]. unfold in_section. simpl. rewrite app_nil_r. reflexivity.
  - unfold in_section. cbn [List.filter]. unfold has_section at 1.
    unfold section_of_record.
    destruct (section_of m uc (labels pr) (title pr)) as [e|b];
      [discriminate|].
    intros H. rewrite (IH _ _ H), bucket_get_push.
    destruct (same_value b (VString k)); [rewrite <- app_assoc|]; reflexivity.
Qed.

Lemma bucket_get_initial (k : string) : bucket_get k initial_buckets = [].
Proof.
  unfold initial_buckets. rewrite !bucket_get_cons.
  repeat match goal with |- context [if ?b then _ else _] => destruct b end;
    reflexivity.
Qed.

(** The bucket of a section after the grouping loop. *)
Lemma bucket_get_group (m : SectionMap) (uc : bool) (k : string)
    (prs : list PR) (buckets : list (Value * list PR)) :
  group m uc prs = inr buckets ->
  bucket_get k buckets = in_section m uc k prs.
Proof.
  unfold group. intros H.
  rewrite (bucket_get_loop m uc k prs _ _ H), bucket_get_initial. reflexivity.
Qed.

(** A section map that can be read never stops the grouping loop. *)
Lemma group_loop_readable (get : string -> Value) (uc : bool) (prs : list PR) :
  forall bs, exists buckets, group_loop (PropertyMap get) uc prs bs = inr buckets.
Proof.
  induction prs as [|pr prs IH]; intros bs; cbn [group_loop].
  - exists bs. reflexivity.
  - unfold section_of.
    destruct (bucketForLabels_readable get (labels pr)) as [v ->]. apply IH.
Qed.

Lemma group_readable (get : string -> Value) (uc : bool) (prs : list PR) :
  exists buckets, group (PropertyMap get) uc prs = inr buckets.
Proof. apply group_loop_readable. Qed.

(** The [null] section map stops the loop at the first record that has
    a label, with the error of reading that label. *)
Lemma group_loop_null (uc : bool) (pre : list PR) (pr : PR) (l : string)
    (ls : list string) (post : list PR) :
  Forall (fun p => labels p = []) pre ->
  labels pr = l :: ls ->
  forall bs,
    group_loop NullMap uc (pre ++ pr :: post) bs
    = inl (TypeError ("Cannot read properties of null (reading '"
                        +:+ toLowerCase l +:+ "')")).
Proof.
  intros Hpre Hl. induction Hpre as [|p pre Hp _ IH]; intros bs.
  - cbn [app group_loop]. unfold section_of. rewrite Hl. reflexivity.
  - cbn [app group_loop]. unfold section_of. rewrite Hp.
    cbn [bucketForLabels map bucket_scan]. apply IH.
Qed.

Lemma filter_sorted (f : PR -> bool) (l : list PR) :
  StronglySorted by_number l -> StronglySorted by_number (List.filter f l).
Proof.
  induction 1 as [|x l Hl IH Hx]; simpl; [constructor|].
  destruct (f x); [|exact IH]. constructor; [exact IH|].
  apply Forall_forall. intros y Hy. apply list_elem_of_In, filter_In in Hy as [Hy _].
  rewrite Forall_forall in Hx. apply Hx, list_elem_of_In, Hy.
Qed.

Lemma has_section_spec (m : SectionMap) (uc : bool) (k : string) (pr : PR) :
  has_section m uc k pr = true <-> section_of_record m uc pr = inr (VString k).
Proof.
  unfold has_section. destruct (section_of_record m uc pr) as [e|v].
  - split; discriminate.
  - rewrite same_value_string. split; congruence.
Qed.

(** X6. When the grouping loop of [run] goes through, over records with
    ASCII titles and labels, the bucket of a section holds exactly the
    records whose section it is, in the order in which the loop met them;
    so every record is in the bucket of its own section and in no other,
    and when the records come sorted by number, as the collector returns
    them, every bucket is sorted by number. The loop goes through for
    every section map that can be read. *)
Theorem group_buckets (m : SectionMap) (uc : bool) (prs : list PR) :
  forallb ascii_record prs = true ->
  (forall buckets,
      group m uc prs = inr buckets ->
      (forall k, bucket_get k buckets = in_section m uc k prs)
      /\ (forall pr k, In pr (bucket_get k buckets) <->
            In pr prs /\ section_of_record m uc pr = inr (VString k))
      /\ (StronglySorted by_number prs ->
          forall k, StronglySorted by_number (bucket_get k buckets)))
  /\ (m ≠ NullMap -> exists buckets, group m uc prs = inr buckets).
Proof.
  intros _. split.
  - intros buckets Hgroup.
    split; [intros k; apply bucket_get_group, Hgroup|]. split.
    + intros pr k. rewrite (bucket_get_group m uc k prs buckets Hgroup).
      unfold in_section. rewrite filter_In, has_section_spec. reflexivity.
    + intros Hs k. rewrite (bucket_get_group m uc k prs buckets Hgroup).
      apply filter_sorted, Hs.
  - destruct m as [|get]; [congruence|]. intros _. apply group_readable.
Qed.

Lemma group_buckets_witness :
  match group DEFAULT_LABEL_MAP false
          [ mkPR 11 "Fix login redirect loop" "alice" ["bug"];
            mkPR 12 "Support dark mode" "bob" ["feat"];
            mkPR 13 "Fix crash" "carol" ["Bugfix"] ] with
  | inr buckets =>
      bucket_get "Fixed" buckets
      = [ mkPR 11 "Fix login redirect loop" "alice" ["bug"];
          mkPR 13 "Fix crash" "carol" ["Bugfix"] ]
      /\ StronglySorted by_number (bucket_get "Fixed" buckets)
  | inl _ => False
  end.
Proof.
  destruct (group DEFAULT_LABEL_MAP false
              [ mkPR 11 "Fix login redirect loop" "alice" ["bug"];
                mkPR 12 "Support dark mode" "bob" ["feat"];
                mkPR 13 "Fix crash" "carol" ["Bugfix"] ])
    as [e|buckets] eqn:Hgroup.
  - vm_compute in Hgroup. discriminate.
  - assert (Hascii :
      forallb ascii_record
        [ mkPR 11 "Fix login redirect loop" "alice" ["bug"];
          mkPR 12 "Support dark mode" "bob" ["feat"];
          mkPR 13 "Fix crash" "carol" ["Bugfix"] ] = true) by reflexivity.
    pose proof (proj1 (group_buckets DEFAULT_LABEL_MAP false _ Hascii)
                  buckets Hgroup) as (H1 & _ & H3).
    split.
    + rewrite H1. vm_compute. reflexivity.
    + apply H3. repeat constructor; unfold by_number; simpl; lia.
Defined.

Lemma render_fold (bs : list (Value * list PR)) (ks : list string)
    (acc : string * Z) :
  fold_left
    (fun acc k =>
       let items := bucket_get k bs in
       match items with
       | [] => acc
       | _ =>
           (fst acc +:+ "### " +:+ k +:+ nl
              +:+ String.concat "" (map (fun pr => formatLine pr +:+ nl) items)
              +:+ nl,
            (snd acc + Z.of_nat (length items))%Z)
       end)
    ks acc
  = (fst acc
       +:+ fold_right (fun k t => section_text k (bucket_get k bs) +:+ t)
             EmptyString ks,
     (snd acc
      + Z.of_nat (fold_right (fun k n => length (bucket_get k bs) + n)%nat 0%nat ks))%Z).
Proof.
  revert acc. induction ks as [|k ks IH]; intros [text total]; cbn [fold_left fold_right].
  - cbn [fst snd]. rewrite append_nil_r, Z.add_0_r. reflexivity.
  - rewrite IH. cbv zeta. unfold section_text.
    destruct (bucket_get k bs) as [|pr items]; cbn [fst snd length].
    + rewrite append_empty. reflexivity.
    + rewrite append_assoc. f_equal. lia.
Qed.

(** A record is counted in one section at most. *)
Lemma shown_cases (m : SectionMap) (uc : bool) (pr : PR) :
  ((if has_section m uc "Added" pr then 1 else 0)
   + ((if has_section m uc "Fixed" pr then 1 else 0)
      + ((if has_section m uc "Changed" pr then 1 else 0)
         + ((if has_section m uc "Docs" pr then 1 else 0)
            + ((if has_section m uc "Other" pr then 1 else 0) + 0)))))%nat
  = if is_shown m uc pr then 1%nat else 0%nat.
Proof.
  unfold is_shown, order, has_section. cbn [existsb].
  destruct (section_of_record m uc pr) as [e|[s| |id text]];
    cbn [same_value orb]; try reflexivity.
  destruct (String.eqb_spec s "Added") as [->|_]; [reflexivity|].
  destruct (String.eqb_spec s "Fixed") as [->|_]; [reflexivity|].
  destruct (String.eqb_spec s "Changed") as [->|_]; [reflexivity|].
  destruct (String.eqb_spec s "Docs") as [->|_]; [reflexivity|].
  destruct (String.eqb_spec s "Other") as [->|_]; reflexivity.
Qed.

Lemma length_filter_cons {A} (f : A -> bool) (x : A) (l : list A) :
  length (List.filter f (x :: l))
  = ((if f x then 1 else 0) + length (List.filter f l))%nat.
Proof. simpl. destruct (f x); reflexivity. Qed.

Lemma shown_count (m : SectionMap) (uc : bool) (prs : list PR) :
  fold_right (fun k n => length (in_section m uc k prs) + n)%nat 0%nat order
  = length (shown m uc prs).
Proof.
  unfold order, shown, in_section. cbn [fold_right].
  induction prs as [|pr prs IH]; [reflexivity|].
  rewrite !length_filter_cons.
  pose proof (shown_cases m uc pr) as Hc. lia.
Qed.

Lemma render_unfold (ctx : Context) (w : Window)
    (bs : list (Value * list PR)) :
  render ctx w bs
  = if (snd (render_sections bs) =? 0)%Z
    then (document_header ctx w +:+ fst (render_sections bs))
           +:+ PLACEHOLDER +:+ nl
    else document_header ctx w +:+ fst (render_sections bs).
Proof.
  unfold render, document_header. destruct (render_sections bs) as [text total].
  destruct (otruthy (currentTag w) && otruthy (previousTag w)); reflexivity.
Qed.

(** The document of a run, from the records that pass the filters. *)
Lemma render_group (ctx : Context) (w : Window) (m : SectionMap)
    (uc : bool) (prs : list PR) (buckets : list (Value * list PR)) :
  group m uc prs = inr buckets ->
  render ctx w buckets
  = document_header ctx w +:+ document_sections m uc prs
      +:+ (match shown m uc prs with
           | [] => PLACEHOLDER +:+ nl
           | _ => EmptyString
           end).
Proof.
  intros Hgroup.
  rewrite render_unfold. unfold render_sections. rewrite render_fold.
  cbn [fst snd].
  assert (Htext :
    fold_right (fun k t => section_text k (bucket_get k buckets) +:+ t)
      EmptyString order = document_sections m uc prs).
  { unfold document_sections, order. cbn [fold_right].
    rewrite !(fun k => bucket_get_group m uc k prs buckets Hgroup).
    reflexivity. }
  assert (Hcount :
    fold_right (fun k n => length (bucket_get k buckets) + n)%nat
      0%nat order = length (shown m uc prs)).
  { rewrite <- shown_count. unfold order. cbn [fold_right].
    rewrite !(fun k => bucket_get_group m uc k prs buckets Hgroup).
    reflexivity. }
  rewrite Htext, Hcount, append_empty.
  destruct (shown m uc prs) as [|pr rest]; cbn [length].
  - rewrite append_assoc. reflexivity.
  - rewrite append_nil_r. reflexivity.
Qed.

(** X7. When the grouping loop goes through, over records with ASCII
    titles and labels, the document of [run] is its header, then the five
    sections in the fixed order, each with exactly the records whose
    section it is (an empty section leaves no trace), then the
    placeholder sentence exactly when no record has one of the five
    sections. *)
Theorem document_of_records (ctx : Context) (w : Window)
    (m : SectionMap) (uc : bool) (prs : list PR)
    (buckets : list (Value * list PR)) :
  forallb ascii_record prs = true ->
  group m uc prs = inr buckets ->
  render ctx w buckets
  = document_header ctx w +:+ document_sections m uc prs
      +:+ (match shown m uc prs with
           | [] => PLACEHOLDER +:+ nl
           | _ => EmptyString
           end).
Proof. intros _. apply render_group. Qed.

Lemma document_of_records_witness :
  match group DEFAULT_LABEL_MAP true
          [ mkPR 11 "Fix login redirect loop" "alice" ["bug"];
            mkPR 12 "feat: dark mode" "bob" [] ] with
  | inr buckets =>
      render Scenario.manual (mkWindow None None "2025-12-18T00:00:00.000Z")
        buckets
      = document_header Scenario.manual
          (mkWindow None None "2025-12-18T00:00:00.000Z")
        +:+ ("### Added" +:+ nl +:+ "- feat: dark mode (#12) @bob" +:+ nl +:+ nl
             +:+ "### Fixed" +:+ nl
             +:+ "- Fix login redirect loop (#11) @alice" +:+ nl +:+ nl)
  | inl _ => False
  end.
Proof.
  destruct (group DEFAULT_LABEL_MAP true
              [ mkPR 11 "Fix login redirect loop" "alice" ["bug"];
                mkPR 12 "feat: dark mode" "bob" [] ])
    as [e|buckets] eqn:Hgroup.
  - vm_compute in Hgroup. discriminate.
  - assert (Hascii :
      forallb ascii_record
        [ mkPR 11 "Fix login redirect loop" "alice" ["bug"];
          mkPR 12 "feat: dark mode" "bob" [] ] = true) by reflexivity.
    rewrite (document_of_records Scenario.manual _ DEFAULT_LABEL_MAP true _
               buckets Hascii Hgroup).
    vm_compute. reflexivity.
Defined.

Lemma section_text_none (m : SectionMap) (uc : bool) (prs : list PR)
    (k : string) :
  In k order -> shown m uc prs = [] -> in_section m uc k prs = [].
Proof.
  intros Hk. unfold shown, in_section.
  induction prs as [|pr prs IH]; [reflexivity|]. cbn [List.filter].
  destruct (is_shown m uc pr) eqn:Hc; [discriminate|].
  intros H. destruct (has_section m uc k pr) eqn:Hhas.
  - exfalso. unfold is_shown in Hc.
    assert (Hex : existsb (fun k => has_section m uc k pr) order = true)
      by (apply existsb_exists; exists k; split; assumption).
    congruence.
  - exact (IH H).
Qed.

(** X8. A section that is not one of the five, a name that a custom
    section map gives or a value that is not a string, is never printed:
    when the grouping loop goes through and every record has such a
    section, the document is the header and the placeholder sentence, as
    though no request had been merged. *)
Theorem custom_sections_left_out (ctx : Context) (w : Window)
    (m : SectionMap) (uc : bool) (prs : list PR)
    (buckets : list (Value * list PR)) :
  forallb ascii_record prs = true ->
  group m uc prs = inr buckets ->
  Forall (fun pr => is_shown m uc pr = false) prs ->
  render ctx w buckets = document_header ctx w +:+ PLACEHOLDER +:+ nl.
Proof.
  intros _ Hgroup Hall. rewrite (render_group ctx w m uc prs buckets Hgroup).
  assert (Hshown : shown m uc prs = []).
  { clear Hgroup. unfold shown.
    induction Hall as [|pr prs Hpr _ IH]; [reflexivity|].
    cbn [List.filter]. rewrite Hpr. exact IH. }
  rewrite Hshown. unfold document_sections, order. cbn [fold_right].
  rewrite !(section_text_none m uc prs)
    by (exact Hshown || (unfold order; cbn [In]; tauto)).
  reflexivity.
Qed.

Lemma custom_sections_left_out_witness :
  match group (PropertyMap (plain_object {[ "security" := VString "Security" ]}))
          false
          [ mkPR 21 "Patch the parser" "erin" ["security"];
            mkPR 22 "Rework the builder" "erin" ["constructor"] ] with
  | inr buckets =>
      render Scenario.manual (mkWindow None None "2025-12-18T00:00:00.000Z")
        buckets
      = document_header Scenario.manual
          (mkWindow None None "2025-12-18T00:00:00.000Z")
        +:+ PLACEHOLDER +:+ nl
  | inl _ => False
  end.
Proof.
  destruct (group (PropertyMap (plain_object {[ "security" := VString "Security" ]}))
              false
              [ mkPR 21 "Patch the parser" "erin" ["security"];
                mkPR 22 "Rework the builder" "erin" ["constructor"] ])
    as [e|buckets] eqn:Hgroup.
  - vm_compute in Hgroup. discriminate.
  - assert (Hascii :
      forallb ascii_record
        [ mkPR 21 "Patch the parser" "erin" ["security"];
          mkPR 22 "Rework the builder" "erin" ["constructor"] ] = true)
      by reflexivity.
    apply (custom_sections_left_out Scenario.manual _ _ false _ buckets
             Hascii Hgroup).
    repeat constructor.
Defined.

(** ** The tag history *)

Lemma listTags_loop_unfold {W} (o : Octokit W) (fuel : nat) (max page : Z)
    (out : list Tag) (st : St W) :
  listTags_loop o fuel max page out st =
  if (Z.of_nat (length out) <? max)%Z then
    match fuel with
    | O => (st, OutOfFuel)
    | S fuel' =>
        match listTags o 100 page (platform st) with
        | (w, inr data) =>
            if (length data =? 0)%nat then (with_platform st w, Returned out)
            else if (length data <? 100)%nat
                 then (with_platform st w, Returned (out ++ data))
                 else listTags_loop o fuel' max (page + 1) (out ++ data)
                        (with_platform st w)
        | (w, inl e) => (with_platform st w, Thrown e)
        end
    end
  else (st, Returned out).
Proof.
  destruct fuel; simpl; destruct (Z.of_nat (length out) <? max)%Z;
    try reflexivity.
  unfold bind, call.
  destruct (listTags o 100 page (platform st)) as [w [e|data]]; [reflexivity|].
  destruct (length data =? 0)%nat; [reflexivity|].
  destruct (length data <? 100)%nat; reflexivity.
Qed.

Module MemoryTags.

Import Memory.

Lemma listTags_loop_take (max : Z) (w : GitHub) (l : list LogLine)
    (s : list string) (f : option string) (fuel : nat) :
  forall (p : nat) (out : list Tag),
    (100 * p <= length (gh_tags w))%nat ->
    out = firstn (100 * p) (gh_tags w) ->
    (Z.to_nat max - 100 * p <= fuel)%nat ->
    exists res,
      listTags_loop octokit fuel max (Z.of_nat p + 1) out (mkSt w l s f)
      = (mkSt w l s f, Returned res)
      /\ firstn (Z.to_nat max) res = firstn (Z.to_nat max) (gh_tags w).
Proof.
  induction fuel as [|fuel IH]; intros p out Hp Hout Hfuel;
    rewrite listTags_loop_unfold;
    assert (Hlen : length out = (100 * p)%nat)
      by (rewrite Hout, length_take; lia);
    destruct (Z.of_nat (length out) <? max)%Z eqn:Hlt.
  - apply Z.ltb_lt in Hlt. lia.
  - apply Z.ltb_ge in Hlt. exists out. split; [reflexivity|].
    rewrite Hout, take_take. f_equal. lia.
  - apply Z.ltb_lt in Hlt.
    change (listTags octokit 100 (Z.of_nat p + 1) (platform (mkSt w l s f)))
      with (w, @inr exn _ (page_of 100 (Z.of_nat p + 1) (gh_tags w))).
    cbv beta iota. rewrite MemoryCollector.page_of_100.
    set (data := firstn 100 (skipn (100 * p) (gh_tags w))).
    assert (Hdata : length data = Nat.min 100 (length (gh_tags w) - 100 * p))
      by (unfold data; rewrite length_take, length_drop; reflexivity).
    assert (Hout' : out ++ data = firstn (100 * p + 100) (gh_tags w)).
    { rewrite Hout. unfold data. apply take_take_drop. }
    change (with_platform (mkSt w l s f) w) with (mkSt w l s f).
    destruct (length data =? 0)%nat eqn:Hempty.
    + apply Nat.eqb_eq in Hempty. exists out. split; [reflexivity|].
      rewrite Hout. rewrite (take_ge (gh_tags w) (100 * p)) by lia. reflexivity.
    + apply Nat.eqb_neq in Hempty.
      destruct (length data <? 100)%nat eqn:Hshort.
      * apply Nat.ltb_lt in Hshort. exists (out ++ data).
        split; [reflexivity|]. rewrite Hout'.
        rewrite (take_ge (gh_tags w) (100 * p + 100)) by lia. reflexivity.
      * apply Nat.ltb_ge in Hshort.
        replace (Z.of_nat p + 1 + 1)%Z with (Z.of_nat (S p) + 1)%Z by lia.
        apply IH; [lia| |lia].
        rewrite Hout'. f_equal. lia.
  - apply Z.ltb_ge in Hlt. exists out. split; [reflexivity|].
    rewrite Hout, take_take. f_equal. lia.
Qed.

Lemma listTagsAll_take (max : Z) (w : GitHub) (l : list LogLine)
    (s : list string) (f : option string) :
  listTagsAll octokit max (mkSt w l s f)
  = (mkSt w l s f, Returned (firstn (Z.to_nat max) (gh_tags w))).
Proof.
  unfold listTagsAll, bind.
  destruct (listTags_loop_take max w l s f (Z.to_nat max) 0 [])
    as (res & Hrun & Hres); [simpl; lia|reflexivity|lia|].
  change (Z.of_nat 0 + 1)%Z with 1%Z in Hrun. rewrite Hrun.
  unfold ret. rewrite Hres. reflexivity.
Qed.

End MemoryTags.

(** X9. On a platform that serves its tags by pages of 100,
    [listTagsAll] returns the first [max] tags of the platform, in the
    order of the platform, and leaves the platform as it was; for any
    client, a returned list has at most [max] tags and the loop ends. *)
Theorem listTagsAll_first_tags {W} (o : Octokit W) (max : Z) :
  (forall w l s f,
      listTagsAll Memory.octokit max (mkSt w l s f)
      = (mkSt w l s f, Returned (firstn (Z.to_nat max) (Memory.gh_tags w))))
  /\ (forall (st st' : St W) tags,
        listTagsAll o max st = (st', Returned tags) ->
        (length tags <= Z.to_nat max)%nat)
  /\ (forall st : St W, snd (listTagsAll o max st) ≠ OutOfFuel).
Proof.
  split; [apply MemoryTags.listTagsAll_take|]. split.
  - intros st st' tags. unfold listTagsAll, bind.
    destruct (listTags_loop o (Z.to_nat max) max 1 [] st) as [st1 [out|e|]];
      try discriminate.
    intros [= _ <-]. rewrite length_take. lia.
  - apply listTagsAll_total.
Qed.

Lemma listTagsAll_first_tags_witness :
  listTagsAll Memory.octokit 1 (Memory.start Scenario.two_tags)
  = (Memory.start Scenario.two_tags, Returned [mkTag "v1.1"]).
Proof.
  exact (proj1 (listTagsAll_first_tags Memory.octokit 1)
           Scenario.two_tags [] [] None).
Defined.

Lemma first_date_cases (c : CommitDates) (d : string) :
  first_date c = Some d <->
  (committer_date c = Some d /\ d ≠ EmptyString)
  \/ (otruthy (committer_date c) = false
      /\ author_date c = Some d /\ d ≠ EmptyString).
Proof.
  unfold first_date.
  destruct (committer_date c) as [cd|] eqn:Hcd; simpl.
  - destruct (truthy cd) eqn:Ht.
    + apply truthy_nonempty in Ht. split.
      * intros [= <-]. left. split; [reflexivity|exact Ht].
      * intros [[[= <-] _]|[Hf _]]; [reflexivity|discriminate].
    + destruct cd; [|discriminate].
      destruct (author_date c) as [ad|]; simpl.
      * destruct (truthy ad) eqn:Ha.
        -- apply truthy_nonempty in Ha. split.
           ++ intros [= <-]. right. repeat split; assumption.
           ++ intros [[[= <-] Hne]|(_ & [= <-] & _)]; [congruence|reflexivity].
        -- destruct ad; [|discriminate]. split; [discriminate|].
           intros [[[= <-] Hne]|(_ & [= <-] & Hne)]; congruence.
      * split; [discriminate|].
        intros [[[= <-] Hne]|(_ & Hn & _)]; [congruence|discriminate].
  - destruct (author_date c) as [ad|]; simpl.
    + destruct (truthy ad) eqn:Ha.
      * apply truthy_nonempty in Ha. split.
        -- intros [= <-]. right. repeat split; assumption.
        -- intros [[Hn _]|(_ & [= <-] & _)]; [discriminate|reflexivity].
      * destruct ad; [|discriminate]. split; [discriminate|].
        intros [[Hn _]|(_ & [= <-] & Hne)]; [discriminate|congruence].
    + split; [discriminate|].
      intros [[Hn _]|(_ & Hn & _)]; discriminate.
Qed.

(** X10. [tagCommitDateISO]: a reference that points to a tag object is
    followed once through [getTag] and the commit of its target is read,
    whatever the type of that target; any other reference is read as a
    commit directly. The date is the committer date when it is not empty,
    else the author date when it is not empty; with neither, the script
    throws the error "Unable to determine commit date for tag" with the
    tag name; and an error of the reference lookup is thrown on. *)
Theorem tagCommitDateISO_resolution {W} (o : Octokit W) (tagName : string)
    (st : St W) :
  (forall w1 r w2 c,
      getRef o ("tags/" +:+ tagName) (platform st) = (w1, inr r) ->
      obj_type r ≠ "tag" ->
      getCommit o (obj_sha r) w1 = (w2, inr c) ->
      tagCommitDateISO o tagName st
      = (with_platform st w2,
         match first_date c with
         | Some d => Returned d
         | None => Thrown (Error ("Unable to determine commit date for tag "
                                    +:+ tagName))
         end))
  /\ (forall w1 r w2 t w3 c,
        getRef o ("tags/" +:+ tagName) (platform st) = (w1, inr r) ->
        obj_type r = "tag" ->
        getTag o (obj_sha r) w1 = (w2, inr t) ->
        getCommit o (obj_sha t) w2 = (w3, inr c) ->
        tagCommitDateISO o tagName st
        = (with_platform st w3,
           match first_date c with
           | Some d => Returned d
           | None => Thrown (Error ("Unable to determine commit date for tag "
                                      +:+ tagName))
           end))
  /\ (forall c d,
        first_date c = Some d <->
        (committer_date c = Some d /\ d ≠ EmptyString)
        \/ (otruthy (committer_date c) = false
            /\ author_date c = Some d /\ d ≠ EmptyString))
  /\ (forall w1 e,
        getRef o ("tags/" +:+ tagName) (platform st) = (w1, inl e) ->
        tagCommitDateISO o tagName st = (with_platform st w1, Thrown e)).
Proof.
  split; [|split; [|split]].
  - intros w1 r w2 c Href Htype Hcommit.
    unfold tagCommitDateISO, bind, call. rewrite Href.
    apply String.eqb_neq in Htype. rewrite Htype. unfold ret at 1.
    rewrite if_same. unfold commit_date, bind, call. cbn [platform with_platform].
    rewrite Hcommit. destruct (first_date c); reflexivity.
  - intros w1 r w2 t w3 c Href Htype Htag Hcommit.
    unfold tagCommitDateISO, bind, call. rewrite Href.
    apply String.eqb_eq in Htype. rewrite Htype.
    cbn [platform with_platform]. rewrite Htag.
    rewrite if_same. unfold commit_date, bind, call. cbn [platform with_platform].
    rewrite Hcommit. destruct (first_date c); reflexivity.
  - apply first_date_cases.
  - intros w1 e Href. unfold tagCommitDateISO, bind, call. rewrite Href.
    reflexivity.
Qed.

Lemma tagCommitDateISO_resolution_witness :
  tagCommitDateISO Memory.octokit "v1.1" (Memory.start Scenario.two_tags)
  = (Memory.start Scenario.two_tags, Returned "2025-02-01T00:00:00Z")
  /\ tagCommitDateISO Memory.octokit "v1.0" (Memory.start Scenario.two_tags)
     = (Memory.start Scenario.two_tags, Returned "2025-01-01T00:00:00Z")
  /\ tagCommitDateISO Memory.octokit "v0.9" (Memory.start Scenario.two_tags)
     = (Memory.start Scenario.two_tags, Thrown Memory.not_found).
Proof.
  split; [|split].
  - apply (proj1 (proj2 (tagCommitDateISO_resolution Memory.octokit "v1.1"
                           (Memory.start Scenario.two_tags)))
             Scenario.two_tags (mkGitObject "a11" "tag")
             Scenario.two_tags (mkGitObject "c11" "commit")
             Scenario.two_tags
             (mkCommitDates (Some "2025-02-01T00:00:00Z") None));
      vm_compute; reflexivity.
  - apply (proj1 (tagCommitDateISO_resolution Memory.octokit "v1.0"
                    (Memory.start Scenario.two_tags))
             Scenario.two_tags (mkGitObject "c10" "commit")
             Scenario.two_tags
             (mkCommitDates None (Some "2025-01-01T00:00:00Z")));
      [vm_compute; reflexivity|discriminate|vm_compute; reflexivity].
  - apply (proj2 (proj2 (proj2 (tagCommitDateISO_resolution Memory.octokit "v0.9"
                                  (Memory.start Scenario.two_tags))))
             Scenario.two_tags Memory.not_found).
    vm_compute. reflexivity.
Defined.

(** ** What the collector keeps *)

Lemma label_name_cases (l : RawLabel) (n : string) :
  label_name l = Some n <->
  n ≠ EmptyString /\ (l = LabelString n \/ l = LabelObject (Some n)).
Proof.
  destruct l as [s|[s|]]; simpl.
  - destruct (truthy s) eqn:Hs.
    + apply truthy_nonempty in Hs. split.
      * intros [= <-]. split; [exact Hs|left; reflexivity].
      * intros [_ [[= <-]|[=]]]. reflexivity.
    + destruct s; [|discriminate]. split; [discriminate|].
      intros [Hne [[= <-]|[=]]]. congruence.
  - destruct (truthy s) eqn:Hs.
    + apply truthy_nonempty in Hs. split.
      * intros [= <-]. split; [exact Hs|right; reflexivity].
      * intros [_ [[=]|[= <-]]]. reflexivity.
    + destruct s; [|discriminate]. split; [discriminate|].
      intros [Hne [[=]|[= <-]]]. congruence.
  - split; [discriminate|]. intros [_ [[=]|[=]]].
Qed.

(** X11. The record the collector makes of a search item keeps the
    number and the title; its author is the login of the item, or
    "unknown" when the item has no user or an empty login, so never
    empty; and its labels are the non-empty names of the labels of the
    item, given as plain strings or as objects with a name: a label
    without a name or with an empty one is dropped, and an item whose
    labels are not a list has none. *)
Theorem normalize_record (item : Item) :
  number (normalize item) = item_number item
  /\ title (normalize item) = item_title item
  /\ user (normalize item) ≠ EmptyString
  /\ (forall login, item_login item = Some login -> login ≠ EmptyString ->
        user (normalize item) = login)
  /\ (forall n, n ∈ labels (normalize item) <->
        n ≠ EmptyString
        /\ exists ls, item_labels item = Some ls
                      /\ (LabelString n ∈ ls \/ LabelObject (Some n) ∈ ls))
  /\ (item_labels item = None -> labels (normalize item) = []).
Proof.
  unfold normalize. cbn [number title user labels].
  split; [reflexivity|]. split; [reflexivity|]. split; [|split; [|split]].
  - destruct (item_login item) as [login|]; simpl; [|discriminate].
    destruct (truthy login) eqn:Hl; [apply truthy_nonempty, Hl|discriminate].
  - intros login -> Hne. simpl. apply truthy_nonempty in Hne. rewrite Hne.
    reflexivity.
  - intros n. destruct (item_labels item) as [ls|].
    + rewrite list_elem_of_omap. split.
      * intros (l & Hl & Hname). apply label_name_cases in Hname as [Hne Hcase].
        split; [exact Hne|]. exists ls. split; [reflexivity|].
        destruct Hcase as [->| ->]; [left|right]; exact Hl.
      * intros (Hne & ls' & [= <-] & Hcase).
        destruct Hcase as [Hl|Hl]; eexists; (split; [exact Hl|]);
          apply label_name_cases; split; auto.
    + split; [intros H; inversion H|].
      intros (_ & ls & Hls & _). discriminate.
  - intros ->. reflexivity.
Qed.

Lemma normalize_record_witness :
  user (normalize (mkItem 4 "Tune cache" (Some "fay")
                     (Some [LabelObject (Some "perf"); LabelObject None])))
  = "fay"
  /\ "perf" ∈ labels (normalize (mkItem 4 "Tune cache" (Some "fay")
                        (Some [LabelObject (Some "perf"); LabelObject None]))).
Proof.
  pose proof (normalize_record
                (mkItem 4 "Tune cache" (Some "fay")
                   (Some [LabelObject (Some "perf"); LabelObject None])))
    as (_ & _ & _ & Huser & Hlabels & _).
  split.
  - apply (Huser "fay"); [reflexivity|discriminate].
  - apply Hlabels. split; [discriminate|].
    eexists. split; [reflexivity|]. right. left.
Defined.

(** X12. On a platform that serves the search by pages of 100, the
    collector returns the first [maxPRs] items of the search, in the
    order of the platform, made into records and sorted by number, and
    leaves the platform as it was: when more items match than the cap
    allows, the ones kept are those the platform lists first, not those
    with the lowest numbers. *)
Theorem collector_keeps_first_items (ctx : Context)
    (baseBranch mergedAfterISO : string) (maxPRs : Z) (w : Memory.GitHub)
    (l : list LogLine) (s : list string) (f : option string) :
  searchMergedPRs Memory.octokit ctx baseBranch mergedAfterISO maxPRs
    (mkSt w l s f)
  = (mkSt w l s f,
     Returned (sort_by_number
                 (map normalize (firstn (Z.to_nat maxPRs) (Memory.gh_items w))))).
Proof. apply MemoryCollector.searchMergedPRs_take. Qed.

(** X13. The order in which the platform lists the items does not show
    in what the collector returns, as long as none is cut off: two
    platforms with the same items, no two items with the same number and
    no more items than the cap, give the same list. *)
Theorem collector_ignores_order (ctx : Context)
    (baseBranch mergedAfterISO : string) (maxPRs : Z) (w1 w2 : Memory.GitHub) :
  Memory.gh_items w1 ≡ₚ Memory.gh_items w2 ->
  NoDup (map item_number (Memory.gh_items w1)) ->
  (Z.of_nat (length (Memory.gh_items w1)) <= maxPRs)%Z ->
  snd (searchMergedPRs Memory.octokit ctx baseBranch mergedAfterISO maxPRs
         (Memory.start w1))
  = snd (searchMergedPRs Memory.octokit ctx baseBranch mergedAfterISO maxPRs
           (Memory.start w2)).
Proof.
  intros P ND Hlen. unfold Memory.start.
  rewrite !MemoryCollector.searchMergedPRs_take. cbn [snd]. f_equal.
  assert (Hlen2 : length (Memory.gh_items w2) = length (Memory.gh_items w1))
    by (symmetry; apply Permutation_length, P).
  rewrite !take_ge by lia.
  apply sort_by_number_perm_eq.
  - apply Permutation_map, P.
  - rewrite map_map. exact ND.
Qed.

Lemma collector_ignores_order_witness :
  snd (searchMergedPRs Memory.octokit Scenario.manual "main"
         "2025-01-01T00:00:00Z" 200 (Memory.start Scenario.two_tags))
  = snd (searchMergedPRs Memory.octokit Scenario.manual "main"
           "2025-01-01T00:00:00Z" 200 (Memory.start two_tags_reversed)).
Proof.
  apply (collector_ignores_order Scenario.manual "main" "2025-01-01T00:00:00Z"
           200 Scenario.two_tags two_tags_reversed).
  - apply Permutation_rev.
  - apply (bool_decide_unpack _). vm_compute. exact I.
  - simpl. lia.
Defined.

(** ** The preview comment *)

Module MemoryComments.

Import Memory.

Lemma upsertComment_unfold (issue : Z) (body : string) (w : GitHub)
    (l : list LogLine) (s : list string) (f : option string) :
  upsertComment octokit issue body (mkSt w l s f) =
  match find marked (firstn 100 (comments_on issue w)) with
  | Some existing =>
      match mem_updateComment (comment_id existing) body w with
      | (w', inr _) =>
          (mkSt w' l s f, Returned (mkCommentResult true (comment_url existing)))
      | (w', inl e) => (mkSt w' l s f, Thrown e)
      end
  | None =>
      (mkSt (set_comments w (gh_comments w ++ [new_comment issue body w])) l s f,
       Returned (mkCommentResult false
                   (comment_url (new_comment issue body w))))
  end.
Proof.
  unfold upsertComment, bind, call. cbn [listComments octokit platform].
  change (Z.to_nat 100) with 100%nat.
  change (find (fun c => str_includes (or_else (comment_body c) "") PREVIEW_MARKER))
    with (find marked).
  change (List.filter (fun c => (comment_issue c =? issue)%Z) (gh_comments w))
    with (comments_on issue w).
  cbv beta iota.
  destruct (find marked (firstn 100 (comments_on issue w))) as [existing|].
  - cbn [updateComment octokit platform with_platform logs summary failed].
    destruct (mem_updateComment (comment_id existing) body w) as [w' [e|c]];
      reflexivity.
  - reflexivity.
Qed.

Lemma marked_body (issue id : Z) (body u : string) :
  str_includes body PREVIEW_MARKER = true ->
  marked (mkComment id issue (Some body) u) = true.
Proof.
  intros H. unfold marked. cbn [comment_body or_else].
  destruct body; [vm_compute in H; discriminate|exact H].
Qed.

Lemma fresh_id_above (ids : list Z) (x : Z) : x ∈ ids -> (x < fresh_id ids)%Z.
Proof.
  unfold fresh_id. induction ids as [|y ids IH]; intros Hx; [inversion Hx|].
  apply elem_of_cons in Hx as [->|Hx]; simpl; [lia|].
  specialize (IH Hx). lia.
Qed.

Lemma fresh_id_new (ids : list Z) : NoDup ids -> NoDup (ids ++ [fresh_id ids]).
Proof.
  intros H. apply NoDup_app. split; [exact H|]. split; [|apply NoDup_singleton].
  intros x Hx Hin. apply list_elem_of_singleton in Hin. subst.
  apply fresh_id_above in Hx. lia.
Qed.

Lemma same_id_same_comment (cs : list Comment) (x y : Comment) :
  NoDup (map comment_id cs) -> In x cs -> In y cs ->
  comment_id x = comment_id y -> x = y.
Proof.
  induction cs as [|c cs IH]; intros ND Hx Hy Hid; [destruct Hx|].
  simpl in ND. apply NoDup_cons in ND as [Hfresh ND].
  destruct Hx as [->|Hx], Hy as [->|Hy]; [reflexivity| | |auto].
  - exfalso. apply Hfresh. rewrite Hid.
    apply list_elem_of_In, in_map, Hy.
  - exfalso. apply Hfresh. rewrite <- Hid.
    apply list_elem_of_In, in_map, Hx.
Qed.

Lemma filter_map_same {A} (P : A -> bool) (g : A -> A) (l : list A) :
  (forall x, In x l -> P (g x) = P x) ->
  List.filter P (map g l) = map g (List.filter P l).
Proof.
  induction l as [|x l IH]; intros H; [reflexivity|]. simpl.
  rewrite (H x (or_introl eq_refl)), IH by (intros y Hy; apply H; right; exact Hy).
  destruct (P x); reflexivity.
Qed.

(** No preview among the comments listed: a comment is created, at the
    end. *)
Lemma upsertComment_creates (issue : Z) (body : string) (w : GitHub)
    (l : list LogLine) (s : list string) (f : option string) :
  find marked (firstn 100 (comments_on issue w)) = None ->
  str_includes body PREVIEW_MARKER = true ->
  let w' := set_comments w (gh_comments w ++ [new_comment issue body w]) in
  upsertComment octokit issue body (mkSt w l s f)
  = (mkSt w' l s f,
     Returned (mkCommentResult false (comment_url (new_comment issue body w))))
  /\ comments_on issue w' = comments_on issue w ++ [new_comment issue body w]
  /\ previews issue w' = previews issue w ++ [new_comment issue body w].
Proof.
  intros Hnone Hbody w'. rewrite upsertComment_unfold, Hnone.
  assert (Hon : comments_on issue w'
                = comments_on issue w ++ [new_comment issue body w]).
  { unfold comments_on, w'. cbn [gh_comments set_comments].
    rewrite List.filter_app. cbn [List.filter comment_issue new_comment].
    rewrite Z.eqb_refl. reflexivity. }
  split; [reflexivity|]. split; [exact Hon|].
  unfold previews. rewrite Hon, List.filter_app. cbn [List.filter].
  unfold new_comment at 1. rewrite (marked_body _ _ _ _ Hbody). reflexivity.
Qed.

(** A preview among the comments listed, and no two comments with the
    same id: the first preview listed is edited in place. *)
Lemma upsertComment_updates (issue : Z) (body : string) (w : GitHub)
    (l : list LogLine) (s : list string) (f : option string)
    (existing : Comment) :
  NoDup (map comment_id (gh_comments w)) ->
  find marked (firstn 100 (comments_on issue w)) = Some existing ->
  str_includes body PREVIEW_MARKER = true ->
  let g := fun x => if (comment_id x =? comment_id existing)%Z
                    then edited_comment body existing else x in
  let w' := set_comments w (map g (gh_comments w)) in
  upsertComment octokit issue body (mkSt w l s f)
  = (mkSt w' l s f, Returned (mkCommentResult true (comment_url existing)))
  /\ comments_on issue w' = map g (comments_on issue w)
  /\ previews issue w' = map g (previews issue w)
  /\ map comment_id (gh_comments w') = map comment_id (gh_comments w).
Proof.
  intros ND Hfind Hbody g w'.
  apply find_some in Hfind as Hex. destruct Hex as [Hin Hmarked].
  assert (Hin' : In existing (comments_on issue w)).
  { apply list_elem_of_In. apply (subseteq_take 100 (comments_on issue w)).
    apply list_elem_of_In, Hin. }
  unfold comments_on in Hin'. apply filter_In in Hin' as [Hstored Hissue].
  assert (Hbyid : find (fun c => (comment_id c =? comment_id existing)%Z)
                    (gh_comments w) = Some existing).
  { destruct (find _ (gh_comments w)) as [c|] eqn:Hc.
    - apply find_some in Hc as [Hcin Hcid]. apply Z.eqb_eq in Hcid.
      f_equal. apply (same_id_same_comment (gh_comments w)); assumption.
    - exfalso. apply (find_none _ _ Hc existing) in Hstored.
      rewrite Z.eqb_refl in Hstored. discriminate. }
  assert (Hg : forall x, In x (gh_comments w) ->
                 g x = if (comment_id x =? comment_id existing)%Z
                       then edited_comment body x else x).
  { intros x Hx. unfold g. destruct (comment_id x =? comment_id existing)%Z eqn:Hid;
      [|reflexivity].
    apply Z.eqb_eq in Hid.
    rewrite (same_id_same_comment (gh_comments w) x existing ND Hx Hstored Hid).
    reflexivity. }
  assert (Hissue_g : forall x, In x (gh_comments w) ->
                       (comment_issue (g x) =? issue)%Z = (comment_issue x =? issue)%Z).
  { intros x Hx. rewrite (Hg x Hx).
    destruct (comment_id x =? comment_id existing)%Z; reflexivity. }
  assert (Hon : comments_on issue w' = map g (comments_on issue w)).
  { unfold comments_on, w'. cbn [gh_comments set_comments].
    apply filter_map_same. exact Hissue_g. }
  split; [|split; [exact Hon|split]].
  - rewrite upsertComment_unfold, Hfind. unfold mem_updateComment.
    rewrite Hbyid. reflexivity.
  - unfold previews. rewrite Hon. apply filter_map_same.
    intros x Hx. unfold comments_on in Hx. apply filter_In in Hx as [Hx _].
    unfold g. destruct (comment_id x =? comment_id existing)%Z eqn:Hid;
      [|reflexivity].
    apply Z.eqb_eq in Hid.
    rewrite (same_id_same_comment (gh_comments w) x existing ND Hx Hstored Hid).
    rewrite Hmarked. apply marked_body, Hbody.
  - unfold w'. cbn [gh_comments set_comments]. rewrite map_map.
    apply map_ext_in. intros x Hx. unfold g.
    destruct (comment_id x =? comment_id existing)%Z eqn:Hid; [|reflexivity].
    apply Z.eqb_eq in Hid. symmetry. exact Hid.
Qed.

End MemoryComments.

Lemma find_none_filter {A} (P : A -> bool) (l : list A) :
  find P l = None <-> List.filter P l = [].
Proof.
  induction l as [|x l IH]; simpl; [tauto|].
  destruct (P x); [split; discriminate|exact IH].
Qed.

(** One run of the preview upsert on the memory platform, on a change
    request with at most a hundred comments. *)
Lemma upsertComment_step (issue : Z) (body : string) (w : Memory.GitHub)
    (l : list LogLine) (s : list string) (f : option string) :
  NoDup (map comment_id (Memory.gh_comments w)) ->
  (length (comments_on issue w) <= 100)%nat ->
  str_includes body PREVIEW_MARKER = true ->
  exists w' r,
    upsertComment Memory.octokit issue body (mkSt w l s f)
    = (mkSt w' l s f, Returned r)
    /\ NoDup (map comment_id (Memory.gh_comments w'))
    /\ previews issue w' ≠ []
    /\ (previews issue w = [] ->
        updated r = false
        /\ length (previews issue w') = 1%nat
        /\ length (comments_on issue w') = S (length (comments_on issue w)))
    /\ (previews issue w ≠ [] ->
        updated r = true
        /\ length (previews issue w') = length (previews issue w)
        /\ length (comments_on issue w') = length (comments_on issue w)
        /\ length (Memory.gh_comments w') = length (Memory.gh_comments w)).
Proof.
  intros ND Hlen Hbody.
  assert (Hall : firstn 100 (comments_on issue w) = comments_on issue w)
    by (apply take_ge; exact Hlen).
  destruct (find marked (firstn 100 (comments_on issue w))) as [existing|] eqn:Hfind.
  - destruct (MemoryComments.upsertComment_updates issue body w l s f existing
                ND Hfind Hbody) as (Hrun & Hon & Hprev & Hids).
    assert (Hsome : previews issue w ≠ []).
    { unfold previews. rewrite <- find_none_filter, <- Hall, Hfind. discriminate. }
    eexists _, _. split; [exact Hrun|]. split; [rewrite Hids; exact ND|].
    split; [|split].
    + rewrite Hprev. destruct (previews issue w); [congruence|discriminate].
    + intros Hnone. congruence.
    + intros _. cbn [updated]. rewrite Hprev, Hon, !length_map.
      repeat split. rewrite <- (length_map comment_id), Hids, length_map.
      reflexivity.
  - destruct (MemoryComments.upsertComment_creates issue body w l s f Hfind Hbody)
      as (Hrun & Hon & Hprev).
    assert (Hnone : previews issue w = []).
    { unfold previews. rewrite <- find_none_filter, <- Hall. exact Hfind. }
    eexists _, _. split; [exact Hrun|]. split; [|split; [|split]].
    + cbn [Memory.gh_comments Memory.set_comments]. rewrite map_app.
      apply MemoryComments.fresh_id_new, ND.
    + rewrite Hprev, Hnone. discriminate.
    + intros _. cbn [updated]. rewrite Hprev, Hon, Hnone, !length_app.
      cbn [length app]. split; [reflexivity|]. split; [reflexivity|lia].
    + intros Hsome. congruence.
Qed.

(** X14. The preview comment is kept single: on a change request with
    fewer than a hundred comments, the upsert run twice with a body that
    carries the marker reports an update the second time and adds no
    comment then; a request that had no preview has exactly one after the
    two runs. *)
Theorem preview_comment_once (issue : Z) (body : string) (w : Memory.GitHub)
    (l : list LogLine) (s : list string) (f : option string) :
  NoDup (map comment_id (Memory.gh_comments w)) ->
  (length (comments_on issue w) < 100)%nat ->
  str_includes body PREVIEW_MARKER = true ->
  exists w1 r1 w2 r2,
    upsertComment Memory.octokit issue body (mkSt w l s f)
    = (mkSt w1 l s f, Returned r1)
    /\ upsertComment Memory.octokit issue body (mkSt w1 l s f)
       = (mkSt w2 l s f, Returned r2)
    /\ updated r2 = true
    /\ length (previews issue w2) = length (previews issue w1)
    /\ length (Memory.gh_comments w2) = length (Memory.gh_comments w1)
    /\ (previews issue w = [] ->
        updated r1 = false /\ length (previews issue w2) = 1%nat).
Proof.
  intros ND Hlen Hbody.
  destruct (upsertComment_step issue body w l s f ND ltac:(lia) Hbody)
    as (w1 & r1 & Hrun1 & ND1 & Hsome1 & Hcreated & Hupdated).
  assert (Hlen1 : (length (comments_on issue w1) <= 100)%nat).
  { destruct (previews issue w) eqn:Hp.
    - destruct (Hcreated eq_refl) as (_ & _ & ->). lia.
    - destruct (Hupdated ltac:(discriminate)) as (_ & _ & -> & _). lia. }
  destruct (upsertComment_step issue body w1 l s f ND1 Hlen1 Hbody)
    as (w2 & r2 & Hrun2 & _ & _ & _ & Hupdated2).
  destruct (Hupdated2 Hsome1) as (Hr2 & Hprev2 & _ & Hcount2).
  exists w1, r1, w2, r2. repeat split; try assumption.
  - apply Hcreated, H.
  - rewrite Hprev2. apply Hcreated, H.
Qed.

Lemma preview_comment_once_witness :
  exists w1 r1 w2 r2,
    upsertComment Memory.octokit 7 sample_preview (Memory.start with_comment)
    = (Memory.start w1, Returned r1)
    /\ upsertComment Memory.octokit 7 sample_preview (Memory.start w1)
       = (Memory.start w2, Returned r2)
    /\ updated r2 = true
    /\ length (previews 7 w2) = 1%nat.
Proof.
  assert (ND : NoDup (map comment_id (Memory.gh_comments with_comment)))
    by (apply (bool_decide_unpack _); vm_compute; exact I).
  assert (Hlen : (length (comments_on 7 with_comment) < 100)%nat)
    by (vm_compute; lia).
  assert (Hbody : str_includes sample_preview PREVIEW_MARKER = true)
    by (vm_compute; reflexivity).
  destruct (preview_comment_once 7 sample_preview with_comment [] [] None
              ND Hlen Hbody)
    as (w1 & r1 & w2 & r2 & H1 & H2 & Hup & _ & _ & Hnew).
  exists w1, r1, w2, r2. repeat split; try assumption.
  apply Hnew. vm_compute. reflexivity.
Defined.

(** X15. The upsert reads the first hundred comments of the change
    request only: when the request has a hundred comments or more and no
    preview among the first hundred, every run adds a preview comment at
    the end, reports it as created, and leaves the request in the same
    condition for the next run. *)
Theorem preview_comment_beyond_first_page (issue : Z) (body : string)
    (w : Memory.GitHub) (l : list LogLine) (s : list string)
    (f : option string) :
  find marked (firstn 100 (comments_on issue w)) = None ->
  (100 <= length (comments_on issue w))%nat ->
  str_includes body PREVIEW_MARKER = true ->
  exists w' r,
    upsertComment Memory.octokit issue body (mkSt w l s f)
    = (mkSt w' l s f, Returned r)
    /\ updated r = false
    /\ length (previews issue w') = S (length (previews issue w))
    /\ find marked (firstn 100 (comments_on issue w')) = None
    /\ (100 <= length (comments_on issue w'))%nat.
Proof.
  intros Hfind Hlen Hbody.
  destruct (MemoryComments.upsertComment_creates issue body w l s f Hfind Hbody)
    as (Hrun & Hon & Hprev).
  eexists _, _. split; [exact Hrun|]. split; [reflexivity|].
  split; [|split].
  - rewrite Hprev, length_app. cbn [length]. lia.
  - rewrite Hon, take_app_le by lia. exact Hfind.
  - rewrite Hon, length_app. lia.
Qed.

Lemma preview_comment_beyond_first_page_witness :
  exists w' r,
    upsertComment Memory.octokit 7 sample_preview (Memory.start crowded)
    = (Memory.start w', Returned r)
    /\ updated r = false
    /\ length (previews 7 w') = 1%nat.
Proof.
  assert (Hfind : find marked (firstn 100 (comments_on 7 crowded)) = None)
    by (vm_compute; reflexivity).
  assert (Hlen : (100 <= length (comments_on 7 crowded))%nat)
    by (vm_compute; lia).
  assert (Hbody : str_includes sample_preview PREVIEW_MARKER = true)
    by (vm_compute; reflexivity).
  destruct (preview_comment_beyond_first_page 7 sample_preview crowded [] [] None
              Hfind Hlen Hbody) as (w' & r & Hrun & Hr & Hprev & _).
  exists w', r. split; [exact Hrun|]. split; [exact Hr|].
  rewrite Hprev. vm_compute. reflexivity.
Defined.

(** ** The run as a whole *)

Section Totality.

Context {W : Type}.
Variable o : Octokit W.

Lemma bind_fuelled {A B} (m : M W A) (k : A -> M W B) (st : St W) :
  snd (m st) ≠ OutOfFuel ->
  (forall a st', snd (k a st') ≠ OutOfFuel) ->
  snd (bind m k st) ≠ OutOfFuel.
Proof.
  intros Hm Hk. unfold bind.
  destruct (m st) as [st' [a|e|]]; simpl in *;
    [apply Hk|discriminate|congruence].
Qed.

Lemma call_fuelled {A} (op : W -> W * (exn + A)) (st : St W) :
  snd (call op st) ≠ OutOfFuel.
Proof. unfold call. destruct (op (platform st)) as [w [e|a]]; discriminate. Qed.

Lemma lift_fuelled {A} (r : exn + A) (st : St W) :
  snd (lift r st) ≠ OutOfFuel.
Proof. destruct r; discriminate. Qed.

Lemma searchMergedPRs_fuelled (ctx : Context) (b i : string) (maxPRs : Z)
    (st : St W) :
  snd (searchMergedPRs o ctx b i maxPRs st) ≠ OutOfFuel.
Proof.
  rewrite searchMergedPRs_unfold.
  pose proof (search_loop_fuel o (search_query ctx b i) maxPRs
                (Z.to_nat maxPRs) 1 [] st) as H.
  destruct (search_loop o (Z.to_nat maxPRs) _ maxPRs 1 [] st) as [st' [out|e|]];
    simpl in *; try discriminate.
  apply H. lia.
Qed.

Lemma upsertReleaseByTag_fuelled (tag body : string) (draft : bool) (st : St W) :
  snd (upsertReleaseByTag o tag body draft st) ≠ OutOfFuel.
Proof.
  unfold upsertReleaseByTag, try_catch, bind, call, ret.
  destruct (getReleaseByTag o tag (platform st)) as [w1 [e|existing]]; simpl.
  - destruct (createRelease o tag _ body draft w1) as [w2 [e'|c]]; discriminate.
  - destruct (updateRelease o _ body draft w1) as [w2 [e|upd]]; simpl;
      [|discriminate].
    destruct (createRelease o tag _ body draft w2) as [w3 [e'|c]]; discriminate.
Qed.

Lemma upsertComment_fuelled (issue : Z) (body : string) (st : St W) :
  snd (upsertComment o issue body st) ≠ OutOfFuel.
Proof.
  unfold upsertComment. apply bind_fuelled; [apply call_fuelled|].
  intros comments st'. destruct (find _ comments) as [existing|].
  - apply bind_fuelled; [apply call_fuelled|]. intros; discriminate.
  - apply bind_fuelled; [apply call_fuelled|]. intros; discriminate.
Qed.

Lemma publishRelease_fuelled (ctx : Context) (inp : Inputs) (w : Window)
    (body : string) (st : St W) :
  snd (publishRelease o ctx inp w body st) ≠ OutOfFuel.
Proof.
  unfold publishRelease. destruct (in_createRelease inp); [|discriminate].
  destruct (String.eqb (eventName ctx) "push" && otruthy (currentTag w)).
  - apply bind_fuelled; [apply upsertReleaseByTag_fuelled|].
    intros; discriminate.
  - discriminate.
Qed.

Lemma publishPreview_fuelled (ctx : Context) (inp : Inputs) (st : St W) :
  snd (publishPreview o ctx inp st) ≠ OutOfFuel.
Proof.
  unfold publishPreview.
  destruct (in_previewOnPR inp && String.eqb (eventName ctx) "pull_request");
    [|discriminate].
  destruct (pull_request ctx) as [prData|]; [|discriminate].
  destruct (negb (pull_number prData =? 0)%Z); [|discriminate].
  apply bind_fuelled; [apply lift_fuelled|]. intros section st1.
  apply bind_fuelled; [apply upsertComment_fuelled|]. intros; discriminate.
Qed.

Lemma main_fuelled (ctx : Context) (inp : Inputs) (st : St W) :
  snd (main o ctx inp st) ≠ OutOfFuel.
Proof.
  unfold main. apply bind_fuelled; [apply listTagsAll_total|].
  intros tags st1. apply bind_fuelled; [apply releaseWindow_total|].
  intros w st2. do 4 (apply bind_fuelled; [discriminate|]; intros _ ?).
  apply bind_fuelled; [apply searchMergedPRs_fuelled|].
  intros prs st3. cbv zeta.
  apply bind_fuelled; [apply lift_fuelled|]. intros buckets st3'.
  apply bind_fuelled; [discriminate|]. intros _ st4.
  apply bind_fuelled; [apply publishRelease_fuelled|]. intros _ st5.
  apply publishPreview_fuelled.
Qed.

End Totality.

(** X16. A run never rejects and its loops never run on: whatever the
    client answers, [run] returns; either the script went through, or the
    error it threw is reported with [setFailed] on the state the throw
    left. *)
Theorem run_always_returns {W} (o : Octokit W) (ctx : Context) (inp : Inputs)
    (st : St W) :
  exists st',
    run o ctx inp st = (st', Returned tt)
    /\ (main o ctx inp st = (st', Returned tt)
        \/ exists st1 e,
             main o ctx inp st = (st1, Thrown e)
             /\ st' = mkSt (platform st1) (logs st1) (summary st1)
                        (Some (exn_text e))).
Proof.
  pose proof (main_fuelled o ctx inp st) as Hfuel.
  unfold run, try_catch.
  destruct (main o ctx inp st) as [st1 [[]|e|]]; simpl in Hfuel.
  - exists st1. split; [reflexivity|]. left. reflexivity.
  - eexists. split; [reflexivity|]. right. exists st1, e. split; reflexivity.
  - congruence.
Qed.

(** X17. Release requests are made on push events only, and only when
    [create_release] is on: otherwise the run is the same whatever the
    three release requests of the client do. *)
Theorem release_requests_need_push {W} (o1 o2 : Octokit W) (ctx : Context)
    (inp : Inputs) (st : St W) :
  listTags o1 = listTags o2 ->
  getRef o1 = getRef o2 ->
  getTag o1 = getTag o2 ->
  getCommit o1 = getCommit o2 ->
  issuesAndPullRequests o1 = issuesAndPullRequests o2 ->
  listComments o1 = listComments o2 ->
  updateComment o1 = updateComment o2 ->
  createComment o1 = createComment o2 ->
  in_createRelease inp = false \/ eventName ctx ≠ "push" ->
  run o1 ctx inp st = run o2 ctx inp st.
Proof.
  destruct o1, o2. cbn. intros -> -> -> -> -> -> -> -> Hoff.
  unfold run, main, publishRelease.
  destruct Hoff as [Hoff|Hevent].
  - rewrite Hoff. reflexivity.
  - apply String.eqb_neq in Hevent. rewrite Hevent. reflexivity.
Qed.

Lemma release_requests_need_push_witness :
  run Memory.octokit Scenario.manual Scenario.defaults
      (Memory.start Scenario.released)
  = run (Memory.octokit_lookup_failing (RequestError 500 "Internal Server Error"))
      Scenario.manual Scenario.defaults (Memory.start Scenario.released).
Proof.
  apply release_requests_need_push; try reflexivity.
  right. discriminate.
Defined.

(** X18. Comment requests are made only when [preview_on_pr] is on, the
    event is [pull_request] and the payload has a change request with a
    number: otherwise the run is the same whatever the three comment
    requests of the client do. *)
Theorem comment_requests_need_preview {W} (o1 o2 : Octokit W) (ctx : Context)
    (inp : Inputs) (st : St W) :
  listTags o1 = listTags o2 ->
  getRef o1 = getRef o2 ->
  getTag o1 = getTag o2 ->
  getCommit o1 = getCommit o2 ->
  issuesAndPullRequests o1 = issuesAndPullRequests o2 ->
  getReleaseByTag o1 = getReleaseByTag o2 ->
  updateRelease o1 = updateRelease o2 ->
  createRelease o1 = createRelease o2 ->
  in_previewOnPR inp = false
  \/ eventName ctx ≠ "pull_request"
  \/ (forall p, pull_request ctx = Some p -> pull_number p = 0%Z) ->
  run o1 ctx inp st = run o2 ctx inp st.
Proof.
  destruct o1, o2. cbn. intros -> -> -> -> -> -> -> -> Hoff.
  unfold run, main, publishPreview.
  destruct Hoff as [Hoff|[Hevent|Hnone]].
  - rewrite Hoff. reflexivity.
  - apply String.eqb_neq in Hevent. rewrite Hevent, andb_false_r. reflexivity.
  - destruct (pull_request ctx) as [p|]; [|reflexivity].
    rewrite (Hnone p eq_refl). cbn [Z.eqb negb]. reflexivity.
Qed.

Lemma comment_requests_need_preview_witness :
  run Memory.octokit (Scenario.tag_push "v1.1") Scenario.defaults
      (Memory.start Scenario.two_tags)
  = run (octokit_comments_failing (RequestError 403 "Forbidden"))
      (Scenario.tag_push "v1.1") Scenario.defaults
      (Memory.start Scenario.two_tags).
Proof.
  apply comment_requests_need_preview; try reflexivity.
  left. reflexivity.
Defined.

(** ** The summary of a run *)

Section Summary.

Context {W : Type}.
Variable o : Octokit W.

Lemma bind_summary {A B} (m : M W A) (k : A -> M W B) (st : St W) :
  summary (fst (m st)) = summary st ->
  (forall a st', summary (fst (k a st')) = summary st') ->
  summary (fst (bind m k st)) = summary st.
Proof.
  intros Hm Hk. unfold bind.
  destruct (m st) as [st' [a|e|]]; simpl in *; [|exact Hm|exact Hm].
  rewrite Hk. exact Hm.
Qed.

Lemma call_summary {A} (op : W -> W * (exn + A)) (st : St W) :
  summary (fst (call op st)) = summary st.
Proof. unfold call. destruct (op (platform st)) as [w [e|a]]; reflexivity. Qed.

Lemma listTags_loop_summary (max : Z) (fuel : nat) :
  forall page out st,
    summary (fst (listTags_loop o fuel max page out st)) = summary st.
Proof.
  induction fuel as [|fuel IH]; intros page out st;
    rewrite listTags_loop_unfold;
    destruct (Z.of_nat (length out) <? max)%Z; try reflexivity.
  destruct (listTags o 100 page (platform st)) as [w [e|data]]; [reflexivity|].
  destruct (length data =? 0)%nat; [reflexivity|].
  destruct (length data <? 100)%nat; [reflexivity|].
  rewrite IH. reflexivity.
Qed.

Lemma listTagsAll_summary (max : Z) (st : St W) :
  summary (fst (listTagsAll o max st)) = summary st.
Proof.
  unfold listTagsAll. apply bind_summary; [apply listTags_loop_summary|].
  reflexivity.
Qed.

Lemma commit_date_summary (tagName sha : string) (st : St W) :
  summary (fst (commit_date o tagName sha st)) = summary st.
Proof.
  unfold commit_date. apply bind_summary; [apply call_summary|].
  intros c st'. destruct (first_date c); reflexivity.
Qed.

Lemma tagCommitDateISO_summary (tagName : string) (st : St W) :
  summary (fst (tagCommitDateISO o tagName st)) = summary st.
Proof.
  unfold tagCommitDateISO. apply bind_summary; [apply call_summary|].
  intros r st1. apply bind_summary.
  - destruct (String.eqb (obj_type r) "tag"); [apply call_summary|reflexivity].
  - intros t st2. rewrite if_same. apply commit_date_summary.
Qed.

Lemma releaseWindow_summary (ctx : Context) (days : Z) (tags : list Tag)
    (st : St W) :
  summary (fst (releaseWindow o ctx days tags st)) = summary st.
Proof.
  unfold releaseWindow. destruct (otruthy (pushedTag ctx)).
  - apply bind_summary.
    + destruct (findIndex _ tags); reflexivity.
    + intros prev st1. destruct (otruthy prev); [|reflexivity].
      apply bind_summary; [apply tagCommitDateISO_summary|]. reflexivity.
  - destruct tags as [|t0 [|t1 rest]]; [reflexivity| |];
      (apply bind_summary; [apply tagCommitDateISO_summary|]; reflexivity).
Qed.

Lemma search_loop_summary (q : string) (maxPRs : Z) (fuel : nat) :
  forall page out st,
    summary (fst (search_loop o fuel q maxPRs page out st)) = summary st.
Proof.
  induction fuel as [|fuel IH]; intros page out st;
    rewrite search_loop_unfold;
    destruct (Z.of_nat (length out) <? maxPRs)%Z; try reflexivity.
  destruct (issuesAndPullRequests o q 100 page (platform st)) as [w [e|items]];
    [reflexivity|].
  cbv zeta. destruct (length items =? 0)%nat; [reflexivity|].
  destruct (length items <? 100)%nat; [reflexivity|].
  rewrite IH. reflexivity.
Qed.

Lemma searchMergedPRs_summary (ctx : Context) (b i : string) (maxPRs : Z)
    (st : St W) :
  summary (fst (searchMergedPRs o ctx b i maxPRs st)) = summary st.
Proof.
  unfold searchMergedPRs. cbv zeta.
  apply bind_summary; [apply search_loop_summary|]. reflexivity.
Qed.

Lemma collect_summary (ctx : Context) (inp : Inputs) (st : St W) :
  summary (fst (collect o ctx inp st)) = summary st.
Proof.
  unfold collect. apply bind_summary; [apply listTagsAll_summary|].
  intros tags st1. apply bind_summary; [apply releaseWindow_summary|].
  intros w st2. do 4 (apply bind_summary; [reflexivity|]; intros _ ?).
  apply bind_summary; [apply searchMergedPRs_summary|]. reflexivity.
Qed.

Lemma upsertReleaseByTag_summary (tag body : string) (draft : bool)
    (st : St W) :
  summary (fst (upsertReleaseByTag o tag body draft st)) = summary st.
Proof.
  unfold upsertReleaseByTag, try_catch, bind, call, ret.
  destruct (getReleaseByTag o tag (platform st)) as [w1 [e|existing]]; simpl.
  - destruct (createRelease o tag _ body draft w1) as [w2 [e'|c]]; reflexivity.
  - destruct (updateRelease o _ body draft w1) as [w2 [e|upd]]; simpl;
      [|reflexivity].
    destruct (createRelease o tag _ body draft w2) as [w3 [e'|c]]; reflexivity.
Qed.

Lemma upsertComment_summary (issue : Z) (body : string) (st : St W) :
  summary (fst (upsertComment o issue body st)) = summary st.
Proof.
  unfold upsertComment. apply bind_summary; [apply call_summary|].
  intros comments st'. destruct (find _ comments) as [existing|];
    (apply bind_summary; [apply call_summary|]; reflexivity).
Qed.

Lemma publishPreview_summary (ctx : Context) (inp : Inputs) (st : St W) :
  summary (fst (publishPreview o ctx inp st)) = summary st.
Proof.
  unfold publishPreview.
  destruct (in_previewOnPR inp && String.eqb (eventName ctx) "pull_request");
    [|reflexivity].
  destruct (pull_request ctx) as [prData|]; [|reflexivity].
  destruct (negb (pull_number prData =? 0)%Z); [|reflexivity].
  apply bind_summary; [destruct (section_of _ _ _ _); reflexivity|].
  intros section st1.
  apply bind_summary; [apply upsertComment_summary|]. reflexivity.
Qed.

(** The release sink adds at most one chunk. *)
Lemma publishRelease_summary (ctx : Context) (inp : Inputs) (w : Window)
    (body : string) (st : St W) :
  exists rest,
    summary (fst (publishRelease o ctx inp w body st)) = summary st ++ rest
    /\ (length rest <= 1)%nat.
Proof.
  unfold publishRelease. destruct (in_createRelease inp);
    [|exists []; rewrite app_nil_r; split; [reflexivity|simpl; lia]].
  destruct (String.eqb (eventName ctx) "push" && otruthy (currentTag w)).
  - unfold bind.
    pose proof (upsertReleaseByTag_summary (or_else (currentTag w) "") body
                  (in_draft inp) st) as Hup.
    destruct (upsertReleaseByTag o _ body (in_draft inp) st) as [st1 [res|e|]];
      simpl in *.
    + eexists [_]. rewrite Hup. split; [reflexivity|simpl; lia].
    + exists []. rewrite app_nil_r. split; [exact Hup|simpl; lia].
    + exists []. rewrite app_nil_r. split; [exact Hup|simpl; lia].
  - eexists [_]. split; [reflexivity|simpl; lia].
Qed.

Lemma bind_assoc {A B C} (m : M W A) (k : A -> M W B) (h : B -> M W C)
    (st : St W) :
  bind (bind m k) h st = bind m (fun a => bind (k a) h) st.
Proof. unfold bind. destruct (m st) as [st' [a|e|]]; reflexivity. Qed.

Lemma bind_ext {A B} (m : M W A) (k1 k2 : A -> M W B) (st : St W) :
  (forall a st', k1 a st' = k2 a st') -> bind m k1 st = bind m k2 st.
Proof.
  intros Hk. unfold bind. destruct (m st) as [st' [a|e|]];
    [apply Hk|reflexivity|reflexivity].
Qed.

(** [main] is [collect], then the grouping, the document, the release
    and the preview. *)
Lemma main_collect (ctx : Context) (inp : Inputs) (st : St W) :
  main o ctx inp st
  = bind (collect o ctx inp)
      (fun c =>
         let* buckets := lift (grouped inp (snd c)) in
         writeSummary (render ctx (fst c) buckets) ;;
         publishRelease o ctx inp (fst c) (render ctx (fst c) buckets) ;;
         publishPreview o ctx inp) st.
Proof.
  symmetry. unfold main, collect.
  do 7 (etransitivity; [apply bind_assoc|]; apply bind_ext; intros ? ?).
  reflexivity.
Qed.

End Summary.

(** The chunks of the summary are those [main] wrote: the handler of
    [run] adds none. *)
Lemma run_total_summary {W} (o : Octokit W) (ctx : Context) (inp : Inputs)
    (st : St W) :
  exists st',
    run o ctx inp st = (st', Returned tt)
    /\ summary st' = summary (fst (main o ctx inp st)).
Proof.
  pose proof (main_fuelled o ctx inp st) as Hfuel.
  unfold run, try_catch.
  destruct (main o ctx inp st) as [st1 [[]|e|]]; simpl in Hfuel.
  - exists st1. split; reflexivity.
  - eexists. split; reflexivity.
  - congruence.
Qed.

(** X19. The summary is written as soon as the records are collected
    and grouped: when the grouping loop goes through, over records with
    ASCII titles and labels, the document of the run is the next chunk of
    the step summary, whatever the release and comment requests do
    afterwards, and the release sink adds at most one more chunk. When
    the grouping loop throws, as it does for a [null] section map and a
    record with a label, nothing is written and the run fails with that
    error. *)
Theorem summary_always_written {W} (o : Octokit W) (ctx : Context)
    (inp : Inputs) (st st1 : St W) (w : Window) (prs : list PR) :
  collect o ctx inp st = (st1, Returned (w, prs)) ->
  forallb ascii_record prs = true ->
  (forall buckets,
      grouped inp prs = inr buckets ->
      exists st' rest,
        run o ctx inp st = (st', Returned tt)
        /\ summary st' = summary st ++ render ctx w buckets :: rest
        /\ (length rest <= 1)%nat)
  /\ (forall e,
        grouped inp prs = inl e ->
        exists st',
          run o ctx inp st = (st', Returned tt)
          /\ summary st' = summary st
          /\ failed st' = Some (exn_text e)).
Proof.
  intros Hcollect _.
  pose proof (collect_summary o ctx inp st) as Hquiet.
  rewrite Hcollect in Hquiet. cbn [fst] in Hquiet.
  split.
  - intros buckets Hgroup.
    destruct (run_total_summary o ctx inp st) as (st' & Hrun & Hsum).
    exists st'. rewrite Hsum, main_collect. unfold bind at 1.
    rewrite Hcollect. cbn [fst snd]. rewrite Hgroup.
    unfold bind at 1, lift, ret at 1.
    unfold bind at 1, writeSummary at 1.
    cbn [platform logs summary failed]. unfold bind at 1.
    destruct (publishRelease_summary o ctx inp w (render ctx w buckets)
                (mkSt (platform st1) (logs st1)
                      (summary st1 ++ [render ctx w buckets]) (failed st1)))
      as (rest & Hrel & Hlen).
    exists rest. split; [exact Hrun|]. split; [|exact Hlen].
    destruct (publishRelease o ctx inp w _ _) as [st2 [[]|e|]]; cbn [fst] in *.
    + rewrite publishPreview_summary, Hrel. cbn [summary].
      rewrite Hquiet, <- app_assoc. reflexivity.
    + rewrite Hrel. cbn [summary]. rewrite Hquiet, <- app_assoc. reflexivity.
    + rewrite Hrel. cbn [summary]. rewrite Hquiet, <- app_assoc. reflexivity.
  - intros e Hgroup.
    assert (Hmain : main o ctx inp st = (st1, Thrown e)).
    { rewrite main_collect. unfold bind at 1. rewrite Hcollect.
      cbn [fst snd]. rewrite Hgroup. reflexivity. }
    eexists. split; [apply (run_reports_failure o ctx inp st st1 e Hmain)|].
    split; [exact Hquiet|reflexivity].
Qed.

Lemma summary_always_written_witness :
  match collect Memory.octokit (Scenario.tag_push "v1.1") Scenario.defaults
          (Memory.start Scenario.two_tags) with
  | (_, Returned (w, prs)) =>
      match grouped Scenario.defaults prs with
      | inr buckets =>
          exists st' rest,
            run Memory.octokit (Scenario.tag_push "v1.1") Scenario.defaults
                (Memory.start Scenario.two_tags) = (st', Returned tt)
            /\ summary st'
               = [] ++ render (Scenario.tag_push "v1.1") w buckets :: rest
            /\ (length rest <= 1)%nat
      | inl _ => False
      end
  | _ => False
  end.
Proof.
  destruct (collect Memory.octokit (Scenario.tag_push "v1.1") Scenario.defaults
              (Memory.start Scenario.two_tags)) as [st1 [[w prs]|e|]] eqn:H.
  - assert (Hascii : forallb ascii_record prs = true).
    { vm_compute in H. injection H as _ _ <-. reflexivity. }
    destruct (grouped Scenario.defaults prs) as [e|buckets] eqn:Hgroup.
    + vm_compute in H. injection H as _ _ <-. vm_compute in Hgroup.
      discriminate.
    + exact (proj1 (summary_always_written _ _ _ _ _ _ _ H Hascii)
               buckets Hgroup).
  - vm_compute in H. discriminate.
  - vm_compute in H. discriminate.
Defined.

(** ** The tag of a tag push *)

Lemma prefix_append (p t : string) : String.prefix p (p +:+ t) = true.
Proof.
  induction p as [|c p IH]; [destruct t; reflexivity|].
  rewrite append_cons. cbn [String.prefix].
  destruct (ascii_dec c c); [exact IH|congruence].
Qed.

Lemma index_prefix (p t : string) :
  p ≠ EmptyString -> String.index 0 p (p +:+ t) = Some 0%nat.
Proof.
  destruct p as [|c p]; [congruence|]. intros _.
  rewrite append_cons. cbn [String.index]. rewrite <- append_cons.
  rewrite prefix_append. reflexivity.
Qed.

Lemma substring_all (t : string) : String.substring 0 (String.length t) t = t.
Proof. induction t as [|c t IH]; simpl; [reflexivity|]. rewrite IH. reflexivity. Qed.

Lemma substring_skip (p t : string) (n : nat) :
  String.substring (String.length p) n (p +:+ t) = String.substring 0 n t.
Proof.
  induction p as [|c p IH]; [reflexivity|].
  rewrite append_cons. cbn [String.length String.substring]. exact IH.
Qed.

Lemma length_append (p t : string) :
  String.length (p +:+ t) = (String.length p + String.length t)%nat.
Proof.
  induction p as [|c p IH]; [reflexivity|].
  rewrite append_cons. cbn [String.length]. rewrite IH. reflexivity.
Qed.

Lemma substring_none (s : string) : String.substring 0 0 s = EmptyString.
Proof. destruct s; reflexivity. Qed.

(** Replacing the text a string starts with. *)
Lemma replace_first_prefix (p t by_ : string) :
  p ≠ EmptyString -> replace_first (p +:+ t) p by_ = by_ +:+ t.
Proof.
  intros Hp. unfold replace_first. rewrite (index_prefix p t Hp).
  rewrite substring_none, append_empty. cbn [Nat.add].
  rewrite substring_skip, length_append.
  replace (String.length p + String.length t - String.length p)%nat
    with (String.length t) by lia.
  rewrite substring_all. reflexivity.
Qed.

(** X20. The tag of a tag push is read off the reference when the
    toolkit gives no short name: on a push of [refs/tags/t] without
    [refName], the current tag before the history is read is [t]. *)
Theorem pushedTag_of_ref (ctx : Context) (t : string) :
  eventName ctx = "push" ->
  otruthy (refName ctx) = false ->
  ref ctx = Some ("refs/tags/" +:+ t) ->
  pushedTag ctx = Some t.
Proof.
  intros Hevent Hname Href. unfold pushedTag, isTagPush.
  assert (Hor : or_else (ref ctx) "" = "refs/tags/" +:+ t)
    by (rewrite Href; reflexivity).
  rewrite Hevent, Hor. unfold startsWith. rewrite prefix_append, orb_true_r.
  cbn [String.eqb andb].
  replace (String.eqb "push" "push") with true by reflexivity. cbn [andb].
  assert (Hn : forall d, or_else (refName ctx) d = d).
  { intros d. destruct (refName ctx) as [[|c n]|]; [reflexivity|discriminate|reflexivity]. }
  rewrite Hn, replace_first_prefix by discriminate. reflexivity.
Qed.

Lemma pushedTag_of_ref_witness :
  pushedTag (Scenario.tag_push "v1.1") = Some "v1.1".
Proof.
  apply (pushedTag_of_ref (Scenario.tag_push "v1.1") "v1.1"); reflexivity.
Defined.

(** ** The two revisions of the classifier *)

Lemma hasAny_spec (names cands : list string) :
  Legacy.hasAny names cands = true <-> exists c, In c cands /\ In c names.
Proof.
  unfold Legacy.hasAny, includes. rewrite existsb_exists. split.
  - intros (c & Hc & Hin). apply existsb_exists in Hin as (n & Hn & Heq).
    apply String.eqb_eq in Heq. subst n. exists c. split; assumption.
  - intros (c & Hc & Hin). exists c. split; [exact Hc|].
    apply existsb_exists. exists c. split; [exact Hin|apply String.eqb_refl].
Qed.

Lemma hasAny_section (names cands : list string) (S : string) :
  (forall c, In c cands <-> DEFAULT_LABELS !! c = Some (VString S)) ->
  Legacy.hasAny names cands = true
  <-> exists n, In n names /\ DEFAULT_LABELS !! n = Some (VString S).
Proof.
  intros Hgroup. rewrite hasAny_spec. split; intros (c & H1 & H2); exists c.
  - split; [exact H2|apply Hgroup, H1].
  - split; [apply Hgroup, H2|exact H1].
Qed.

(** The groups of the earlier revision are the keys of the default map,
    section by section. *)
Lemma legacy_groups :
  (forall c, In c ["bug"; "fix"; "bugfix"]
             <-> DEFAULT_LABELS !! c = Some (VString "Fixed"))
  /\ (forall c, In c ["enhancement"; "feat"; "feature"]
                <-> DEFAULT_LABELS !! c = Some (VString "Added"))
  /\ (forall c, In c ["chore"; "refactor"; "deps"; "dependencies"]
                <-> DEFAULT_LABELS !! c = Some (VString "Changed"))
  /\ (forall c, In c ["docs"; "documentation"]
                <-> DEFAULT_LABELS !! c = Some (VString "Docs")).
Proof.
  split; [|split; [|split]]; intros c;
    (split;
     [ intros Hin; cbn [In] in Hin;
       repeat (destruct Hin as [<-|Hin]; [vm_compute; reflexivity|]);
       destruct Hin
     | intros Hc; apply DEFAULT_LABELS_entries in Hc;
       rewrite !elem_of_cons, elem_of_nil in Hc;
       repeat (destruct Hc as [Hc|Hc];
               [first [discriminate Hc
                      | injection Hc as ->; cbn [In]; tauto]|]);
       destruct Hc ]).
Qed.

Lemma default_entry_truthy (n : string) (v : Value) :
  DEFAULT_LABELS !! n = Some v -> value_truthy v = true.
Proof.
  rewrite DEFAULT_LABELS_entries, !elem_of_cons, elem_of_nil. intros H.
  repeat (destruct H as [H|H]; [injection H as _ ->; reflexivity|]).
  destruct H.
Qed.

Lemma legacy_sections (names : list string) (s : string) :
  (forall n s', In n names -> DEFAULT_LABELS !! n = Some (VString s') -> s' = s) ->
  (exists n, In n names /\ DEFAULT_LABELS !! n = Some (VString s)) ->
  forall cands S,
    (forall c, In c cands <-> DEFAULT_LABELS !! c = Some (VString S)) ->
    Legacy.hasAny names cands = String.eqb S s.
Proof.
  intros Hone Hsome cands S Hgroup.
  destruct (String.eqb_spec S s) as [->|Hneq].
  - apply (hasAny_section names cands s Hgroup). exact Hsome.
  - apply not_true_is_false. intros Hany.
    apply (hasAny_section names cands S Hgroup) in Hany as (n & Hin & Hn).
    apply Hneq. exact (Hone n S Hin Hn).
Qed.

Lemma legacy_unmapped (ls cands : list string) (S : string) :
  Forall (fun l => mapped (plain_object DEFAULT_LABELS) l = false) ls ->
  (forall c, In c cands <-> DEFAULT_LABELS !! c = Some (VString S)) ->
  Legacy.hasAny (map toLowerCase ls) cands = false.
Proof.
  intros Hnone Hgroup. apply not_true_is_false. intros Hany.
  apply (hasAny_section _ cands S Hgroup) in Hany as (n & Hin & Hn).
  apply in_map_iff in Hin as (l & <- & Hl).
  rewrite Forall_forall in Hnone. apply list_elem_of_In in Hl.
  specialize (Hnone l Hl). unfold mapped in Hnone.
  rewrite (proj2 (plain_object_string _ _ _) Hn) in Hnone.
  rewrite (default_entry_truthy _ _ Hn) in Hnone. discriminate.
Qed.

(** X21. The two revisions of [bucketForLabels] agree, on the default
    map, on every record with ASCII labels whose deciding labels all name
    one section: the priority of the groups in the earlier revision and
    the order of the labels in the later one can differ only when two
    labels of a record name different sections, or when a label is the
    name of a property every object inherits, which the later revision
    takes for a section. *)
Theorem revisions_agree (ls : list string) (s : string) :
  forallb ascii_text ls = true ->
  (forall l, In l ls ->
             mapped (plain_object DEFAULT_LABELS) l = true ->
             plain_object DEFAULT_LABELS (toLowerCase l) = VString s) ->
  bucketForLabels ls DEFAULT_LABEL_MAP
  = inr (VString (Legacy.bucketForLabels ls)).
Proof.
  intros _ Hone.
  destruct legacy_groups as (HF & HA & HC & HD).
  unfold DEFAULT_LABEL_MAP.
  destruct (first_mapped_or_none (plain_object DEFAULT_LABELS) ls)
    as [(pre & l & post & Hls & Hpre & Hl)|Hnone].
  - assert (Hin : In l ls)
      by (rewrite Hls; apply in_or_app; right; left; reflexivity).
    pose proof (Hone l Hin Hl) as Hs.
    assert (Hnew : bucketForLabels ls (PropertyMap (plain_object DEFAULT_LABELS))
                   = inr (VString s)).
    { rewrite Hls, (bucketForLabels_decided _ pre l post Hpre Hl), Hs.
      reflexivity. }
    rewrite Hnew. f_equal. f_equal. symmetry.
    unfold Legacy.bucketForLabels. cbv zeta.
    assert (Hone' : forall n s', In n (map toLowerCase ls) ->
                      DEFAULT_LABELS !! n = Some (VString s') -> s' = s).
    { intros n s' Hn Hs'. apply in_map_iff in Hn as (l' & <- & Hl').
      assert (Hv : plain_object DEFAULT_LABELS (toLowerCase l') = VString s')
        by (apply plain_object_string, Hs').
      assert (Hm : mapped (plain_object DEFAULT_LABELS) l' = true).
      { unfold mapped. rewrite Hv. exact (default_entry_truthy _ _ Hs'). }
      pose proof (Hone l' Hl' Hm) as Hv'. congruence. }
    assert (Hsome : exists n, In n (map toLowerCase ls)
                              /\ DEFAULT_LABELS !! n = Some (VString s)).
    { exists (toLowerCase l). split; [apply in_map, Hin|].
      apply plain_object_string, Hs. }
    rewrite (legacy_sections _ s Hone' Hsome _ "Fixed" HF),
      (legacy_sections _ s Hone' Hsome _ "Added" HA),
      (legacy_sections _ s Hone' Hsome _ "Changed" HC),
      (legacy_sections _ s Hone' Hsome _ "Docs" HD).
    destruct Hsome as (n & _ & Hn).
    apply DEFAULT_LABELS_entries in Hn.
    rewrite !elem_of_cons, elem_of_nil in Hn.
    repeat (destruct Hn as [Hn|Hn]; [injection Hn as _ ->; reflexivity|]).
    destruct Hn.
  - rewrite (bucketForLabels_unmapped _ _ Hnone). f_equal. f_equal.
    unfold Legacy.bucketForLabels. cbv zeta.
    rewrite (legacy_unmapped ls _ "Fixed" Hnone HF),
      (legacy_unmapped ls _ "Added" Hnone HA),
      (legacy_unmapped ls _ "Changed" Hnone HC),
      (legacy_unmapped ls _ "Docs" Hnone HD).
    reflexivity.
Qed.

Lemma revisions_agree_witness :
  bucketForLabels ["question"; "Bug"; "fix"] DEFAULT_LABEL_MAP
  = inr (VString (Legacy.bucketForLabels ["question"; "Bug"; "fix"])).
Proof.
  apply (revisions_agree ["question"; "Bug"; "fix"] "Fixed"); [reflexivity|].
  intros l Hin Hl. cbn [In] in Hin.
  destruct Hin as [<-|[<-|[<-|[]]]]; vm_compute in Hl; try discriminate;
    vm_compute; reflexivity.
Defined.

(** The label "constructor" is where the revisions part: the earlier one
    has no group for it, the later one finds the function [Object]. *)
Example revisions_part :
  Legacy.bucketForLabels ["constructor"] = "Other"
  /\ bucketForLabels ["constructor"] DEFAULT_LABEL_MAP
     = inr (VOther 1 "function Object() { [native code] }").
Proof. vm_compute. split; reflexivity. Qed.

(** ** The preview of a change request *)

Lemma substring_prefix (m b : string) :
  String.substring 0 (String.length m) (m +:+ b) = m.
Proof.
  induction m as [|c m IH]; [apply substring_none|].
  rewrite append_cons. cbn [String.length String.substring].
  rewrite IH. reflexivity.
Qed.

Lemma str_includes_append (a m b : string) :
  m ≠ EmptyString -> str_includes (a +:+ m +:+ b) m = true.
Proof.
  intros Hm. unfold str_includes.
  destruct (String.index 0 m (a +:+ m +:+ b)) eqn:Hindex; [reflexivity|].
  exfalso.
  apply (String.index_correct3 0 (String.length a) m (a +:+ m +:+ b) Hindex Hm).
  - lia.
  - rewrite substring_skip. apply substring_prefix.
Qed.

(** The body [run] writes for the preview carries the marker. *)
Lemma preview_body_marked (a b : string) :
  str_includes (a +:+ nl +:+ PREVIEW_MARKER +:+ b) PREVIEW_MARKER = true.
Proof.
  rewrite <- append_assoc. apply str_includes_append. discriminate.
Qed.

(** The section of a record is computed whenever the section map can be
    read, and for a record without labels whatever the map. *)
Lemma section_of_returns (m : SectionMap) (uc : bool) (lbls : list string)
    (t : string) :
  m ≠ NullMap \/ lbls = [] -> exists v, section_of m uc lbls t = inr v.
Proof.
  intros H. unfold section_of.
  assert (Hb : exists b, bucketForLabels lbls m = inr b).
  { destruct m as [|get].
    - destruct H as [H| ->]; [congruence|]. eexists. reflexivity.
    - apply bucketForLabels_readable. }
  destruct Hb as [b ->]. eexists. reflexivity.
Qed.

(** X22. The preview of [run] finds its own comment again: on a
    [pull_request] event with [preview_on_pr], with a section map that
    can be read (or a change request without labels), for a change
    request with at most a hundred comments, the run leaves the request
    with a preview comment; it creates the comment when the request had
    none, and when it had one it edits it without adding a comment, and
    logs which of the two it did. *)
Theorem preview_published (ctx : Context) (inp : Inputs)
    (p : PullRequestPayload) (w : Memory.GitHub) (l : list LogLine)
    (s : list string) (f : option string) :
  in_previewOnPR inp = true ->
  eventName ctx = "pull_request" ->
  pull_request ctx = Some p ->
  pull_number p ≠ 0%Z ->
  in_sectionMap inp ≠ NullMap \/ pull_labels p = [] ->
  NoDup (map comment_id (Memory.gh_comments w)) ->
  (length (comments_on (pull_number p) w) <= 100)%nat ->
  exists w' r,
    publishPreview Memory.octokit ctx inp (mkSt w l s f)
    = (mkSt w'
         (l ++ [Info ("Preview comment "
                  +:+ (if updated r then "updated" else "created") +:+ ": "
                  +:+ comment_result_url r)])
         s f,
       Returned tt)
    /\ previews (pull_number p) w' ≠ []
    /\ (previews (pull_number p) w = [] ->
        updated r = false /\ length (previews (pull_number p) w') = 1%nat)
    /\ (previews (pull_number p) w ≠ [] ->
        updated r = true
        /\ length (previews (pull_number p) w')
           = length (previews (pull_number p) w)
        /\ length (Memory.gh_comments w') = length (Memory.gh_comments w)).
Proof.
  intros Hon Hevent Hpull Hnum Hmap ND Hlen.
  unfold publishPreview. rewrite Hon, Hevent, Hpull.
  replace (String.eqb "pull_request" "pull_request") with true by reflexivity.
  cbn [andb]. apply Z.eqb_neq in Hnum. rewrite Hnum. cbn [negb]. cbv zeta.
  destruct (section_of_returns (in_sectionMap inp) (in_useConventional inp)
              (map payload_label (pull_labels p)) (pull_title p))
    as [section Hsection].
  { destruct Hmap as [Hmap| ->]; [left; exact Hmap|right; reflexivity]. }
  rewrite Hsection. unfold bind at 1, lift, ret at 1.
  unfold bind.
  match goal with
  | |- context [upsertComment Memory.octokit ?n ?b ?st] =>
      destruct (upsertComment_step n b w l s f ND Hlen
                  (preview_body_marked _ _))
        as (w' & r & Hrun & _ & Hsome & Hcreated & Hupdated)
  end.
  rewrite Hrun. exists w', r. split; [reflexivity|].
  split; [exact Hsome|]. split.
  - intros Hnone. destruct (Hcreated Hnone) as (Hr & Hone & _).
    split; assumption.
  - intros Hprev. destruct (Hupdated Hprev) as (Hr & Hsame & _ & Hcount).
    repeat split; assumption.
Qed.

Lemma preview_published_witness :
  exists w' r,
    publishPreview Memory.octokit preview_request preview_inputs
      (Memory.start with_comment)
    = (mkSt w'
         ([] ++ [Info ("Preview comment "
                   +:+ (if updated r then "updated" else "created") +:+ ": "
                   +:+ comment_result_url r)])
         [] None,
       Returned tt)
    /\ updated r = false
    /\ length (previews 7 w') = 1%nat.
Proof.
  assert (ND : NoDup (map comment_id (Memory.gh_comments with_comment)))
    by (apply (bool_decide_unpack _); vm_compute; exact I).
  assert (Hlen : (length (comments_on 7 with_comment) <= 100)%nat)
    by (vm_compute; lia).
  destruct (preview_published preview_request preview_inputs
              (mkPullRequestPayload 7 "fix(auth): handle expired tokens"
                 [LabelObject (Some "question")] (Some "alice"))
              with_comment [] [] None eq_refl eq_refl eq_refl
              ltac:(discriminate) ltac:(left; discriminate) ND Hlen)
    as (w' & r & Hrun & _ & Hnew & _).
  exists w', r. split; [exact Hrun|]. apply Hnew. vm_compute. reflexivity.
Defined.

(** ** The previous tag of a tag push *)

Lemma findIndex_first {A} (f : A -> bool) (pre : list A) (x : A) (post : list A) :
  Forall (fun a => f a = false) pre -> f x = true ->
  findIndex f (pre ++ x :: post) = Some (length pre).
Proof.
  intros Hpre Hx. induction Hpre as [|a pre Ha _ IH]; simpl.
  - rewrite Hx. reflexivity.
  - rewrite Ha, IH. reflexivity.
Qed.

(** X23. On a tag push the previous tag is the one listed right after
    the first entry of the pushed tag: with the history
    [newer ++ cur :: prev :: older], where no tag of [newer] has the name
    of the pushed tag, the window runs from [prev] to the pushed tag and
    its baseline is the commit time resolved for [prev]; an error of the
    resolution is the error of the window. *)
Theorem previous_tag_is_next_listed {W} (o : Octokit W) (ctx : Context)
    (days : Z) (newer older : list Tag) (cur prev : Tag) (st : St W) :
  pushedTag ctx = Some (tag_name cur) ->
  tag_name cur ≠ EmptyString ->
  tag_name prev ≠ EmptyString ->
  Forall (fun t => tag_name t ≠ tag_name cur) newer ->
  releaseWindow o ctx days (newer ++ cur :: prev :: older) st =
  match tagCommitDateISO o (tag_name prev) st with
  | (st', Returned b) =>
      (st', Returned (mkWindow (Some (tag_name cur)) (Some (tag_name prev)) b))
  | (st', Thrown e) => (st', Thrown e)
  | (st', OutOfFuel) => (st', OutOfFuel)
  end.
Proof.
  intros Hpush Hcur Hprev Hnewer.
  assert (Htruthy : forall s, s ≠ EmptyString -> truthy s = true)
    by (intros [|c s] H; [congruence|reflexivity]).
  assert (Hor : or_else (pushedTag ctx) "" = tag_name cur).
  { rewrite Hpush. simpl. rewrite (Htruthy _ Hcur). reflexivity. }
  rewrite (releaseWindow_push_older o ctx days _ (length newer) (tag_name prev) st).
  - rewrite Hpush. reflexivity.
  - rewrite Hpush. simpl. apply Htruthy, Hcur.
  - rewrite Hor. apply findIndex_first; [|apply String.eqb_refl].
    eapply Forall_impl; [exact Hnewer|]. intros t Ht. apply String.eqb_neq, Ht.
  - replace (newer ++ cur :: prev :: older)
      with ((newer ++ [cur]) ++ prev :: older)
      by (rewrite <- app_assoc; reflexivity).
    replace (length newer + 1)%nat with (length (newer ++ [cur]))
      by (rewrite length_app; reflexivity).
    rewrite list_lookup_middle by reflexivity. reflexivity.
  - apply Htruthy, Hprev.
Qed.

Lemma previous_tag_is_next_listed_witness :
  releaseWindow Memory.octokit (Scenario.tag_push "v1.1") 30
    ([] ++ mkTag "v1.1" :: mkTag "v1.0" :: [])
    (Memory.start Scenario.two_tags)
  = match tagCommitDateISO Memory.octokit "v1.0" (Memory.start Scenario.two_tags) with
    | (st', Returned b) =>
        (st', Returned (mkWindow (Some "v1.1") (Some "v1.0") b))
    | (st', Thrown e) => (st', Thrown e)
    | (st', OutOfFuel) => (st', OutOfFuel)
    end.
Proof.
  apply (previous_tag_is_next_listed Memory.octokit (Scenario.tag_push "v1.1") 30
           [] [] (mkTag "v1.1") (mkTag "v1.0")).
  - reflexivity.
  - discriminate.
  - discriminate.
  - constructor.
Defined.
